(** * Session, tab and history orchestration of the remote browser service

    A shallow embedding of [src/browser_core.py]: the session registry
    ([BrowserSessionManager]), the per-session tab registry, the navigation
    history of a tab, the idle reaper, the internal search page and the
    streaming connection's state notifications.

    Modelling conventions.
    - A Python [dict] is an association list in insertion order
      ([Dict.t]): [next(iter(d.keys()))] is the first key.
    - A [datetime] is an integer number of microseconds.
    - The browser engine (Playwright), the clock, the UUID generator, the
      search API and the socket are outside the program.  Every call to one
      of them draws the next answer from an [oracle], indexed by a counter
      ([tick]) kept in the [world]; an engine handle (page, context) is the
      tick that created it.
    - A handler is first modelled as run from its first statement to its
      last.  The part on suspension points then opens the two [await]s of
      the manager at which the event loop runs other coroutines between a
      test on, or a removal from, a session's tabs and the statements that
      rely on it.  [asyncio.Lock] is not represented: what the lock of a
      session excludes at such a point is said where the point is opened.
    - An exception leaves every mutation made before it in place, as in
      Python: the monad [M] returns the world together with the outcome. *)

From Stdlib Require Import ZArith List String Ascii Bool Lia.
Import ListNotations.

Open Scope string_scope.
Open Scope Z_scope.

(** ** Python dictionaries with string keys *)

Module Dict.
Section WithValue.
Context {V : Type}.

Definition t := list (string * V).

Definition empty : t := [].

(** [d.get(k)] *)
Fixpoint get (k : string) (d : t) : option V :=
  match d with
  | [] => None
  | (k', v) :: r => if String.eqb k k' then Some v else get k r
  end.

(** [k in d] *)
Definition mem (k : string) (d : t) : bool :=
  match get k d with Some _ => true | None => false end.

(** [d[k] = v]: an existing key keeps its position, a new key goes last. *)
Fixpoint set (k : string) (v : V) (d : t) : t :=
  match d with
  | [] => [(k, v)]
  | (k', v') :: r =>
      if String.eqb k k' then (k, v) :: r else (k', v') :: set k v r
  end.

(** [d.pop(k, None)], as far as the dictionary is concerned. *)
Fixpoint pop (k : string) (d : t) : t :=
  match d with
  | [] => []
  | (k', v') :: r =>
      if String.eqb k k' then r else (k', v') :: pop k r
  end.

(** [list(d.keys())] *)
Definition keys (d : t) : list string := map fst d.

(** [next(iter(d.keys()), None)] *)
Definition first_key (d : t) : option string := hd_error (keys d).

(** [len(d)] *)
Definition len (d : t) : Z := Z.of_nat (List.length d).

(** [not d] *)
Definition is_empty (d : t) : bool :=
  match d with [] => true | _ => false end.

(** Keys are pairwise distinct, as in every Python dictionary. *)
Definition wf (d : t) : Prop := NoDup (keys d).

(** Every value of the dictionary satisfies [P]. *)
Definition every (P : V -> Prop) (d : t) : Prop :=
  Forall (fun kv => P (snd kv)) d.
End WithValue.
Arguments t : clear implicits.
End Dict.

(** ** Data model *)

(** [datetime], in microseconds. *)
Definition datetime := Z.

(** The record stored under a tab id in [session["tabs"]]. *)
Record tab := mkTab {
  page : nat;
  created_at : datetime;
  last_used : datetime;
  history : list string;
  history_index : Z
}.

(** The record stored under a session id in [self.sessions]
    (the ["lock"] entry has no counterpart, see the header). *)
Record session := mkSession {
  context : nat;
  tabs : Dict.t tab;
  active_tab_id : option string;
  sess_created_at : datetime;
  sess_last_used : datetime
}.

(** [BrowserSessionManager] together with the oracle counter. *)
Record world := mkWorld {
  sessions : Dict.t session;
  playwright : option nat;
  browser : option nat;
  cleanup_task : bool;
  tick : nat
}.

Definition set_history (h : list string) (t : tab) : tab :=
  mkTab (page t) (created_at t) (last_used t) h (history_index t).
Definition set_history_index (i : Z) (t : tab) : tab :=
  mkTab (page t) (created_at t) (last_used t) (history t) i.
Definition set_last_used (d : datetime) (t : tab) : tab :=
  mkTab (page t) (created_at t) d (history t) (history_index t).

Definition set_tabs (d : Dict.t tab) (s : session) : session :=
  mkSession (context s) d (active_tab_id s) (sess_created_at s) (sess_last_used s).
Definition set_active_tab_id (a : option string) (s : session) : session :=
  mkSession (context s) (tabs s) a (sess_created_at s) (sess_last_used s).
Definition set_sess_last_used (d : datetime) (s : session) : session :=
  mkSession (context s) (tabs s) (active_tab_id s) (sess_created_at s) d.

Definition set_sessions (d : Dict.t session) (w : world) : world :=
  mkWorld d (playwright w) (browser w) (cleanup_task w) (tick w).
Definition set_playwright (p : option nat) (w : world) : world :=
  mkWorld (sessions w) p (browser w) (cleanup_task w) (tick w).
Definition set_browser (b : option nat) (w : world) : world :=
  mkWorld (sessions w) (playwright w) b (cleanup_task w) (tick w).
Definition set_cleanup_task (b : bool) (w : world) : world :=
  mkWorld (sessions w) (playwright w) (browser w) b (tick w).
Definition set_tick (n : nat) (w : world) : world :=
  mkWorld (sessions w) (playwright w) (browser w) (cleanup_task w) n.

(** [BrowserSessionManager.__init__] *)
Definition init_world : world := mkWorld Dict.empty None None false 0%nat.

(** ** Exceptions and the handler monad *)

Inductive exn :=
| KeyError (msg : string)
| RuntimeError (msg : string)
| HTTPException (status_code : Z) (detail : string)
| WebSocketDisconnect
| AttributeError (msg : string)
| TypeError (msg : string)
| ValueError (msg : string)
| ExternalError (msg : string).
    (* whatever Playwright, httpx or the socket raise *)

Inductive outcome (A : Type) :=
| Ret (a : A)
| Raise (e : exn).
Arguments Ret {A} a.
Arguments Raise {A} e.

Definition M (A : Type) : Type := world -> outcome A * world.

Definition ret {A} (a : A) : M A := fun w => (Ret a, w).

Definition bind {A B} (c : M A) (k : A -> M B) : M B :=
  fun w =>
    match c w with
    | (Ret a, w') => k a w'
    | (Raise e, w') => (Raise e, w')
    end.

Definition raise {A} (e : exn) : M A := fun w => (Raise e, w).

(** [try: c  except Exception as e: h e] *)
Definition try_except {A} (c : M A) (h : exn -> M A) : M A :=
  fun w =>
    match c w with
    | (Ret a, w') => (Ret a, w')
    | (Raise e, w') => h e w'
    end.

(** [try: c  finally: f] *)
Definition try_finally {A} (c : M A) (f : M unit) : M A :=
  fun w =>
    match c w with
    | (r, w') =>
        match f w' with
        | (Ret _, w'') => (r, w'')
        | (Raise e, w'') => (Raise e, w'')
        end
    end.

Definition gets {A} (f : world -> A) : M A := fun w => (Ret (f w), w).
Definition modify (f : world -> world) : M unit := fun w => (Ret tt, f w).

Declare Scope monad_scope.
Delimit Scope monad_scope with monad.
Notation "x <- c ;; k" := (bind c (fun x => k))
  (at level 61, c at next level, right associativity) : monad_scope.
Notation "c ;; k" := (bind c (fun _ => k))
  (at level 61, right associativity) : monad_scope.
Open Scope monad_scope.

(** The outcome of a call that touches nothing. *)
Definition lift {A} (r : outcome A) : M A :=
  match r with
  | Ret a => ret a
  | Raise e => raise e
  end.

(** [for x in xs: body x] *)
Fixpoint for_each {A} (xs : list A) (body : A -> M unit) : M unit :=
  match xs with
  | [] => ret tt
  | x :: r => body x ;; for_each r body
  end.

(** [with contextlib.suppress(Exception): c], [try: c  except Exception: pass] *)
Definition suppress (c : M unit) : M unit := try_except c (fun _ => ret tt).

(** [str(e)] for the exceptions of this program ([str] is never applied to
    an [HTTPException] or a [WebSocketDisconnect] by the handlers). *)
Definition str_exn (e : exn) : string :=
  match e with
  | KeyError msg => "'" ++ msg ++ "'"
  | RuntimeError msg => msg
  | HTTPException c d => d
  | WebSocketDisconnect => EmptyString
  | AttributeError msg => msg
  | TypeError msg => msg
  | ValueError msg => msg
  | ExternalError msg => msg
  end.

(** ** The environment *)

(** A decoded JSON document (a number is abstracted to an integer: only
    whether it is zero matters here). *)
#[warnings="-register-all"]
Inductive json :=
| JNull
| JBool (b : bool)
| JNum (z : Z)
| JStr (s : string)
| JList (l : list json)
| JDict (d : list (string * json)).

(** The answers of everything outside the program, by oracle counter. *)
Record oracle := mkOracle {
  (** [datetime.now(timezone.utc)] *)
  utcnow_at : nat -> datetime;
  (** [str(uuid.uuid4())] *)
  uuid4_at : nat -> string;
  (** an awaited Playwright call: [None] when it returns, [Some msg] when it
      raises *)
  engine_at : nat -> option string;
  (** the property [page.url] *)
  page_url_at : nat -> string;
  (** the value of [await page.title()] when the call returns *)
  page_title_at : nat -> string;
  (** [os.environ.get] *)
  environ : string -> option string;
  (** the HTTP exchange of [_google_cse_search]: the decoded body, or the
      exception of [client.get], [raise_for_status] or [r.json] *)
  cse_at : nat -> outcome json;
  (** [websocket.send_json]: [None] when it returns, [Some msg] when it
      raises *)
  socket_at : nat -> option string
}.

(** *** Sample environments and registries

    Used to run the handlers on concrete inputs. *)

(** An environment in which the engine and the socket answer every call,
    the clock advances by a second per reading, identifiers are single
    letters, and the search API is down. *)
Definition calm : oracle :=
  mkOracle
    (fun n => Z.of_nat n * 1000000)
    (fun n => String (ascii_of_nat (97 + n)) EmptyString)
    (fun _ => None)
    (fun _ => "https://example.org/")
    (fun _ => "Example Domain")
    (fun _ => None)
    (fun _ => Raise (ExternalError "503 Service Unavailable"))
    (fun _ => None).

(** As [calm], but every engine call from tick [k] on raises. *)
Definition engine_down_from (k : nat) : oracle :=
  mkOracle
    (utcnow_at calm) (uuid4_at calm)
    (fun n => if Nat.leb k n then Some "Target closed" else None)
    (page_url_at calm) (page_title_at calm) (environ calm) (cse_at calm)
    (socket_at calm).

(** The text after the first [q=] of a URL. *)
Fixpoint after_q (s : string) : string :=
  match s with
  | EmptyString => EmptyString
  | String "q" (String "=" r) => r
  | String _ r => after_q r
  end.

Definition sample_first_q (url : string) : outcome string := Ret (after_q url).

Definition sample_str_json (j : json) : string := "0".

Definition sample_py_int (j : json) : outcome Z :=
  match j with
  | JNum z => Ret z
  | JBool b => Ret (if b then 1 else 0)
  | _ => Raise (TypeError "int() argument must be a string or a number")
  end.

(** The registry after one [create_session] in [calm]: session [c] with
    its first tab [e]. *)
Definition one_tab : world :=
  mkWorld
    [("c", mkSession 3 [("e", mkTab 5 6000000 7000000 [] (-1))] (Some "e")
             8000000 9000000)]
    (Some 0%nat) (Some 1%nat) true 10.

(** Then one [create_tab]: the tab [k] is added and active. *)
Definition two_tabs : world :=
  mkWorld
    [("c", mkSession 3
             [("e", mkTab 5 6000000 7000000 [] (-1));
              ("k", mkTab 11 12000000 13000000 [] (-1))]
             (Some "k") 8000000 14000000)]
    (Some 0%nat) (Some 1%nat) true 15.

(** A session whose only tab has visited two pages and stands on the
    second. *)
Definition visited : world :=
  mkWorld
    [("c", mkSession 3
             [("e", mkTab 5 6000000 7000000
                      ["https://a.example/"; "https://b.example/"] 1)]
             (Some "e") 8000000 9000000)]
    (Some 0%nat) (Some 1%nat) true 10.

(** Then a second [create_session]: session [k] with its first tab [m]. *)
Definition two_sessions : world :=
  mkWorld
    [("c", mkSession 3 [("e", mkTab 5 6000000 7000000 [] (-1))] (Some "e")
             8000000 9000000);
     ("k", mkSession 11 [("m", mkTab 13 14000000 15000000 [] (-1))] (Some "m")
             16000000 17000000)]
    (Some 0%nat) (Some 1%nat) true 18.

(** As [calm], but the credentials of the search API are set and the API
    answers every request with a document of the usual shape but for its
    [items] entry, which is a number. *)
Definition odd_api : oracle :=
  mkOracle
    (utcnow_at calm) (uuid4_at calm) (engine_at calm)
    (page_url_at calm) (page_title_at calm)
    (fun _ => Some "secret")
    (fun _ =>
       Ret (JDict [("searchInformation", JDict [("totalResults", JStr "1")]);
                   ("items", JNum 5)]))
    (socket_at calm).



Section Model.

Variable O : oracle.

(** Configuration read from the process environment at import time. *)
Variables SESSION_TTL_SECONDS TAB_TTL_SECONDS : Z.

Definition next_tick : M nat :=
  fun w => (Ret (tick w), set_tick (S (tick w)) w).

Definition _utcnow : M datetime := n <- next_tick ;; ret (utcnow_at O n).

Definition uuid4 : M string := n <- next_tick ;; ret (uuid4_at O n).

(** One awaited engine call; the value is the handle it creates, if any. *)
Definition engine : M nat :=
  n <- next_tick ;;
  match engine_at O n with
  | None => ret n
  | Some msg => raise (ExternalError msg)
  end.

Definition engine_ : M unit := engine ;; ret tt.

(** [page.url] *)
Definition page_url : M string := n <- next_tick ;; ret (page_url_at O n).

(** [await page.title()] *)
Definition page_title : M string := n <- engine ;; ret (page_title_at O n).

(** [(t1 - t0).total_seconds() > ttl], for a TTL in seconds *)
Definition total_seconds_gt (t1 t0 : datetime) (ttl : Z) : bool :=
  ttl * 1000000 <? t1 - t0.

(** Python truthiness of an optional string. *)
Definition truthy (o : option string) : bool :=
  match o with
  | Some s => negb (String.eqb s EmptyString)
  | None => false
  end.

Definition opt_eqb (a b : option string) : bool :=
  match a, b with
  | Some x, Some y => String.eqb x y
  | None, None => true
  | _, _ => false
  end.

(** *** JSON values as Python objects *)

Definition json_truthy (j : json) : bool :=
  match j with
  | JNull => false
  | JBool b => b
  | JNum z => negb (z =? 0)
  | JStr s => negb (String.eqb s EmptyString)
  | JList l => match l with [] => false | _ => true end
  | JDict d => match d with [] => false | _ => true end
  end.

(** [j.get(k)] *)
Definition json_get (j : json) (k : string) : M json :=
  match j with
  | JDict d =>
      ret (match Dict.get k d with Some v => v | None => JNull end)
  | _ => raise (AttributeError "object has no attribute 'get'")
  end.

(** [j.get(k, default)] *)
Definition json_get_default (j : json) (k : string) (default : json) : M json :=
  match j with
  | JDict d =>
      ret (match Dict.get k d with Some v => v | None => default end)
  | _ => raise (AttributeError "object has no attribute 'get'")
  end.

(** [a or b] *)
Definition json_or (a b : json) : json := if json_truthy a then a else b.

Definition of_opt (o : option string) : json :=
  match o with Some s => JStr s | None => JNull end.

(** [j in d] for a dictionary with string keys: the key when [j] is one of
    them.  A list or a dictionary is unhashable; any other value is hashable
    and is no key of [d]. *)
Definition json_in {V} (j : json) (d : Dict.t V) : M (option string) :=
  match j with
  | JStr k => ret (if Dict.mem k d then Some k else None)
  | JList _ | JDict _ => raise (TypeError "unhashable type")
  | _ => ret None
  end.

(** *** References into the registry *)

(** A handler holds references to session and tab dictionaries; a write
    through a reference is a write to the registered record.  A record that
    was unregistered meanwhile is unreachable, so the write is dropped. *)
Definition update_session (sid : string) (f : session -> session) : M unit :=
  modify (fun w =>
    match Dict.get sid (sessions w) with
    | Some s => set_sessions (Dict.set sid (f s) (sessions w)) w
    | None => w
    end).

Definition update_tab (sid tid : string) (f : tab -> tab) : M unit :=
  update_session sid (fun s =>
    match Dict.get tid (tabs s) with
    | Some t => set_tabs (Dict.set tid (f t) (tabs s)) s
    | None => s
    end).

(** The record behind a reference held since [s] was read. *)
Definition deref (sid : string) (s : session) : M session :=
  gets (fun w =>
    match Dict.get sid (sessions w) with Some s' => s' | None => s end).

Definition deref_tab (sid tid : string) (t : tab) : M tab :=
  gets (fun w =>
    match Dict.get sid (sessions w) with
    | Some s => match Dict.get tid (tabs s) with Some t' => t' | None => t end
    | None => t
    end).

(** ** BrowserSessionManager

    A method whose name is also that of a request handler of the module
    carries the prefix [mgr_]. *)

Definition initialize : M unit :=
  pw <- gets playwright ;;
  (match pw with
   | None =>
       p <- engine ;;
       modify (set_playwright (Some p)) ;;
       b <- engine ;;
       modify (set_browser (Some b))
   | Some _ => ret tt
   end) ;;
  running <- gets cleanup_task ;;
  if running then ret tt else modify (set_cleanup_task true).

Definition get_session (session_id : string) : M (option session) :=
  gets (fun w => Dict.get session_id (sessions w)).

Definition mgr_close_session (session_id : string) : M unit :=
  ss <- gets sessions ;;
  if Dict.mem session_id ss then
    suppress engine_ ;;
    modify (fun w => set_sessions (Dict.pop session_id (sessions w)) w)
  else ret tt.

Definition fresh_tab (page : nat) (created used : datetime) : tab :=
  mkTab page created used [] (-1).

Definition mgr_create_session : M (string * string) :=
  initialize ;;
  b <- gets browser ;;
  match b with
  | None => raise (RuntimeError "Playwright browser not initialized")
  | Some _ =>
      session_id <- uuid4 ;;
      context <- engine ;;
      first_tab_id <- uuid4 ;;
      page <- engine ;;
      t_created <- _utcnow ;;
      t_used <- _utcnow ;;
      s_created <- _utcnow ;;
      s_used <- _utcnow ;;
      modify (fun w =>
        set_sessions
          (Dict.set session_id
             (mkSession context
                [(first_tab_id, fresh_tab page t_created t_used)]
                (Some first_tab_id) s_created s_used)
             (sessions w)) w) ;;
      ret (session_id, first_tab_id)
  end.

Definition mgr_create_tab (session_id : string) : M string :=
  s <- get_session session_id ;;
  match s with
  | None => raise (KeyError "Session not found")
  | Some _ =>
      tab_id <- uuid4 ;;
      page <- engine ;;
      t_created <- _utcnow ;;
      t_used <- _utcnow ;;
      update_session session_id (fun s =>
        set_tabs (Dict.set tab_id (fresh_tab page t_created t_used) (tabs s)) s) ;;
      update_session session_id (set_active_tab_id (Some tab_id)) ;;
      now <- _utcnow ;;
      update_session session_id (set_sess_last_used now) ;;
      ret tab_id
  end.

(** [close_tab], run without interruption ([mgr_close_tab_meanwhile] opens
    its [await]). *)
Definition mgr_close_tab (session_id : string) (tab_id : json) : M unit :=
  s <- get_session session_id ;;
  match s with
  | None => raise (KeyError "Session not found")
  | Some session =>
      present <- json_in tab_id (tabs session) ;;
      match present with
      | None => raise (KeyError "Tab not found")
      | Some tid =>
          update_session session_id (fun s =>
            set_tabs (Dict.pop tid (tabs s)) s) ;;
          suppress engine_ ;;
          session <- deref session_id session ;;
          if Dict.is_empty (tabs session) then
            mgr_close_session session_id
          else
            (if opt_eqb (active_tab_id session) (Some tid) then
               update_session session_id (fun s =>
                 set_active_tab_id (Dict.first_key (tabs s)) s)
             else ret tt) ;;
            now <- _utcnow ;;
            update_session session_id (set_sess_last_used now)
      end
  end.

Definition mgr_activate_tab (session_id : string) (tab_id : json) : M unit :=
  s <- get_session session_id ;;
  match s with
  | None => raise (KeyError "Session not found")
  | Some session =>
      present <- json_in tab_id (tabs session) ;;
      match present with
      | None => raise (KeyError "Tab not found")
      | Some tid =>
          update_session session_id (set_active_tab_id (Some tid)) ;;
          now <- _utcnow ;;
          update_session session_id (set_sess_last_used now) ;;
          now <- _utcnow ;;
          update_tab session_id tid (set_last_used now)
      end
  end.

Definition _resolve_tab (session : session) (tab_id : json)
  : M (string * tab) :=
  let tid := json_or tab_id (of_opt (active_tab_id session)) in
  if negb (json_truthy tid) then raise (KeyError "Tab not found")
  else
    present <- json_in tid (tabs session) ;;
    match present with
    | None => raise (KeyError "Tab not found")
    | Some k =>
        match Dict.get k (tabs session) with
        | Some t => ret (k, t)
        | None => raise (KeyError k)
        end
    end.

Definition get_page (session_id : string) (tab_id : json)
  : M (string * nat) :=
  s <- get_session session_id ;;
  match s with
  | None => raise (KeyError "Session not found")
  | Some session =>
      r <- _resolve_tab session tab_id ;;
      let (tid, t) := r in
      now <- _utcnow ;;
      update_session session_id (set_sess_last_used now) ;;
      now <- _utcnow ;;
      update_tab session_id tid (set_last_used now) ;;
      ret (tid, page t)
  end.

(** One pass of the inner loop of [_cleanup_idle] over a snapshot entry,
    run without interruption ([reap_tab_meanwhile] opens its [await]).
    A tab always carries ["last_used"] and a [datetime] is truthy, so
    [tab.get("last_used") or ...] is the tab's own timestamp. *)
Definition reap_tab (now : datetime) (sid : string) (sess : session)
    (item : string * tab) : M unit :=
  let (tid, t) := item in
  sess <- deref sid sess ;;
  t <- deref_tab sid tid t ;;
  if total_seconds_gt now (last_used t) TAB_TTL_SECONDS
     && (1 <? Dict.len (tabs sess)) then
    suppress engine_ ;;
    update_session sid (fun s => set_tabs (Dict.pop tid (tabs s)) s) ;;
    sess <- deref sid sess ;;
    if opt_eqb (active_tab_id sess) (Some tid) then
      update_session sid (fun s =>
        set_active_tab_id (Dict.first_key (tabs s)) s)
    else ret tt
  else ret tt.

(** The body of the outer loop of [_cleanup_idle]; the value tells whether
    the session id is appended to [to_close_sessions]. *)
Definition reap_session (now : datetime) (item : string * session) : M bool :=
  let (sid, sess) := item in
  sess <- deref sid sess ;;
  for_each (tabs sess) (reap_tab now sid sess) ;;
  sess <- deref sid sess ;;
  ret (total_seconds_gt now (sess_last_used sess) SESSION_TTL_SECONDS).

Fixpoint reap_sessions (now : datetime) (items : list (string * session))
  : M (list string) :=
  match items with
  | [] => ret []
  | (sid, sess) :: r =>
      expired <- reap_session now (sid, sess) ;;
      rest <- reap_sessions now r ;;
      ret (if expired then sid :: rest else rest)
  end.

Definition _cleanup_idle : M unit :=
  now <- _utcnow ;;
  snapshot <- gets sessions ;;
  to_close_sessions <- reap_sessions now snapshot ;;
  for_each to_close_sessions (fun sid => suppress (mgr_close_session sid)).

Definition cleanup : M unit :=
  modify (set_cleanup_task false) ;;
  ss <- gets sessions ;;
  for_each (Dict.keys ss) (fun sid => suppress (mgr_close_session sid)) ;;
  b <- gets browser ;;
  (match b with Some _ => suppress engine_ | None => ret tt end) ;;
  p <- gets playwright ;;
  match p with Some _ => suppress engine_ | None => ret tt end.


(** ** Text *)

Definition nl : string := String (ascii_of_nat 10) EmptyString.
Definition dq : string := String (ascii_of_nat 34) EmptyString.

Definition lower_ascii (c : ascii) : ascii :=
  let n := nat_of_ascii c in
  if (Nat.leb 65 n && Nat.leb n 90)%bool then ascii_of_nat (n + 32) else c.

(** [s.lower()] *)
Fixpoint lower (s : string) : string :=
  match s with
  | EmptyString => EmptyString
  | String c r => String (lower_ascii c) (lower r)
  end.

(** [s.startswith(p)] *)
Definition startswith (s p : string) : bool := String.prefix p s.

(** [c.isspace()] on ASCII. *)
Definition isspace (c : ascii) : bool :=
  let n := nat_of_ascii c in
  ((Nat.leb 9 n && Nat.leb n 13) || (Nat.leb 28 n && Nat.leb n 32))%bool.

Fixpoint lstrip (s : string) : string :=
  match s with
  | EmptyString => EmptyString
  | String c r => if isspace c then lstrip r else s
  end.

Fixpoint rstrip (s : string) : string :=
  match s with
  | EmptyString => EmptyString
  | String c r =>
      match rstrip r with
      | EmptyString => if isspace c then EmptyString else String c EmptyString
      | r' => String c r'
      end
  end.

(** [s.strip()] *)
Definition strip (s : string) : string := rstrip (lstrip s).

(** [s.replace(c, r)] for a one-character [c]. *)
Fixpoint replace (c : ascii) (r : string) (s : string) : string :=
  match s with
  | EmptyString => EmptyString
  | String a rest =>
      if Ascii.eqb a c then r ++ replace c r rest
      else String a (replace c r rest)
  end.

(** The local function [esc] of [_render_search_results_html]. *)
Definition esc (s : string) : string :=
  replace (ascii_of_nat 34) "&quot;"
    (replace ">" "&gt;" (replace "<" "&lt;" (replace "&" "&amp;" s))).

(** [needle in s] *)
Fixpoint contains (needle s : string) : bool :=
  (String.prefix needle s
   || match s with
      | EmptyString => false
      | String _ r => contains needle r
      end)%bool.

(** [l[:stop]] *)
Definition slice_to {A} (l : list A) (stop : Z) : list A :=
  if stop <? 0 then firstn (Z.to_nat (Z.max 0 (Z.of_nat (List.length l) + stop))) l
  else firstn (Z.to_nat stop) l.

(** ** The internal search page *)

Definition _is_internal (url : string) : bool :=
  startswith (lower url) "chrome://".

(** [urlparse] and [parse_qs] belong to the standard library of Python:
    [first_q url] is the value of
    [(parse_qs(urlparse(url).query).get("q") or [empty])[0].strip()],
    or the [ValueError] of [urlparse]. *)
Variable first_q : string -> outcome string.

Definition _parse_internal_search (url : string) : outcome (option string) :=
  if String.eqb url EmptyString then Ret None
  else if negb (startswith (lower url) "chrome://search") then Ret None
  else
    match first_q url with
    | Ret q => Ret (Some q)
    | Raise e => Raise e
    end.

Definition _google_cse_search (query : string) : M json :=
  if (truthy (environ O "GOOGLE_CSE_API_KEY")
      && truthy (environ O "GOOGLE_CSE_CX"))%bool then
    n <- next_tick ;;
    match cse_at O n with
    | Ret data => ret data
    | Raise e => raise e
    end
  else raise (RuntimeError "Missing GOOGLE_CSE_API_KEY or GOOGLE_CSE_CX").

(** [esc(it.get(k) or empty)]: [esc] calls [replace] on its argument
    unless the argument is falsy. *)
Definition esc_field (it : json) (k : string) : M string :=
  v <- json_get it k ;;
  match json_or (json_or v (JStr EmptyString)) (JStr EmptyString) with
  | JStr s => ret (esc s)
  | _ => raise (AttributeError "object has no attribute 'replace'")
  end.

Definition result_row (link title display snippet : string) : string :=
  String.concat nl
  [ EmptyString;
    "      <div class=\" ++ dq ++ "result\" ++ dq ++ ">";
    "        <a class=\" ++ dq ++ "title\" ++ dq ++ " href=\" ++ dq ++ link
      ++ "\" ++ dq ++ ">" ++ title ++ "</a>";
    "        <div class=\" ++ dq ++ "meta\" ++ dq ++ ">" ++ display
      ++ "</div>";
    "        <div class=\" ++ dq ++ "snippet\" ++ dq ++ ">" ++ snippet
      ++ "</div>";
    "      </div>";
    "            " ].

Fixpoint render_rows (items : list json) : M (list string) :=
  match items with
  | [] => ret []
  | it :: r =>
      title <- esc_field it "title" ;;
      link <- esc_field it "link" ;;
      snippet <- esc_field it "snippet" ;;
      display <- esc_field it "displayLink" ;;
      rows <- render_rows r ;;
      ret (result_row link title display snippet :: rows)
  end.

(** [for it in items]: what is iterated, or the exception of iterating a
    value that is not a list (a truthy string or dictionary yields strings,
    on which [it.get] fails). *)
Definition iter_items (items : json) : M (list json) :=
  match items with
  | JList l => ret l
  | JDict _ | JStr _ => raise (AttributeError "'str' object has no attribute 'get'")
  | _ => raise (TypeError "object is not iterable")
  end.

(** The page returned when the search fails: the template of the [except]
    branch, cut at the anchor that holds [esc(google_url)]. *)
Definition fallback_head : string :=
  String.concat nl
  [ "<!doctype html>";
    "<html>";
    "<head>";
    "  <meta charset=\" ++ dq ++ "utf-8\" ++ dq ++ " />";
    "  <meta name=\" ++ dq ++ "viewport\" ++ dq ++ " content=\" ++ dq
      ++ "width=device-width, initial-scale=1\" ++ dq ++ " />";
    "  <title>Search</title>";
    "  <style>";
    "    body { background:#0b0b0f; color:#e4e4e7; font-family: ui-sans-serif, system-ui; padding: 24px; }";
    "    a { color:#38bdf8; }";
    "    .card { background: rgba(39,39,42,.6); border: 1px solid rgba(63,63,70,.6); border-radius: 16px; padding: 16px; }";
    "    .muted { color:#a1a1aa; }";
    "  </style>";
    "</head>";
    "<body>";
    "  <div class=\" ++ dq ++ "card\" ++ dq ++ ">";
    "    <h2 style=\" ++ dq ++ "margin:0 0 8px 0\" ++ dq
      ++ ">Search temporarily unavailable</h2>";
    "    <p class=\" ++ dq ++ "muted\" ++ dq ++ " style=\" ++ dq
      ++ "margin:0 0 12px 0\" ++ dq
      ++ ">Google CSE API request failed. You can still open the web search directly:</p>" ].

Definition fallback_tail : string :=
  String.concat nl
  [ "  </div>";
    "</body>";
    "</html>" ].

(** The anchor of the fallback page: a link to the web search on [q]. *)
Definition search_link (q : string) : string :=
  let google_url := "https://www.google.com/search?q=" ++ q in
  "<a href=\" ++ dq ++ esc google_url ++ "\" ++ dq ++ " target=\" ++ dq
  ++ "_blank\" ++ dq ++ ">Open Google search</a>".

Definition fallback_page (safe_q : string) : string :=
  fallback_head ++ nl ++ "    " ++ search_link safe_q ++ nl ++ fallback_tail.

(** [str(total)] for a value that is not a string. *)
Variable str_json : json -> string.

Definition results_page (safe_q total results_html : string) : string :=
  String.concat nl
  [ "<!doctype html>";
    "<html>";
    "<head>";
    "  <meta charset=\" ++ dq ++ "utf-8\" ++ dq ++ " />";
    "  <meta name=\" ++ dq ++ "viewport\" ++ dq ++ " content=\" ++ dq
      ++ "width=device-width, initial-scale=1\" ++ dq ++ " />";
    "  <title>Search: " ++ esc safe_q ++ "</title>";
    "  <style>";
    "    body { background:#0b0b0f; color:#e4e4e7; font-family: ui-sans-serif, system-ui; margin:0; }";
    "    .topbar { padding: 16px 20px; border-bottom: 1px solid rgba(63,63,70,.6); background: rgba(24,24,27,.8); position: sticky; top: 0; }";
    "    .q { font-size: 18px; font-weight: 700; margin: 0; }";
    "    .sub { margin: 6px 0 0 0; color:#a1a1aa; font-size: 12px; }";
    "    .wrap { padding: 18px 20px 28px 20px; }";
    "    .result { padding: 14px 14px; border: 1px solid rgba(63,63,70,.6); border-radius: 14px; background: rgba(39,39,42,.35); margin-bottom: 12px; }";
    "    .title { display:block; font-weight: 700; color:#38bdf8; text-decoration:none; }";
    "    .title:hover { text-decoration: underline; }";
    "    .meta { color:#34d399; font-size: 12px; margin-top: 6px; overflow:hidden; text-overflow: ellipsis; white-space:nowrap; }";
    "    .snippet { color:#d4d4d8; font-size: 13px; margin-top: 8px; line-height: 1.35; }";
    "    .muted { color:#a1a1aa; }";
    "  </style>";
    "</head>";
    "<body>";
    "  <div class=\" ++ dq ++ "topbar\" ++ dq ++ ">";
    "    <p class=\" ++ dq ++ "q\" ++ dq ++ ">" ++ esc safe_q ++ "</p>";
    "    <p class=\" ++ dq ++ "sub\" ++ dq ++ ">About " ++ esc total
      ++ " results (via Custom Search)</p>";
    "  </div>";
    "  <div class=\" ++ dq ++ "wrap\" ++ dq ++ ">";
    "    " ++ results_html;
    "  </div>";
    "</body>";
    "</html>" ].

Definition no_results : string :=
  "<div class=\" ++ dq ++ "muted\" ++ dq ++ ">No results</div>".

Definition _render_search_results_html (query : string) : M string :=
  let safe_q := strip query in
  fetched <-
    try_except
      (data <- _google_cse_search safe_q ;;
       items <- json_get data "items" ;;
       info <- json_get data "searchInformation" ;;
       total <- json_get (json_or info (JDict [])) "totalResults" ;;
       ret (Some (json_or items (JList []), json_or total (JStr "0"))))
      (fun _ => ret None) ;;
  match fetched with
  | None => ret (fallback_page safe_q)
  | Some (items, total) =>
      its <- iter_items items ;;
      rows <- render_rows its ;;
      let results_html :=
        match rows with
        | [] => no_results
        | _ => String.concat EmptyString rows
        end in
      let total :=
        match total with JStr s => s | _ => str_json total end in
      ret (results_page safe_q total results_html)
  end.


(** ** Request handlers *)

(** The bodies of the replies, without the image data of a screenshot. *)
Inductive response :=
| CreateSessionResponse (session_id : string) (created_at : datetime)
    (initial_tab_id : string)
| CreateTabResponse (tab_id : string)
| SessionStatusResponse (session_id : string) (active_tab_id : option string)
    (current_url title : string) (can_go_back can_go_forward : bool)
| ScreenshotResponse (url title tab_id : string)
| Reply (status : string) (url title tab_id : option string).

(** [session["tabs"][tid]] through a reference to the session *)
Definition tab_ref (sid : string) (session : session) (tid : string) : M tab :=
  session <- deref sid session ;;
  match Dict.get tid (tabs session) with
  | Some t => ret t
  | None => raise (KeyError tid)
  end.

(** The three statements that record a visited URL; they stand in
    [navigate] twice and in [websocket_endpoint] once:
    [tab["history"] = tab["history"][: tab["history_index"] + 1]],
    [tab["history"].append(url)],
    [tab["history_index"] = len(tab["history"]) - 1]. *)
Definition push_history (url : string) (t : tab) : tab :=
  let t := set_history (slice_to (history t) (history_index t + 1)) t in
  let t := set_history (history t ++ [url]) t in
  set_history_index (Z.of_nat (List.length (history t)) - 1) t.

Definition create_session : M response :=
  try_except
    (r <- mgr_create_session ;;
     let (session_id, tab_id) := r in
     s <- get_session session_id ;;
     match s with
     | None => raise (RuntimeError "Session not created")
     | Some session =>
         ret (CreateSessionResponse session_id (sess_created_at session) tab_id)
     end)
    (fun e => raise (HTTPException 500 (str_exn e))).

Definition close_session (session_id : string) : M response :=
  s <- get_session session_id ;;
  match s with
  | None => raise (HTTPException 404 "Session not found")
  | Some _ =>
      mgr_close_session session_id ;;
      ret (Reply "closed" None None None)
  end.

Definition create_tab (session_id : string) : M response :=
  s <- get_session session_id ;;
  match s with
  | None => raise (HTTPException 404 "Session not found")
  | Some _ =>
      try_except
        (tab_id <- mgr_create_tab session_id ;; ret (CreateTabResponse tab_id))
        (fun e => raise (HTTPException 500 (str_exn e)))
  end.

Definition close_tab (session_id tab_id : string) : M response :=
  try_except
    (mgr_close_tab session_id (JStr tab_id) ;;
     ret (Reply "closed" None None (Some tab_id)))
    (fun e =>
       match e with
       | KeyError _ => raise (HTTPException 404 (str_exn e))
       | _ => raise (HTTPException 500 (str_exn e))
       end).

Definition activate_tab (session_id tab_id : string) : M response :=
  try_except
    (mgr_activate_tab session_id (JStr tab_id) ;;
     ret (Reply "active" None None (Some tab_id)))
    (fun e =>
       match e with
       | KeyError _ => raise (HTTPException 404 (str_exn e))
       | _ => raise e
       end).

Definition get_session_status (session_id : string) (tab_id : option string)
  : M response :=
  s <- get_session session_id ;;
  match s with
  | None => raise (HTTPException 404 "Session not found")
  | Some session =>
      try_except
        (r <- get_page session_id (of_opt tab_id) ;;
         let (tid, page) := r in
         tab <- tab_ref session_id session tid ;;
         session <- deref session_id session ;;
         current_url <- page_url ;;
         title <- page_title ;;
         ret (SessionStatusResponse session_id (active_tab_id session)
                current_url title
                (0 <? history_index tab)
                (history_index tab <? Z.of_nat (List.length (history tab)) - 1)))
        (fun e =>
           match e with
           | KeyError _ => raise (HTTPException 404 "Tab not found")
           | _ => raise e
           end)
  end.

Definition placeholder_html : string :=
  "<html><body style='background:#0b0b0f;color:#e4e4e7;font-family:system-ui;padding:24px'>"
  ++ "<h2>Internal page</h2><p>This page is not implemented.</p></body></html>".

(** [except HTTPException: raise], [except KeyError: ... 404] *)
Definition not_found_404 {A} (e : exn) : M A :=
  match e with
  | HTTPException _ _ => raise e
  | KeyError _ => raise (HTTPException 404 "Session or tab not found")
  | _ => raise e
  end.

Definition navigate (session_id url : string) (tab_id : option string)
  : M response :=
  try_except
    (s <- get_session session_id ;;
     match s with
     | None => raise (HTTPException 404 "Session not found")
     | Some session =>
         r <- get_page session_id (of_opt tab_id) ;;
         let (tid, page) := r in
         _ <- tab_ref session_id session tid ;;
         if _is_internal url then
           q <- lift (_parse_internal_search url) ;;
           match q with
           | Some q =>
               html <- _render_search_results_html q ;;
               engine_ ;;   (* page.set_content(html, ...) *)
               engine_ ;;   (* page.wait_for_timeout(200) *)
               update_tab session_id tid (push_history url) ;;
               ret (Reply "navigated" (Some url) (Some ("Search: " ++ q))
                      (Some tid))
           | None =>
               engine_ ;;   (* page.set_content(placeholder_html, ...) *)
               ret (Reply "navigated" (Some url) (Some "Internal page")
                      (Some tid))
           end
         else
           engine_ ;;       (* page.goto(url, ...) *)
           try_except engine_ (fun _ => ret tt) ;;
                            (* page.wait_for_load_state, else asyncio.sleep *)
           final_url <- page_url ;;
           update_tab session_id tid (push_history final_url) ;;
           current_url <- page_url ;;
           title <- page_title ;;
           ret (Reply "navigated" (Some current_url) (Some title) (Some tid))
     end)
    (fun e =>
       match e with
       | HTTPException _ _ => raise e
       | KeyError _ => raise (HTTPException 404 "Session or tab not found")
       | _ => raise (HTTPException 500 (str_exn e))
       end).

Definition go_back (session_id : string) (tab_id : option string)
  : M response :=
  try_except
    (s <- get_session session_id ;;
     match s with
     | None => raise (HTTPException 404 "Session not found")
     | Some session =>
         r <- get_page session_id (of_opt tab_id) ;;
         let (tid, page) := r in
         tab <- tab_ref session_id session tid ;;
         if 0 <? history_index tab then
           update_tab session_id tid (fun t =>
             set_history_index (history_index t - 1) t) ;;
           engine_ ;;       (* page.go_back() *)
           current_url <- page_url ;;
           ret (Reply "success" (Some current_url) None (Some tid))
         else ret (Reply "no_history" None None (Some tid))
     end)
    not_found_404.

Definition go_forward (session_id : string) (tab_id : option string)
  : M response :=
  try_except
    (s <- get_session session_id ;;
     match s with
     | None => raise (HTTPException 404 "Session not found")
     | Some session =>
         r <- get_page session_id (of_opt tab_id) ;;
         let (tid, page) := r in
         tab <- tab_ref session_id session tid ;;
         if history_index tab <? Z.of_nat (List.length (history tab)) - 1 then
           update_tab session_id tid (fun t =>
             set_history_index (history_index t + 1) t) ;;
           engine_ ;;       (* page.go_forward() *)
           current_url <- page_url ;;
           ret (Reply "success" (Some current_url) None (Some tid))
         else ret (Reply "no_forward_history" None None (Some tid))
     end)
    not_found_404.

(** [except KeyError: ... 404] alone *)
Definition key_error_404 {A} (e : exn) : M A :=
  match e with
  | KeyError _ => raise (HTTPException 404 "Session or tab not found")
  | _ => raise e
  end.

Definition refresh (session_id : string) (tab_id : option string)
  : M response :=
  try_except
    (r <- get_page session_id (of_opt tab_id) ;;
     let (tid, page) := r in
     engine_ ;;             (* page.reload() *)
     current_url <- page_url ;;
     ret (Reply "refreshed" (Some current_url) None (Some tid)))
    key_error_404.

Definition get_screenshot (session_id : string) (tab_id : option string)
  : M response :=
  try_except
    (r <- get_page session_id (of_opt tab_id) ;;
     let (tid, page) := r in
     engine_ ;;             (* page.screenshot(...) *)
     current_url <- page_url ;;
     title <- page_title ;;
     ret (ScreenshotResponse current_url title tid))
    (fun e =>
       match e with
       | KeyError _ => raise (HTTPException 404 "Session or tab not found")
       | _ => raise (HTTPException 500 (str_exn e))
       end).

(** [click], [type_text], [keypress] and [scroll] have one shape: resolve
    the page, one engine call, acknowledge. *)
Definition page_action (status : string) (session_id : string)
    (tab_id : option string) : M response :=
  try_except
    (r <- get_page session_id (of_opt tab_id) ;;
     let (tid, page) := r in
     engine_ ;;
     ret (Reply status None None (Some tid)))
    key_error_404.

Definition click := page_action "clicked".
Definition type_text := page_action "typed".
Definition keypress := page_action "pressed".
Definition scroll := page_action "scrolled".

Definition cleanup_sessions : M unit := cleanup.


(** ** The streaming connection *)

(** What is handed to [websocket.send_json]. *)
Inductive message :=
| MState (state : string) (ts : datetime) (tab_id : option string)
    (session_id : option string)
| MScreenshot (url title : string) (tab_id : option string) (ts : datetime)
| MPong (ts : datetime)
| MError (msg : string) (tab_id : option json)
| MTabCreated (tab_id : string)
| MSessionClosed
| MTabClosed (tab_id : json) (active_tab_id : option string).

(** The second argument of [send_state], as its callers build it. *)
Inductive extra :=
| ExtraSessionId (session_id : string)
| ExtraTabId (tab_id : option string).

(** The local variables of [websocket_endpoint], and what the connection
    handed to the socket so far, oldest first, each with whether
    [send_json] returned. *)
Record conn := mkConn {
  streaming : bool;
  conn_active_tab_id : option string;
  is_navigating : bool;
  last_sent_state : option string;
  outbox : list (message * bool)
}.

Definition set_streaming (b : bool) (c : conn) : conn :=
  mkConn b (conn_active_tab_id c) (is_navigating c) (last_sent_state c) (outbox c).
Definition set_conn_active_tab_id (a : option string) (c : conn) : conn :=
  mkConn (streaming c) a (is_navigating c) (last_sent_state c) (outbox c).
Definition set_is_navigating (b : bool) (c : conn) : conn :=
  mkConn (streaming c) (conn_active_tab_id c) b (last_sent_state c) (outbox c).
Definition set_last_sent_state (l : option string) (c : conn) : conn :=
  mkConn (streaming c) (conn_active_tab_id c) (is_navigating c) l (outbox c).
Definition add_out (m : message * bool) (c : conn) : conn :=
  mkConn (streaming c) (conn_active_tab_id c) (is_navigating c)
    (last_sent_state c) (outbox c ++ [m]).

(** How one round of the command loop ends: with [continue], or by leaving
    the loop ([return], or an exception that nothing catches). *)
Inductive ws_result :=
| Continue (c : conn)
| Finished (c : conn) (e : option exn).

(** Run [c] and hand its outcome over as a value. *)
Definition attempt {A} (c : M A) : M (outcome A) :=
  fun w => match c w with (r, w') => (Ret r, w') end.

(** [await websocket.send_json(msg)]: the connection afterwards, and the
    exception if the call raised. *)
Definition send_json (msg : message) (c : conn) : M (conn * option exn) :=
  n <- next_tick ;;
  match socket_at O n with
  | None => ret (add_out (msg, true) c, None)
  | Some e => ret (add_out (msg, false) c, Some (ExternalError e))
  end.

(** An awaited call on the socket that carries no message of the
    protocol: [accept] and [close]. *)
Definition socket_call : M unit :=
  n <- next_tick ;;
  match socket_at O n with
  | None => ret tt
  | Some e => raise (ExternalError e)
  end.

(** A send outside any [try]: an exception leaves the loop. *)
Definition send_then (msg : message) (c : conn) (k : conn -> M ws_result)
  : M ws_result :=
  r <- send_json msg c ;;
  match r with
  | (c, None) => k c
  | (c, Some e) => ret (Finished c (Some e))
  end.

Definition continue (c : conn) : M ws_result := ret (Continue c).

Definition state_payload (state : string) (ts : datetime)
    (tab_id : option string) (ex : option extra) : message :=
  match ex with
  | None => MState state ts tab_id None
  | Some (ExtraSessionId sid) => MState state ts tab_id (Some sid)
  | Some (ExtraTabId t) => MState state ts t None
  end.

Definition send_state (state : string) (ex : option extra) (c : conn)
  : M conn :=
  if opt_eqb (Some state) (last_sent_state c) then ret c
  else
    let c := set_last_sent_state (Some state) c in
    ts <- _utcnow ;;
    r <- send_json (state_payload state ts (conn_active_tab_id c) ex) c ;;
    ret (fst r).

(** One round of [stream_screenshots]. *)
Definition stream_step (session_id : string) (c : conn) : M conn :=
  r <- attempt (get_page session_id (of_opt (conn_active_tab_id c))) ;;
  match r with
  | Ret _ =>
      if is_navigating c then ret c
      else
        shot <- attempt
          (engine_ ;;
           url <- page_url ;;
           title <- page_title ;;
           ts <- _utcnow ;;
           ret (MScreenshot url title (conn_active_tab_id c) ts)) ;;
        match shot with
        | Ret msg => r <- send_json msg c ;; ret (fst r)
        | Raise _ => ret c
        end
  | Raise (KeyError _) => send_state "tab_missing" None c
  | Raise _ => ret c
  end.

(** [websocket_endpoint] up to the start of the command loop: [None] when
    the session is unknown and the socket is closed with code 4004. *)
Definition ws_open (session_id : string) : M (option conn) :=
  socket_call ;;            (* websocket.accept() *)
  s <- get_session session_id ;;
  match s with
  | None =>
      socket_call ;;        (* websocket.close(code=4004, ...) *)
      ret None
  | Some session =>
      c <- send_state "connected" (Some (ExtraSessionId session_id))
             (mkConn true (active_tab_id session) false None []) ;;
      ret (Some c)
  end.

(** [int] is a builtin of Python. *)
Variable py_int : json -> outcome Z.

Definition json_is (j : json) (s : string) : bool :=
  match j with JStr x => String.eqb x s | _ => false end.

Definition json_str (j : json) : option string :=
  match j with JStr x => Some x | _ => None end.

Definition ws_activate_tab (session_id : string) (c : conn) (data : json)
  : M ws_result :=
  g <- attempt (json_get data "tabId") ;;
  match g with
  | Raise e => ret (Finished c (Some e))
  | Ret tab_id =>
      if json_truthy tab_id then
        r <- attempt (mgr_activate_tab session_id tab_id) ;;
        match r with
        | Ret _ =>
            let c := set_conn_active_tab_id (json_str tab_id) c in
            c <- send_state "tab_activated"
                   (Some (ExtraTabId (conn_active_tab_id c))) c ;;
            continue c
        | Raise (KeyError _) =>
            send_then (MError "Tab not found" (Some tab_id)) c continue
        | Raise e => ret (Finished c (Some e))
        end
      else continue c
  end.

Definition ws_new_tab (session_id : string) (c : conn) : M ws_result :=
  r <- attempt (mgr_create_tab session_id) ;;
  match r with
  | Ret new_id =>
      let c := set_conn_active_tab_id (Some new_id) c in
      r <- send_json (MTabCreated new_id) c ;;
      match r with
      | (c, None) => continue c
      | (c, Some e) => send_then (MError (str_exn e) None) c continue
      end
  | Raise e => send_then (MError (str_exn e) None) c continue
  end.

Definition ws_close_tab (session_id : string) (c : conn) (data : json)
  : M ws_result :=
  g <- attempt (json_get data "tabId") ;;
  match g with
  | Raise e => ret (Finished c (Some e))
  | Ret close_id =>
      if json_truthy close_id then
        r <- attempt (mgr_close_tab session_id close_id) ;;
        match r with
        | Ret _ =>
            s <- get_session session_id ;;
            match s with
            | None =>
                send_then MSessionClosed c (fun c =>
                  r <- attempt socket_call ;;   (* websocket.close() *)
                  match r with
                  | Ret _ => ret (Finished c None)
                  | Raise e => ret (Finished c (Some e))
                  end)
            | Some session =>
                let c := set_conn_active_tab_id (active_tab_id session) c in
                send_then (MTabClosed close_id (conn_active_tab_id c)) c
                  continue
            end
        | Raise (KeyError _) =>
            send_then (MError "Tab not found" None) c continue
        | Raise e => ret (Finished c (Some e))
        end
      else continue c
  end.

(** The [try] block of the [navigate] command after [send_state]. *)
Definition ws_navigate_body (session_id : string) (tab_id url : json)
  : M unit :=
  match url with
  | JStr url =>
      (if _is_internal url then
         q <- lift (_parse_internal_search url) ;;
         match q with
         | Some q =>
             html <- _render_search_results_html q ;;
             engine_ ;;     (* page.set_content(html, ...) *)
             engine_        (* page.wait_for_timeout(200) *)
         | None => engine_  (* page.set_content(placeholder_html, ...) *)
         end
       else
         engine_ ;;         (* page.goto(url, ...) *)
         try_except engine_ (fun _ => ret tt)) ;;
      s <- get_session session_id ;;
      match s with
      | None => ret tt
      | Some session =>
          present <- json_in tab_id (tabs session) ;;
          match present with
          | None => ret tt
          | Some tid =>
              entry <- (if _is_internal url then ret url else page_url) ;;
              update_tab session_id tid (push_history entry)
          end
      end
  | _ => raise (TypeError "expected string or bytes-like object")
  end.

Definition ws_navigate (session_id : string) (c : conn) (tab_id data : json)
  : M ws_result :=
  g <- attempt (json_get data "url") ;;
  match g with
  | Raise e => ret (Finished c (Some e))
  | Ret url =>
      if json_truthy url then
        c <- send_state "navigating" None (set_is_navigating true c) ;;
        r <- attempt (ws_navigate_body session_id tab_id url) ;;
        sent <- match r with
                | Ret _ => ret (c, None)
                | Raise e => send_json (MError (str_exn e) (Some tab_id)) c
                end ;;
        c <- send_state "idle" None (set_is_navigating false (fst sent)) ;;
        match snd sent with
        | None => continue c
        | Some e => ret (Finished c (Some e))
        end
      else continue c
  end.

(** [back] and [forward] of the command loop. *)
Definition ws_history_move (forward : bool) (session_id : string) (c : conn)
    (tab_id : json) : M ws_result :=
  r <- attempt
    (s <- get_session session_id ;;
     match s with
     | None => ret tt
     | Some session =>
         present <- json_in tab_id (tabs session) ;;
         match present with
         | None => ret tt
         | Some tid =>
             tab <- tab_ref session_id session tid ;;
             if forward then
               if history_index tab <? Z.of_nat (List.length (history tab)) - 1
               then
                 update_tab session_id tid (fun t =>
                   set_history_index (history_index t + 1) t) ;;
                 engine_    (* page.go_forward() *)
               else ret tt
             else
               if 0 <? history_index tab then
                 update_tab session_id tid (fun t =>
                   set_history_index (history_index t - 1) t) ;;
                 engine_    (* page.go_back() *)
               else ret tt
         end
     end) ;;
  match r with
  | Ret _ => continue c
  | Raise e => ret (Finished c (Some e))
  end.

(** The commands that only drive the page. *)
Definition ws_page_command (event_type data : json) : M unit :=
  if json_is event_type "click" then
    _ <- json_get data "x" ;;
    _ <- json_get data "y" ;;
    _ <- json_get data "button" ;;
    n <- json_get data "clickCount" ;;
    match py_int (json_or n (JNum 1)) with
    | Ret _ => engine_
    | Raise e => raise e
    end
  else if json_is event_type "type" then
    _ <- json_get data "text" ;; engine_
  else if json_is event_type "keypress" then
    key <- json_get_default data "key" (JStr EmptyString) ;;
    m <- json_get data "modifiers" ;;
    let modifiers := json_or m (JDict []) in
    ctrl <- json_get modifiers "ctrl" ;;
    alt <- json_get modifiers "alt" ;;
    shift <- json_get modifiers "shift" ;;
    meta <- json_get modifiers "meta" ;;
    if (json_truthy ctrl || json_truthy alt || json_truthy shift
        || json_truthy meta)%bool
    then
      (* "+".join(keys) with more than one key *)
      match key with
      | JStr _ => engine_
      | _ => raise (TypeError "sequence item: expected str instance")
      end
    else engine_
  else if json_is event_type "scroll" then
    _ <- json_get data "deltaX" ;;
    _ <- json_get data "deltaY" ;;
    engine_
  else if json_is event_type "refresh" then engine_
  else ret tt.

(** One round of the command loop on the received [data]. *)
Definition ws_command (session_id : string) (c : conn) (data : json)
  : M ws_result :=
  g <- attempt (json_get data "type") ;;
  match g with
  | Raise e => ret (Finished c (Some e))
  | Ret event_type =>
      if json_is event_type "ping" then
        ts <- _utcnow ;;
        send_then (MPong ts) c continue
      else if json_is event_type "activate_tab" then
        ws_activate_tab session_id c data
      else
        t <- json_get data "tabId" ;;
        let tab_id := json_or t (of_opt (conn_active_tab_id c)) in
        if json_is event_type "new_tab" then ws_new_tab session_id c
        else if json_is event_type "close_tab" then
          ws_close_tab session_id c data
        else
          p <- attempt (get_page session_id tab_id) ;;
          match p with
          | Raise (KeyError _) =>
              send_then (MError "Session or tab not found" None) c continue
          | Raise e => ret (Finished c (Some e))
          | Ret _ =>
              if json_is event_type "navigate" then
                ws_navigate session_id c tab_id data
              else if json_is event_type "back" then
                ws_history_move false session_id c tab_id
              else if json_is event_type "forward" then
                ws_history_move true session_id c tab_id
              else
                r <- attempt (ws_page_command event_type data) ;;
                match r with
                | Ret _ => continue c
                | Raise e => ret (Finished c (Some e))
                end
          end
  end.

(** [send_state] called for each request of a list in turn. *)
Fixpoint send_states (reqs : list (string * option extra)) (c : conn)
  : M conn :=
  match reqs with
  | [] => ret c
  | (state, ex) :: r => c <- send_state state ex c ;; send_states r c
  end.

(** What runs on an open connection: a round of the command loop on a
    received document, or a round of the frame pump. *)
Inductive ws_event :=
| Received (data : json)
| Pump.

(** The connection after the events of a list, up to the one that ends the
    command loop. *)
Fixpoint ws_run (session_id : string) (evs : list ws_event) (c : conn)
  : M conn :=
  match evs with
  | [] => ret c
  | Pump :: r => c <- stream_step session_id c ;; ws_run session_id r c
  | Received data :: r =>
      res <- ws_command session_id c data ;;
      match res with
      | Continue c => ws_run session_id r c
      | Finished c _ => ret c
      end
  end.

(** The [finally] clause of [websocket_endpoint]. *)
Definition ws_finish (c : conn) : conn := set_streaming false c.


(** ** The operations of the service *)

(** Everything that can run against the registry: the request handlers, a
    sweep of the idle reaper, shutdown, and the steps of a streaming
    connection. *)
Inductive op :=
| OpCreateSession
| OpCloseSession (session_id : string)
| OpCreateTab (session_id : string)
| OpCloseTab (session_id tab_id : string)
| OpActivateTab (session_id tab_id : string)
| OpStatus (session_id : string) (tab_id : option string)
| OpNavigate (session_id url : string) (tab_id : option string)
| OpBack (session_id : string) (tab_id : option string)
| OpForward (session_id : string) (tab_id : option string)
| OpRefresh (session_id : string) (tab_id : option string)
| OpScreenshot (session_id : string) (tab_id : option string)
| OpClick (session_id : string) (tab_id : option string)
| OpType (session_id : string) (tab_id : option string)
| OpKeypress (session_id : string) (tab_id : option string)
| OpScroll (session_id : string) (tab_id : option string)
| OpReap
| OpShutdown
| OpWsOpen (session_id : string)
| OpWsCommand (session_id : string) (c : conn) (data : json)
| OpWsStream (session_id : string) (c : conn).

Definition run_op (o : op) (w : world) : world :=
  match o with
  | OpCreateSession => snd (create_session w)
  | OpCloseSession sid => snd (close_session sid w)
  | OpCreateTab sid => snd (create_tab sid w)
  | OpCloseTab sid tid => snd (close_tab sid tid w)
  | OpActivateTab sid tid => snd (activate_tab sid tid w)
  | OpStatus sid t => snd (get_session_status sid t w)
  | OpNavigate sid url t => snd (navigate sid url t w)
  | OpBack sid t => snd (go_back sid t w)
  | OpForward sid t => snd (go_forward sid t w)
  | OpRefresh sid t => snd (refresh sid t w)
  | OpScreenshot sid t => snd (get_screenshot sid t w)
  | OpClick sid t => snd (click sid t w)
  | OpType sid t => snd (type_text sid t w)
  | OpKeypress sid t => snd (keypress sid t w)
  | OpScroll sid t => snd (scroll sid t w)
  | OpReap => snd (_cleanup_idle w)
  | OpShutdown => snd (cleanup_sessions w)
  | OpWsOpen sid => snd (ws_open sid w)
  | OpWsCommand sid c data => snd (ws_command sid c data w)
  | OpWsStream sid c => snd (stream_step sid c w)
  end.

(** The world after a list of operations, the first of the list first. *)
Definition run_ops (os : list op) (w : world) : world :=
  fold_left (fun w o => run_op o w) os w.

(** The session an operation is addressed to, if it names one. *)
Definition op_session (o : op) : option string :=
  match o with
  | OpCreateSession | OpReap | OpShutdown => None
  | OpCloseSession sid | OpCreateTab sid | OpCloseTab sid _
  | OpActivateTab sid _ | OpStatus sid _ | OpNavigate sid _ _
  | OpBack sid _ | OpForward sid _ | OpRefresh sid _ | OpScreenshot sid _
  | OpClick sid _ | OpType sid _ | OpKeypress sid _ | OpScroll sid _
  | OpWsOpen sid | OpWsCommand sid _ _ | OpWsStream sid _ => Some sid
  end.

(** ** Invariants of the registry *)

(** A registered session owns at least one tab. *)
Definition has_tab (s : session) : Prop := tabs s <> [].

(** The cursor of a tab is within its history, or [-1]. *)
Definition cursor_ok (t : tab) : Prop :=
  -1 <= history_index t < Z.of_nat (List.length (history t)).

(** The active-tab pointer of a session with tabs names one of them. *)
Definition active_ok (s : session) : Prop :=
  tabs s <> [] ->
  exists tid, active_tab_id s = Some tid /\ Dict.mem tid (tabs s) = true.

Definition all_sessions (P : session -> Prop) (w : world) : Prop :=
  Dict.every P (sessions w).

Definition tabs_ok (P : tab -> Prop) (s : session) : Prop :=
  Dict.every P (tabs s).

Definition all_tabs (P : tab -> Prop) (w : world) : Prop :=
  all_sessions (tabs_ok P) w.

(** ** Reasoning about handlers *)

(** [wp c Q w]: running [c] from [w] ends in an outcome and a world that
    satisfy [Q]. *)
Definition wp {A} (c : M A) (Q : outcome A -> world -> Prop) (w : world)
  : Prop :=
  Q (fst (c w)) (snd (c w)).

(** [c] changes nothing of the world but the oracle counter. *)
Definition ticks {A} (c : M A) : Prop :=
  forall w, exists n, snd (c w) = set_tick n w.

(** What [close_tab] and the reaper make of a session that keeps a tab:
    the tab is gone, and the pointer is moved to the first remaining tab
    if it named the one removed. *)
Definition without_tab (tid : string) (s : session) : session :=
  let s := set_tabs (Dict.pop tid (tabs s)) s in
  if opt_eqb (active_tab_id s) (Some tid)
  then set_active_tab_id (Dict.first_key (tabs s)) s
  else s.

(** [c] keeps the property [I] of the world. *)
Definition keeps (I : world -> Prop) {A} (c : M A) : Prop :=
  forall w, I w -> I (snd (c w)).

(** [I] is a property of the registry that no write to a session of
    [touched] and no removal of one can break. *)
Record frames (I : world -> Prop) (touched : string -> Prop) : Prop :=
  mkFrames {
  fr_same : forall w w', sessions w' = sessions w -> I w -> I w';
  fr_update : forall sid s' w s,
    touched sid -> I w -> Dict.get sid (sessions w) = Some s ->
    I (set_sessions (Dict.set sid s' (sessions w)) w);
  fr_pop : forall sid w,
    touched sid -> I w -> I (set_sessions (Dict.pop sid (sessions w)) w)
}.

(** The registry and every tab map have pairwise distinct keys, as Python
    dictionaries do. *)
Definition wf_registry (w : world) : Prop := Dict.wf (sessions w).

Definition wf_tabs (s : session) : Prop := Dict.wf (tabs s).

(** [c] keeps [P] true of every registered session. *)
Definition preserves (P : session -> Prop) {A} (c : M A) : Prop :=
  forall w, all_sessions P w -> all_sessions P (snd (c w)).

(** What the handlers do to one session, step by step; a property of
    sessions that survives each of them survives every operation. *)
Record stable (P : session -> Prop) : Prop := mkStable {
  st_new : forall ctx tid pg c u sc su,
    P (mkSession ctx [(tid, fresh_tab pg c u)] (Some tid) sc su);
  st_touch : forall s n, P s -> P (set_sess_last_used n s);
  st_tab_touch : forall s tid t n,
    P s -> Dict.get tid (tabs s) = Some t ->
    P (set_tabs (Dict.set tid (set_last_used n t) (tabs s)) s);
  st_push : forall s tid t u,
    P s -> Dict.get tid (tabs s) = Some t ->
    P (set_tabs (Dict.set tid (push_history u t) (tabs s)) s);
  st_add_tab : forall s tid pg c u,
    P s ->
    P (set_active_tab_id (Some tid)
         (set_tabs (Dict.set tid (fresh_tab pg c u) (tabs s)) s));
  st_activate : forall s tid,
    P s -> Dict.mem tid (tabs s) = true -> P (set_active_tab_id (Some tid) s);
  st_drop_tab : forall s tid,
    P s -> Dict.pop tid (tabs s) <> [] -> P (without_tab tid s);
  st_back : forall s tid t,
    P s -> Dict.get tid (tabs s) = Some t -> 0 < history_index t ->
    P (set_tabs
         (Dict.set tid (set_history_index (history_index t - 1) t) (tabs s)) s);
  st_forward : forall s tid t,
    P s -> Dict.get tid (tabs s) = Some t ->
    history_index t < Z.of_nat (List.length (history t)) - 1 ->
    P (set_tabs
         (Dict.set tid (set_history_index (history_index t + 1) t) (tabs s)) s)
}.

(** The record of a tab of a session, if both are registered. *)
Definition lookup_tab (sid tid : string) (w : world) : option tab :=
  match Dict.get sid (sessions w) with
  | Some s => Dict.get tid (tabs s)
  | None => None
  end.

(** What [get_page] makes of the session [s] whose tab [tid] has the
    record [t]: both activity timestamps are bumped. *)
Definition bumped (s : session) (tid : string) (t : tab)
    (n1 n2 : datetime) : session :=
  set_tabs (Dict.set tid (set_last_used n2 t) (tabs s))
    (set_sess_last_used n1 s).

(** [t'] is [t] after the URL [u] was recorded: the history is cut after
    the cursor, [u] is appended, and the cursor is the last index. *)
Definition recorded (t : tab) (u : string) (t' : tab) : Prop :=
  history t' = (firstn (Z.to_nat (history_index t + 1)) (history t) ++ [u])%list /\
  history_index t' = Z.of_nat (List.length (history t')) - 1.

(** The search API is out of reach: a credential is missing, or the HTTP
    exchange ends in an exception (a status that is not 2xx, a timeout, a
    network error) whenever it is tried. *)
Definition cse_down : Prop :=
  (truthy (environ O "GOOGLE_CSE_API_KEY")
   && truthy (environ O "GOOGLE_CSE_CX"))%bool = false
  \/ forall n, exists e, cse_at O n = Raise e.

(** The [state] fields of the state notifications of an outbox, in order. *)
Fixpoint states_of (out : list (message * bool)) : list string :=
  match out with
  | [] => []
  | (MState state _ _ _, _) :: r => state :: states_of r
  | _ :: r => states_of r
  end.

(** The entries of an outbox for which [send_json] returned. *)
Definition delivered (out : list (message * bool)) : list (message * bool) :=
  filter snd out.

(** No two neighbours of the list are equal. *)
Fixpoint no_repeat (l : list string) : Prop :=
  match l with
  | a :: (b :: _) as r => a <> b /\ no_repeat r
  | _ => True
  end.

Definition last_of (l : list string) : option string :=
  match rev l with
  | [] => None
  | a :: _ => Some a
  end.

(** [last_sent_state] is the state of the last notification handed to the
    socket, and the notifications handed over so far never repeat. *)
Definition deduplicated (c : conn) : Prop :=
  last_sent_state c = last_of (states_of (outbox c)) /\
  no_repeat (states_of (outbox c)).

Definition conn_of (r : ws_result) : conn :=
  match r with
  | Continue c => c
  | Finished c _ => c
  end.

(** Postconditions: no exception escapes, and the connection that comes
    out is [deduplicated]. *)
Definition dd_conn : outcome conn -> world -> Prop :=
  fun r _ => match r with Ret c => deduplicated c | Raise _ => False end.

Definition dd_result : outcome ws_result -> world -> Prop :=
  fun r _ =>
    match r with Ret r => deduplicated (conn_of r) | Raise _ => False end.

(** Once [send_json] has raised, it raises ever after. *)
Definition socket_stays_closed : Prop :=
  forall n m, (n <= m)%nat -> socket_at O n <> None -> socket_at O m <> None.

(** The sends that returned come before the sends that raised, and if one
    raised the socket is closed from the current tick on. *)
Definition closing (c : conn) (w : world) : Prop :=
  exists a b,
    outbox c = (a ++ b)%list /\
    Forall (fun e => snd e = true) a /\
    Forall (fun e => snd e = false) b /\
    (b <> [] -> forall m, (tick w <= m)%nat -> socket_at O m <> None).

(** The engine answers every call from the current tick on. *)
Definition engine_up (w : world) : Prop :=
  forall n, (tick w <= n)%nat -> engine_at O n = None.

(** Playwright was never started, or its browser was launched. *)
Definition launched (w : world) : Prop :=
  playwright w <> None -> browser w <> None.

(** *** The reaper, step by step *)

(** [(now - last_used).total_seconds() > TAB_TTL_SECONDS] for a tab, and
    the test of the session loop. *)
Definition tab_expired (now : datetime) (t : tab) : bool :=
  total_seconds_gt now (last_used t) TAB_TTL_SECONDS.

Definition session_expired (now : datetime) (s : session) : bool :=
  total_seconds_gt now (sess_last_used s) SESSION_TTL_SECONDS.

(** What one pass of the tab loop of [_cleanup_idle] makes of the session
    record, and what the whole loop makes of it. *)
Definition reap_step (now : datetime) (item : string * tab) (s : session)
  : session :=
  let t :=
    match Dict.get (fst item) (tabs s) with
    | Some t' => t'
    | None => snd item
    end in
  if tab_expired now t && (1 <? Dict.len (tabs s))
  then without_tab (fst item) s
  else s.

Definition tab_phase (now : datetime) (s : session) : session :=
  fold_left (fun s item => reap_step now item s) (tabs s) s.

(** The tabs that outlive a sweep: those that are not expired, or, when
    every tab is expired, the last one of the map. *)
Definition surviving_tabs (now : datetime) (d : Dict.t tab) : Dict.t tab :=
  match filter (fun kv => negb (tab_expired now (snd kv))) d with
  | [] => skipn (List.length d - 1) d
  | fresh => fresh
  end.

(** ** Suspension points

    Everything above runs a coroutine from its first statement to its
    last.  The event loop does more: at an [await] on the engine the
    coroutine is suspended, and the loop runs other coroutines before it
    resumes the first one.  All of them share the registry, so the
    coroutine resumes in the world the others have left.

    This part opens the two [await tab["page"].close()] of the manager:
    that of the reaper's tab loop, which stands between the test
    [len(tabs) > 1] and [tabs.pop], and that of [close_tab], which stands
    between [tabs.pop] and the cascade into [close_session]. *)

(** What a suspended coroutine gets of a coroutine run meanwhile: the
    world as the other one leaves it.  The outcome of the other coroutine
    goes to its own caller. *)
Definition meanwhile {A} (other : M A) : M unit :=
  fun w => (Ret tt, snd (other w)).

(** One pass of the tab loop of [_cleanup_idle] up to its [await]: the
    test, which tells whether the pass goes on to close the page. *)
Definition reap_tab_test (now : datetime) (sid : string) (sess : session)
    (item : string * tab) : M bool :=
  let (tid, t) := item in
  sess <- deref sid sess ;;
  t <- deref_tab sid tid t ;;
  ret (total_seconds_gt now (last_used t) TAB_TTL_SECONDS
       && (1 <? Dict.len (tabs sess))).

(** The pass from its [await] on: the outcome of [page.close()], then
    [tabs.pop(tid, None)] and the repointing of the active tab. *)
Definition reap_tab_resume (sid : string) (sess : session) (tid : string)
  : M unit :=
  suppress engine_ ;;
  update_session sid (fun s => set_tabs (Dict.pop tid (tabs s)) s) ;;
  sess <- deref sid sess ;;
  if opt_eqb (active_tab_id sess) (Some tid) then
    update_session sid (fun s =>
      set_active_tab_id (Dict.first_key (tabs s)) s)
  else ret tt.

(** The pass with [during sid tid] run by the event loop while the pass
    is suspended on the tab [tid] of the session [sid].  [_cleanup_idle]
    acquires no lock, so [during] may be any handler. *)
Definition reap_tab_meanwhile (during : string -> string -> M unit)
    (now : datetime) (sid : string) (sess : session) (item : string * tab)
  : M unit :=
  due <- reap_tab_test now sid sess item ;;
  if due then
    meanwhile (during sid (fst item)) ;;
    reap_tab_resume sid sess (fst item)
  else ret tt.

Definition reap_session_meanwhile (during : string -> string -> M unit)
    (now : datetime) (item : string * session) : M bool :=
  let (sid, sess) := item in
  sess <- deref sid sess ;;
  for_each (tabs sess) (reap_tab_meanwhile during now sid sess) ;;
  sess <- deref sid sess ;;
  ret (total_seconds_gt now (sess_last_used sess) SESSION_TTL_SECONDS).

Fixpoint reap_sessions_meanwhile (during : string -> string -> M unit)
    (now : datetime) (items : list (string * session)) : M (list string) :=
  match items with
  | [] => ret []
  | (sid, sess) :: r =>
      expired <- reap_session_meanwhile during now (sid, sess) ;;
      rest <- reap_sessions_meanwhile during now r ;;
      ret (if expired then sid :: rest else rest)
  end.

(** [_cleanup_idle] with the suspension point of its tab loop open. *)
Definition _cleanup_idle_meanwhile (during : string -> string -> M unit)
  : M unit :=
  now <- _utcnow ;;
  snapshot <- gets sessions ;;
  to_close_sessions <- reap_sessions_meanwhile during now snapshot ;;
  for_each to_close_sessions (fun sid => suppress (mgr_close_session sid)).

(** [mgr_close_tab] up to its [await]: the lookups and [tabs.pop(tab_id)].
    The value is what the coroutine holds while it is suspended: its
    reference to the session and the key of the tab. *)
Definition close_tab_until_await (session_id : string) (tab_id : json)
  : M (session * string) :=
  s <- get_session session_id ;;
  match s with
  | None => raise (KeyError "Session not found")
  | Some session =>
      present <- json_in tab_id (tabs session) ;;
      match present with
      | None => raise (KeyError "Tab not found")
      | Some tid =>
          update_session session_id (fun s =>
            set_tabs (Dict.pop tid (tabs s)) s) ;;
          ret (session, tid)
      end
  end.

(** [mgr_close_tab] from its [await] on: the outcome of [page.close()],
    then the cascade into [close_session], or the repointing and the
    bump. *)
Definition close_tab_from_await (session_id : string)
    (held : session * string) : M unit :=
  let (session, tid) := held in
  suppress engine_ ;;
  session <- deref session_id session ;;
  if Dict.is_empty (tabs session) then
    mgr_close_session session_id
  else
    (if opt_eqb (active_tab_id session) (Some tid) then
       update_session session_id (fun s =>
         set_active_tab_id (Dict.first_key (tabs s)) s)
     else ret tt) ;;
    now <- _utcnow ;;
    update_session session_id (set_sess_last_used now).

(** [mgr_close_tab] with [during] run by the event loop while the method
    is suspended.  The method holds [session["lock"]] there, so [during]
    is a handler that does not acquire the lock of this session: any
    handler but [create_tab] and [close_tab] on the same session. *)
Definition mgr_close_tab_meanwhile {A} (during : M A) (session_id : string)
    (tab_id : json) : M unit :=
  held <- close_tab_until_await session_id tab_id ;;
  meanwhile during ;;
  close_tab_from_await session_id held.


(** * Proofs *)

(** ** Dictionaries *)

Section DictFacts.
Context {V : Type}.
Implicit Types (d : Dict.t V) (k : string) (v : V).

Lemma get_set_same k v d : Dict.get k (Dict.set k v d) = Some v.
Proof.
  induction d as [|[k' v'] d IH]; simpl.
  - now rewrite String.eqb_refl.
  - destruct (String.eqb_spec k k'); simpl.
    + now rewrite String.eqb_refl.
    + destruct (String.eqb_spec k k'); [contradiction | exact IH].
Qed.

Lemma get_set_other k k' v d :
  k <> k' -> Dict.get k' (Dict.set k v d) = Dict.get k' d.
Proof.
  intros Hne. induction d as [|[k0 v0] d IH]; simpl.
  - destruct (String.eqb_spec k' k); [congruence | reflexivity].
  - destruct (String.eqb_spec k k0); simpl.
    + subst k0. destruct (String.eqb_spec k' k); [congruence | reflexivity].
    + destruct (String.eqb_spec k' k0); [reflexivity | exact IH].
Qed.

Lemma get_absent k d : ~ In k (Dict.keys d) -> Dict.get k d = None.
Proof.
  induction d as [|[k' v'] d IH]; simpl; [reflexivity|].
  intros H. destruct (String.eqb_spec k k') as [->|Hne].
  - exfalso. apply H. now left.
  - apply IH. intros Hin. apply H. now right.
Qed.

Lemma get_pop_same k d : Dict.wf d -> Dict.get k (Dict.pop k d) = None.
Proof.
  unfold Dict.wf.
  induction d as [|[k' v'] d IH]; simpl; [reflexivity|].
  intros H. inversion H; subst.
  destruct (String.eqb_spec k k') as [->|Hne].
  - now apply get_absent.
  - simpl. destruct (String.eqb_spec k k'); [contradiction | auto].
Qed.

Lemma get_pop_other k k' d :
  k <> k' -> Dict.get k' (Dict.pop k d) = Dict.get k' d.
Proof.
  intros Hne. induction d as [|[k0 v0] d IH]; simpl; [reflexivity|].
  destruct (String.eqb_spec k k0) as [<-|Hk].
  - destruct (String.eqb_spec k' k); [congruence | reflexivity].
  - simpl. destruct (String.eqb_spec k' k0); [reflexivity | exact IH].
Qed.

Lemma pop_set k v d : Dict.pop k (Dict.set k v d) = Dict.pop k d.
Proof.
  induction d as [|[k' v'] d IH]; simpl.
  - now rewrite String.eqb_refl.
  - destruct (String.eqb_spec k k') as [<-|Hne]; simpl.
    + now rewrite String.eqb_refl.
    + destruct (String.eqb_spec k k'); [contradiction | now rewrite IH].
Qed.

Lemma set_set k v v' d : Dict.set k v' (Dict.set k v d) = Dict.set k v' d.
Proof.
  induction d as [|[k' v0] d IH]; simpl.
  - now rewrite String.eqb_refl.
  - destruct (String.eqb_spec k k') as [<-|Hne]; simpl.
    + now rewrite String.eqb_refl.
    + destruct (String.eqb_spec k k'); [contradiction | now rewrite IH].
Qed.

Lemma mem_get k d : Dict.mem k d = true <-> exists v, Dict.get k d = Some v.
Proof.
  unfold Dict.mem. destruct (Dict.get k d).
  - split; eauto.
  - split; [discriminate | intros [v Hv]; discriminate].
Qed.

Lemma mem_false_get k d : Dict.mem k d = false <-> Dict.get k d = None.
Proof.
  unfold Dict.mem. destruct (Dict.get k d); split; congruence.
Qed.

Lemma mem_set k k' v d :
  Dict.mem k' (Dict.set k v d) = (String.eqb k k' || Dict.mem k' d)%bool.
Proof.
  unfold Dict.mem. destruct (String.eqb_spec k k') as [<-|Hne].
  - now rewrite get_set_same.
  - now rewrite get_set_other.
Qed.

Lemma mem_pop_other k k' d :
  k <> k' -> Dict.mem k' (Dict.pop k d) = Dict.mem k' d.
Proof. intros H. unfold Dict.mem. now rewrite get_pop_other. Qed.

Lemma first_key_mem k d : Dict.first_key d = Some k -> Dict.mem k d = true.
Proof.
  destruct d as [|[k' v'] d]; simpl; [discriminate|].
  intros [= ->]. unfold Dict.mem. simpl. now rewrite String.eqb_refl.
Qed.

Lemma first_key_some d : d <> [] -> exists k, Dict.first_key d = Some k.
Proof.
  destruct d as [|[k v] d]; [congruence | intros _; now exists k].
Qed.

Lemma is_empty_nil d : Dict.is_empty d = true <-> d = [].
Proof. destruct d; simpl; split; congruence. Qed.

(** Popping a key that is present removes exactly one entry. *)
Lemma pop_length_mem d k :
  Dict.mem k d = true -> S (List.length (Dict.pop k d)) = List.length d.
Proof.
  unfold Dict.mem.
  induction d as [|[k' v'] d IH]; simpl; [discriminate|].
  destruct (String.eqb k k'); simpl; [reflexivity|].
  intros H. apply IH in H. lia.
Qed.

Lemma pop_length d k : (List.length d <= S (List.length (Dict.pop k d)))%nat.
Proof.
  induction d as [|[k' v'] d IH]; simpl; [lia|].
  destruct (String.eqb k k'); simpl; lia.
Qed.

Lemma pop_absent d k : Dict.mem k d = false -> Dict.pop k d = d.
Proof.
  unfold Dict.mem.
  induction d as [|[k' v'] d IH]; simpl; [reflexivity|].
  destruct (String.eqb k k'); [discriminate|].
  intros H. now rewrite IH.
Qed.

Lemma set_not_nil k v d : Dict.set k v d <> [].
Proof.
  destruct d as [|[k' v'] d]; simpl; [discriminate|].
  destruct (String.eqb k k'); discriminate.
Qed.

Lemma set_length_mem k v d :
  Dict.mem k d = true -> List.length (Dict.set k v d) = List.length d.
Proof.
  unfold Dict.mem.
  induction d as [|[k' v'] d IH]; simpl; [discriminate|].
  destruct (String.eqb k k'); simpl; [reflexivity|].
  intros H. now rewrite IH.
Qed.

Lemma set_keys_mem k v d :
  Dict.mem k d = true -> Dict.keys (Dict.set k v d) = Dict.keys d.
Proof.
  unfold Dict.mem, Dict.keys.
  induction d as [|[k' v'] d IH]; simpl; [discriminate|].
  destruct (String.eqb_spec k k') as [->|Hne]; simpl; [reflexivity|].
  intros H. now rewrite IH.
Qed.

Variable P : V -> Prop.

Lemma every_get d k v : Dict.every P d -> Dict.get k d = Some v -> P v.
Proof.
  unfold Dict.every. induction d as [|[k' v'] d IH]; simpl; [discriminate|].
  intros H. inversion H; subst.
  destruct (String.eqb k k'); [intros [= <-]; assumption | auto].
Qed.

Lemma every_set d k v :
  Dict.every P d -> P v -> Dict.every P (Dict.set k v d).
Proof.
  unfold Dict.every. intros H Hv.
  induction d as [|[k' v'] d IH]; simpl.
  - constructor; auto.
  - inversion H; subst. destruct (String.eqb k k'); constructor; auto.
Qed.

Lemma every_pop d k : Dict.every P d -> Dict.every P (Dict.pop k d).
Proof.
  unfold Dict.every. intros H.
  induction d as [|[k' v'] d IH]; simpl; [constructor|].
  inversion H; subst. destruct (String.eqb k k'); [auto | constructor; auto].
Qed.

Lemma wf_pop d k : Dict.wf d -> Dict.wf (Dict.pop k d).
Proof.
  unfold Dict.wf, Dict.keys.
  induction d as [|[k' v'] d IH]; simpl; [auto|].
  intros H. inversion H; subst.
  destruct (String.eqb k k'); [assumption|].
  simpl. constructor; [|auto].
  intros Hin. apply H2. clear - Hin.
  induction d as [|[k0 v0] d IH]; simpl in *; [assumption|].
  destruct (String.eqb k k0); simpl in *; [now right|].
  destruct Hin; [now left | right; auto].
Qed.
End DictFacts.


(** ** Weakest preconditions *)

Lemma wp_ret {A} (a : A) Q w : Q (Ret a) w -> wp (ret a) Q w.
Proof. exact (fun H => H). Qed.

Lemma wp_raise {A} (e : exn) (Q : outcome A -> world -> Prop) w :
  Q (Raise e) w -> wp (raise e) Q w.
Proof. exact (fun H => H). Qed.

Lemma wp_gets {A} (f : world -> A) Q w : Q (Ret (f w)) w -> wp (gets f) Q w.
Proof. exact (fun H => H). Qed.

Lemma wp_modify f Q w : Q (Ret tt) (f w) -> wp (modify f) Q w.
Proof. exact (fun H => H). Qed.

Lemma wp_bind {A B} (c : M A) (k : A -> M B) Q w :
  wp c (fun r w' =>
          match r with
          | Ret a => wp (k a) Q w'
          | Raise e => Q (Raise e) w'
          end) w ->
  wp (bind c k) Q w.
Proof.
  unfold wp, bind. destruct (c w) as [[a|e] w']; simpl; auto.
Qed.

Lemma wp_try_except {A} (c : M A) h Q w :
  wp c (fun r w' =>
          match r with
          | Ret a => Q (Ret a) w'
          | Raise e => wp (h e) Q w'
          end) w ->
  wp (try_except c h) Q w.
Proof.
  unfold wp, try_except. destruct (c w) as [[a|e] w']; simpl; auto.
Qed.

Lemma wp_attempt {A} (c : M A) Q w :
  wp c (fun r w' => Q (Ret r) w') w -> wp (attempt c) Q w.
Proof.
  unfold wp, attempt. destruct (c w) as [r w']; simpl; auto.
Qed.

Lemma wp_mono {A} (c : M A) (Q Q' : outcome A -> world -> Prop) w :
  wp c Q w -> (forall r w', Q r w' -> Q' r w') -> wp c Q' w.
Proof. unfold wp. auto. Qed.

Lemma wp_run {A} (c : M A) Q w r w' : c w = (r, w') -> Q r w' -> wp c Q w.
Proof. unfold wp. intros ->. auto. Qed.

Lemma wp_ticks {A} (c : M A) (Q : outcome A -> world -> Prop) w :
  ticks c -> (forall r n, Q r (set_tick n w)) -> wp c Q w.
Proof.
  unfold wp. intros Ht H. destruct (Ht w) as [n ->]. apply H.
Qed.

Lemma set_tick_same w : set_tick (tick w) w = w.
Proof. now destruct w. Qed.

Lemma ticks_ret {A} (a : A) : ticks (ret a).
Proof. intros w. exists (tick w). simpl. now rewrite set_tick_same. Qed.

Lemma ticks_raise {A} e : ticks (@raise A e).
Proof. intros w. exists (tick w). simpl. now rewrite set_tick_same. Qed.

Lemma ticks_bind {A B} (c : M A) (k : A -> M B) :
  ticks c -> (forall a, ticks (k a)) -> ticks (bind c k).
Proof.
  intros Hc Hk w. unfold bind. destruct (Hc w) as [n Hn].
  destruct (c w) as [[a|e] w']; simpl in *; subst w'.
  - destruct (Hk a (set_tick n w)) as [m ->]. now exists m.
  - now exists n.
Qed.

Lemma ticks_try_except {A} (c : M A) h :
  ticks c -> (forall e, ticks (h e)) -> ticks (try_except c h).
Proof.
  intros Hc Hh w. unfold try_except. destruct (Hc w) as [n Hn].
  destruct (c w) as [[a|e] w']; simpl in *; subst w'.
  - now exists n.
  - destruct (Hh e (set_tick n w)) as [m ->]. now exists m.
Qed.

Lemma ticks_attempt {A} (c : M A) : ticks c -> ticks (attempt c).
Proof.
  intros Hc w. unfold attempt. destruct (Hc w) as [n Hn].
  destruct (c w) as [r w']; simpl in *. now exists n.
Qed.

Lemma ticks_next_tick : ticks next_tick.
Proof. intros w. now exists (S (tick w)). Qed.

Lemma ticks_outcome {A} (r : outcome A) :
  ticks (match r with Ret a => ret a | Raise e => raise e end).
Proof. destruct r; [apply ticks_ret | apply ticks_raise]. Qed.

Create HintDb ticks.
#[local] Hint Resolve ticks_ret ticks_raise ticks_next_tick ticks_attempt
  ticks_outcome : ticks.
#[local] Hint Extern 2 (ticks (bind _ _)) =>
  apply ticks_bind; [| intro] : ticks.
#[local] Hint Extern 2 (ticks (try_except _ _)) =>
  apply ticks_try_except; [| intro] : ticks.
#[local] Hint Extern 3 (ticks (match ?x with _ => _ end)) =>
  destruct x : ticks.
#[local] Hint Extern 3 (ticks (if ?x then _ else _)) =>
  destruct x : ticks.

Lemma ticks_utcnow : ticks _utcnow.
Proof. unfold _utcnow. auto with ticks. Qed.

Lemma ticks_uuid4 : ticks uuid4.
Proof. unfold uuid4. auto with ticks. Qed.

Lemma ticks_engine : ticks engine.
Proof. unfold engine. auto with ticks. Qed.

Lemma ticks_engine_ : ticks engine_.
Proof. unfold engine_. pose proof ticks_engine. auto with ticks. Qed.

Lemma ticks_page_url : ticks page_url.
Proof. unfold page_url. auto with ticks. Qed.

Lemma ticks_page_title : ticks page_title.
Proof. unfold page_title. pose proof ticks_engine. auto with ticks. Qed.

#[local] Hint Resolve ticks_utcnow ticks_uuid4 ticks_engine ticks_engine_
  ticks_page_url ticks_page_title : ticks.

Lemma ticks_suppress c : ticks c -> ticks (suppress c).
Proof. intros H. unfold suppress. auto with ticks. Qed.
#[local] Hint Resolve ticks_suppress : ticks.

Lemma ticks_json_get j k : ticks (json_get j k).
Proof. unfold json_get. auto with ticks. Qed.

Lemma ticks_json_get_default j k d : ticks (json_get_default j k d).
Proof. unfold json_get_default. auto with ticks. Qed.

Lemma ticks_json_in {V} j (d : Dict.t V) : ticks (json_in j d).
Proof. unfold json_in. auto with ticks. Qed.

Lemma ticks_resolve_tab s j : ticks (_resolve_tab s j).
Proof.
  unfold _resolve_tab. pose proof (ticks_json_in (V := tab)).
  auto 8 with ticks.
Qed.

#[local] Hint Resolve ticks_json_get ticks_json_get_default ticks_json_in
  ticks_resolve_tab : ticks.

Lemma ticks_lift {A} (r : outcome A) : ticks (lift r).
Proof. unfold lift. auto with ticks. Qed.

Lemma ticks_google_cse_search q : ticks (_google_cse_search q).
Proof. unfold _google_cse_search. auto 8 with ticks. Qed.

Lemma ticks_esc_field it k : ticks (esc_field it k).
Proof. unfold esc_field. auto 8 with ticks. Qed.
#[local] Hint Resolve ticks_lift ticks_google_cse_search
  ticks_esc_field : ticks.

Lemma ticks_render_rows items : ticks (render_rows items).
Proof.
  induction items as [|it r IH]; simpl; auto 12 with ticks.
Qed.

Lemma ticks_iter_items items : ticks (iter_items items).
Proof. unfold iter_items. auto with ticks. Qed.
#[local] Hint Resolve ticks_render_rows ticks_iter_items : ticks.

Lemma ticks_render_search_results_html q :
  ticks (_render_search_results_html q).
Proof.
  unfold _render_search_results_html.
  apply ticks_bind.
  - auto 12 with ticks.
  - intros [[items total]|]; auto 8 with ticks.
Qed.
#[local] Hint Resolve ticks_render_search_results_html : ticks.


(** ** Steps of symbolic execution *)

Lemma wp_elim {A} (c : M A) Q w r w' : wp c Q w -> c w = (r, w') -> Q r w'.
Proof. unfold wp. intros H E. now rewrite E in H. Qed.

Lemma wp_next_tick Q w :
  Q (Ret (tick w)) (set_tick (S (tick w)) w) -> wp next_tick Q w.
Proof. exact (fun H => H). Qed.

Lemma wp_utcnow Q w :
  Q (Ret (utcnow_at O (tick w))) (set_tick (S (tick w)) w) -> wp _utcnow Q w.
Proof. exact (fun H => H). Qed.

Lemma wp_uuid4 Q w :
  Q (Ret (uuid4_at O (tick w))) (set_tick (S (tick w)) w) -> wp uuid4 Q w.
Proof. exact (fun H => H). Qed.

Lemma wp_page_url Q w :
  Q (Ret (page_url_at O (tick w))) (set_tick (S (tick w)) w) ->
  wp page_url Q w.
Proof. exact (fun H => H). Qed.

Lemma wp_engine Q w :
  match engine_at O (tick w) with
  | None => Q (Ret (tick w)) (set_tick (S (tick w)) w)
  | Some msg => Q (Raise (ExternalError msg)) (set_tick (S (tick w)) w)
  end ->
  wp engine Q w.
Proof.
  unfold wp, engine, bind, next_tick. simpl.
  destruct (engine_at O (tick w)); auto.
Qed.

Lemma wp_engine_ Q w :
  match engine_at O (tick w) with
  | None => Q (Ret tt) (set_tick (S (tick w)) w)
  | Some msg => Q (Raise (ExternalError msg)) (set_tick (S (tick w)) w)
  end ->
  wp engine_ Q w.
Proof.
  intros H. unfold engine_. apply wp_bind, wp_engine.
  destruct (engine_at O (tick w)); auto.
Qed.

Lemma wp_suppress_engine Q w :
  Q (Ret tt) (set_tick (S (tick w)) w) -> wp (suppress engine_) Q w.
Proof.
  intros H. unfold suppress. apply wp_try_except, wp_engine_.
  destruct (engine_at O (tick w)); auto.
Qed.

Lemma wp_get_session sid Q w :
  Q (Ret (Dict.get sid (sessions w))) w -> wp (get_session sid) Q w.
Proof. exact (fun H => H). Qed.

Lemma wp_update_session sid f Q w :
  Q (Ret tt)
    (match Dict.get sid (sessions w) with
     | Some s => set_sessions (Dict.set sid (f s) (sessions w)) w
     | None => w
     end) ->
  wp (update_session sid f) Q w.
Proof. exact (fun H => H). Qed.

Lemma wp_update_tab sid tid f Q w :
  Q (Ret tt)
    (match Dict.get sid (sessions w) with
     | Some s =>
         set_sessions
           (Dict.set sid
              (match Dict.get tid (tabs s) with
               | Some t => set_tabs (Dict.set tid (f t) (tabs s)) s
               | None => s
               end) (sessions w)) w
     | None => w
     end) ->
  wp (update_tab sid tid f) Q w.
Proof. exact (fun H => H). Qed.

Lemma wp_deref sid s Q w :
  Q (Ret (match Dict.get sid (sessions w) with Some s' => s' | None => s end))
    w ->
  wp (deref sid s) Q w.
Proof. exact (fun H => H). Qed.

Ltac use_lookups :=
  repeat match goal with
  | H : Dict.get ?k ?d = _ |- context [Dict.get ?k ?d] => rewrite H
  | H : Dict.mem ?k ?d = _ |- context [Dict.mem ?k ?d] => rewrite H
  end.

Ltac wp_simpl :=
  cbn beta iota;
  cbn [sessions playwright browser cleanup_task tick set_sessions set_tick
       set_playwright set_browser set_cleanup_task fst snd negb];
  rewrite ?get_set_same, ?set_set, ?pop_set;
  use_lookups;
  cbn beta iota.

Ltac wp_prim :=
  lazymatch goal with
  | |- wp (bind _ _) _ _ => apply wp_bind
  | |- wp (ret _) _ _ => apply wp_ret
  | |- wp (raise _) _ _ => apply wp_raise
  | |- wp (gets _) _ _ => apply wp_gets
  | |- wp (modify _) _ _ => apply wp_modify
  | |- wp (try_except _ _) _ _ => apply wp_try_except
  | |- wp (attempt _) _ _ => apply wp_attempt
  | |- wp next_tick _ _ => apply wp_next_tick
  | |- wp _utcnow _ _ => apply wp_utcnow
  | |- wp uuid4 _ _ => apply wp_uuid4
  | |- wp page_url _ _ => apply wp_page_url
  | |- wp engine _ _ => apply wp_engine
  | |- wp engine_ _ _ => apply wp_engine_
  | |- wp (suppress engine_) _ _ => apply wp_suppress_engine
  | |- wp (get_session _) _ _ => apply wp_get_session
  | |- wp (update_session _ _) _ _ => apply wp_update_session
  | |- wp (update_tab _ _ _) _ _ => apply wp_update_tab
  | |- wp (deref _ _) _ _ => apply wp_deref
  | |- wp page_title _ _ => unfold page_title
  | |- wp (lift _) _ _ => unfold lift
  end.

Ltac wp_step :=
  first
    [ wp_prim
    | lazymatch goal with
      | |- wp (match ?x with _ => _ end) _ _ => destruct x eqn:?
      | |- match ?x with _ => _ end => destruct x eqn:?
      end ];
  wp_simpl.

(** As [wp_simpl], and the fields of the records met on the way. *)
Ltac wp_fields :=
  wp_simpl; unfold bumped;
  cbn [tabs set_tabs set_active_tab_id set_sess_last_used active_tab_id
       context sess_created_at sess_last_used
       history history_index page created_at last_used
       set_history set_history_index set_last_used];
  rewrite ?get_set_same, ?set_set;
  cbn beta iota.

(** Steps of a run on which nothing is left to choice. *)
Ltac wp_det := repeat (wp_prim; wp_fields).

(** ** Creating a session *)

Lemma wp_initialize Q w :
  (forall r w', sessions w' = sessions w ->
     (tick w <= tick w')%nat ->
     (r = Ret tt -> launched w -> engine_up w -> browser w' <> None) ->
     (engine_up w -> r = Ret tt) ->
     Q r w') ->
  wp initialize Q w.
Proof.
  intros H. unfold initialize.
  repeat wp_step; apply H; simpl; auto; try lia; try congruence.
  - intros _ Hl _. apply Hl. congruence.
  - intros _ Hl _. apply Hl. congruence.
  - intros Hup. rewrite (Hup (tick w)) in * by lia. discriminate.
  - intros Hup. rewrite (Hup (S (tick w))) in * by (simpl; lia). discriminate.
Qed.


Lemma wp_mgr_create_session w :
  wp mgr_create_session
    (fun r w' =>
       (forall sid tid, r = Ret (sid, tid) ->
          exists s t,
            Dict.get sid (sessions w') = Some s /\
            tabs s = [(tid, t)] /\
            history t = [] /\ history_index t = -1 /\
            active_tab_id s = Some tid) /\
       (launched w -> engine_up w -> exists sid tid, r = Ret (sid, tid)))
    w.
Proof.
  unfold mgr_create_session. wp_step. apply wp_initialize.
  intros r w1 Hs Htick Hb Hr. destruct r as [[]|e]; wp_simpl.
  - repeat wp_step;
      (split;
       [ intros sid tid E; try discriminate; injection E as <- <-;
         rewrite get_set_same; eexists _, _; repeat split
       | intros Hl Hup; try (eexists _, _; reflexivity); exfalso ]).
    + rewrite (Hup (S (tick w1))) in * by lia. discriminate.
    + rewrite (Hup (S (S (S (tick w1))))) in * by lia. discriminate.
    + now apply (Hb eq_refl Hl Hup).
  - split; [discriminate|]. intros Hl Hup. now specialize (Hr Hup).
Qed.

(** C6. [BrowserSessionManager.create_session] returns a pair
    [(session_id, first_tab_id)] such that the session registered under
    [session_id] holds exactly one tab, keyed by [first_tab_id], whose
    history is empty and whose cursor is [-1], and which is the active tab
    of the session.  The pair is returned whenever the engine answers its
    calls (and an earlier launch did not leave Playwright without a
    browser). *)
Theorem create_session_one_active_tab (w : world) :
  (forall sid tid w',
     mgr_create_session w = (Ret (sid, tid), w') ->
     exists s t,
       Dict.get sid (sessions w') = Some s /\
       tabs s = [(tid, t)] /\
       history t = [] /\ history_index t = -1 /\
       active_tab_id s = Some tid) /\
  (launched w -> engine_up w ->
   exists sid tid w', mgr_create_session w = (Ret (sid, tid), w')).
Proof.
  pose proof (wp_mgr_create_session w) as H. unfold wp in H.
  destruct (mgr_create_session w) as [r w1]. simpl in H.
  destruct H as [H1 H2]. split.
  - intros sid tid w' [= -> <-]. now apply H1.
  - intros Hl Hup. destruct (H2 Hl Hup) as (sid & tid & ->). eauto.
Qed.


(** ** Closing a tab *)

Lemma opt_eqb_eq a b : opt_eqb a b = true <-> a = b.
Proof.
  destruct a as [x|], b as [y|]; simpl; split; try congruence.
  - intros H. apply String.eqb_eq in H. congruence.
  - intros [= ->]. apply String.eqb_refl.
Qed.

Lemma mgr_close_session_run sid w s :
  Dict.get sid (sessions w) = Some s ->
  mgr_close_session sid w =
    (Ret tt, set_sessions (Dict.pop sid (sessions w)) (set_tick (S (tick w)) w)).
Proof.
  intros Hs. unfold mgr_close_session, bind, gets, modify, Dict.mem.
  rewrite Hs. unfold suppress, try_except, engine_, engine, bind, next_tick.
  simpl. destruct (engine_at O (tick w)); reflexivity.
Qed.

Lemma mgr_close_session_absent sid w :
  Dict.get sid (sessions w) = None -> mgr_close_session sid w = (Ret tt, w).
Proof.
  intros Hs. unfold mgr_close_session, bind, gets, Dict.mem.
  now rewrite Hs.
Qed.

(** What [close_tab] does to the registry when the tab is there. *)
Lemma mgr_close_tab_run sid tid w s :
  Dict.get sid (sessions w) = Some s ->
  Dict.mem tid (tabs s) = true ->
  exists w',
    mgr_close_tab sid (JStr tid) w = (Ret tt, w') /\
    sessions w' =
      if Dict.is_empty (Dict.pop tid (tabs s))
      then Dict.pop sid (sessions w)
      else Dict.set sid
             (set_sess_last_used (utcnow_at O (S (tick w))) (without_tab tid s))
             (sessions w).
Proof.
  intros Hs Hm.
  assert (wp (mgr_close_tab sid (JStr tid))
            (fun r w' => r = Ret tt /\
               sessions w' =
                 if Dict.is_empty (Dict.pop tid (tabs s))
                 then Dict.pop sid (sessions w)
                 else Dict.set sid
                        (set_sess_last_used (utcnow_at O (S (tick w)))
                           (without_tab tid s))
                        (sessions w)) w) as H.
  { unfold mgr_close_tab, json_in. wp_step. wp_step. wp_simpl.
    wp_step. wp_step. wp_simpl. wp_step. wp_step. wp_step. wp_step.
    wp_step. wp_step. cbn [tabs set_tabs].
    destruct (Dict.is_empty (Dict.pop tid (tabs s))) eqn:He.
    - eapply wp_run.
      + eapply mgr_close_session_run. wp_simpl. reflexivity.
      + wp_simpl. auto.
    - unfold without_tab. cbn [tabs set_tabs active_tab_id].
      wp_step. wp_step; repeat wp_step; auto. }
  unfold wp in H. destruct (mgr_close_tab sid (JStr tid) w) as [r w'].
  simpl in H. destruct H as [-> H]. eauto.
Qed.


(** ** Properties of sessions kept by every operation *)

Section Preservation.

Variable P : session -> Prop.
Hypothesis HP : stable P.

Lemma preserves_wp {A} (c : M A) (Q : outcome A -> world -> Prop) w :
  preserves P c -> all_sessions P w ->
  (forall r w', all_sessions P w' -> Q r w') ->
  wp c Q w.
Proof. unfold wp. intros Hc Hw H. apply H, Hc, Hw. Qed.

Lemma wp_preserves {A} (c : M A) :
  (forall w, all_sessions P w -> wp c (fun _ w' => all_sessions P w') w) ->
  preserves P c.
Proof. exact (fun H => H). Qed.

Lemma preserves_ticks {A} (c : M A) : ticks c -> preserves P c.
Proof. intros Ht w Hw. now destruct (Ht w) as [n ->]. Qed.

Lemma preserves_bind {A B} (c : M A) (k : A -> M B) :
  preserves P c -> (forall a, preserves P (k a)) -> preserves P (bind c k).
Proof.
  intros Hc Hk w Hw. unfold bind. specialize (Hc w Hw).
  destruct (c w) as [[a|e] w']; simpl in *; [now apply Hk | assumption].
Qed.

Lemma preserves_try_except {A} (c : M A) h :
  preserves P c -> (forall e, preserves P (h e)) ->
  preserves P (try_except c h).
Proof.
  intros Hc Hh w Hw. unfold try_except. specialize (Hc w Hw).
  destruct (c w) as [[a|e] w']; simpl in *; [assumption | now apply Hh].
Qed.

Lemma preserves_attempt {A} (c : M A) :
  preserves P c -> preserves P (attempt c).
Proof.
  intros Hc w Hw. unfold attempt. specialize (Hc w Hw).
  now destruct (c w) as [r w'].
Qed.

Lemma preserves_for_each {A} (xs : list A) body :
  (forall x, preserves P (body x)) -> preserves P (for_each xs body).
Proof.
  intros Hb. induction xs as [|x r IH]; simpl.
  - now intros w Hw.
  - apply preserves_bind; auto.
Qed.

Lemma preserves_gets {A} (f : world -> A) : preserves P (gets f).
Proof. now intros w Hw. Qed.

Lemma preserves_update_session sid f :
  (forall s, P s -> P (f s)) -> preserves P (update_session sid f).
Proof.
  intros Hf w Hw. unfold update_session, modify. simpl.
  destruct (Dict.get sid (sessions w)) as [s|] eqn:Hs; [|assumption].
  apply every_set; [assumption|]. apply Hf. eapply every_get; eauto.
Qed.

Lemma preserves_update_tab sid tid f :
  (forall s t, P s -> Dict.get tid (tabs s) = Some t ->
     P (set_tabs (Dict.set tid (f t) (tabs s)) s)) ->
  preserves P (update_tab sid tid f).
Proof.
  intros Hf. apply preserves_update_session. intros s Hs.
  destruct (Dict.get tid (tabs s)) eqn:Ht; auto.
Qed.

Create HintDb pres.
#[local] Hint Resolve preserves_gets preserves_attempt : pres.
#[local] Hint Extern 1 (preserves _ (ret _)) =>
  apply preserves_ticks, ticks_ret : pres.
#[local] Hint Extern 1 (preserves _ (raise _)) =>
  apply preserves_ticks, ticks_raise : pres.
#[local] Hint Extern 2 (preserves _ (bind _ _)) =>
  apply preserves_bind; [| intro] : pres.
#[local] Hint Extern 2 (preserves _ (try_except _ _)) =>
  apply preserves_try_except; [| intro] : pres.
#[local] Hint Extern 2 (preserves _ (suppress _)) =>
  apply preserves_try_except; [| intro] : pres.
#[local] Hint Extern 2 (preserves _ (for_each _ _)) =>
  apply preserves_for_each; intro : pres.
#[local] Hint Extern 3 (preserves _ (match ?x with _ => _ end)) =>
  destruct x : pres.
#[local] Hint Extern 3 (preserves _ (let (_, _) := ?x in _)) =>
  destruct x : pres.
#[local] Hint Extern 5 (preserves _ _) =>
  apply preserves_ticks; solve [auto 12 with ticks] : pres.

Lemma preserves_touch sid n :
  preserves P (update_session sid (set_sess_last_used n)).
Proof. apply preserves_update_session. intros s. apply (st_touch P HP). Qed.

Lemma preserves_tab_touch sid tid n :
  preserves P (update_tab sid tid (set_last_used n)).
Proof.
  apply preserves_update_tab. intros s t. apply (st_tab_touch P HP).
Qed.

Lemma preserves_push sid tid u :
  preserves P (update_tab sid tid (push_history u)).
Proof. apply preserves_update_tab. intros s t. apply (st_push P HP). Qed.

#[local] Hint Resolve preserves_touch preserves_tab_touch preserves_push
  : pres.

Lemma preserves_get_session sid : preserves P (get_session sid).
Proof. apply preserves_gets. Qed.

Lemma preserves_deref sid s : preserves P (deref sid s).
Proof. apply preserves_gets. Qed.

Lemma preserves_tab_ref sid s tid : preserves P (tab_ref sid s tid).
Proof. unfold tab_ref. pose proof preserves_deref. auto with pres. Qed.

#[local] Hint Resolve preserves_get_session preserves_deref preserves_tab_ref
  : pres.

Lemma preserves_get_page sid j : preserves P (get_page sid j).
Proof. unfold get_page. auto 12 with pres. Qed.

Lemma preserves_mgr_close_session sid : preserves P (mgr_close_session sid).
Proof.
  unfold mgr_close_session. apply preserves_bind; [auto with pres|].
  intros ss. destruct (Dict.mem sid ss); [|auto with pres].
  apply preserves_bind; [auto with pres|]. intros _ w Hw.
  now apply every_pop.
Qed.

Lemma preserves_initialize : preserves P initialize.
Proof.
  intros w Hw. change (wp initialize (fun _ w' => all_sessions P w') w).
  apply wp_initialize. intros r w' Hs _ _ _.
  unfold all_sessions in *. now rewrite Hs.
Qed.

#[local] Hint Resolve preserves_get_page preserves_mgr_close_session
  preserves_initialize : pres.

Lemma preserves_mgr_create_session : preserves P mgr_create_session.
Proof.
  unfold mgr_create_session.
  repeat (apply preserves_bind; [solve [auto with pres]|]; intro).
  destruct a0; [|auto with pres].
  repeat (apply preserves_bind; [solve [auto with pres]|]; intro).
  apply preserves_bind; [|auto with pres].
  intros w Hw. apply every_set; [assumption|]. apply (st_new P HP).
Qed.

Ltac inv_leaf :=
  unfold all_sessions in *; wp_simpl; try assumption;
  try (apply every_set; [assumption|]);
  try (apply every_pop; assumption).

Lemma preserves_mgr_create_tab sid : preserves P (mgr_create_tab sid).
Proof.
  apply wp_preserves. intros w Hw. unfold mgr_create_tab.
  repeat wp_step; inv_leaf.
  apply (st_touch P HP), (st_add_tab P HP). eapply every_get; eauto.
Qed.

Lemma preserves_mgr_close_tab sid j : preserves P (mgr_close_tab sid j).
Proof.
  intros w Hw.
  destruct (Dict.get sid (sessions w)) as [s|] eqn:Hs.
  - destruct j as [| | |tid| |];
      try (unfold mgr_close_tab, get_session, json_in, bind, gets, ret, raise;
           simpl; rewrite Hs; simpl; exact Hw).
    destruct (Dict.mem tid (tabs s)) eqn:Hm.
    + destruct (mgr_close_tab_run sid tid w s Hs Hm) as (w' & -> & Hw').
      unfold all_sessions in *. simpl. rewrite Hw'.
      destruct (Dict.is_empty (Dict.pop tid (tabs s))) eqn:He.
      * now apply every_pop.
      * apply every_set; [assumption|].
        apply (st_touch P HP), (st_drop_tab P HP).
        -- eapply every_get; eauto.
        -- intros Hn. rewrite Hn in He. discriminate.
    + unfold mgr_close_tab, get_session, json_in, bind, gets, ret, raise.
      simpl. rewrite Hs. simpl. rewrite Hm. exact Hw.
  - unfold mgr_close_tab, get_session, bind, gets, raise. simpl.
    rewrite Hs. exact Hw.
Qed.

Lemma preserves_mgr_activate_tab sid j : preserves P (mgr_activate_tab sid j).
Proof.
  apply wp_preserves. intros w Hw. unfold mgr_activate_tab, json_in.
  wp_step. wp_step. wp_step; [|wp_step; assumption].
  assert (P s) as Ps by (eapply every_get; eauto).
  destruct j; repeat wp_step; inv_leaf.
  destruct (Dict.mem s0 (tabs s)) eqn:Hm; [|discriminate].
  injection Heqo0 as E. subst s1.
  pose proof Hm as Hm'. apply mem_get in Hm' as [t Ht].
  cbn [tabs set_sess_last_used set_active_tab_id]. rewrite Ht.
  apply (st_tab_touch P HP (set_sess_last_used _ (set_active_tab_id _ s)));
    [|exact Ht].
  apply (st_touch P HP), (st_activate P HP); auto.
Qed.

#[local] Hint Resolve preserves_mgr_create_session preserves_mgr_create_tab
  preserves_mgr_close_tab preserves_mgr_activate_tab : pres.

(** *** The idle reaper *)

Lemma wp_deref_tab sid tid t Q w :
  Q (Ret (match Dict.get sid (sessions w) with
          | Some s =>
              match Dict.get tid (tabs s) with Some t' => t' | None => t end
          | None => t
          end)) w ->
  wp (deref_tab sid tid t) Q w.
Proof. exact (fun H => H). Qed.

Lemma preserves_reap_tab now sid sess item :
  preserves P (reap_tab now sid sess item).
Proof.
  apply wp_preserves. intros w Hw. unfold reap_tab. destruct item as [tid t].
  wp_step. wp_step. wp_step. apply wp_deref_tab.
  destruct (Dict.get sid (sessions w)) as [s|] eqn:Hs.
  - wp_simpl. repeat wp_step; inv_leaf;
      apply andb_prop in Heqb as [_ Hlen]; apply Z.ltb_lt in Hlen;
      unfold Dict.len in Hlen;
      assert (Dict.pop tid (tabs s) <> []) as Hne
        by (intros Hn; pose proof (pop_length (tabs s) tid) as Hl;
            rewrite Hn in Hl; simpl in Hl; lia);
      pose proof (st_drop_tab P HP s tid (every_get P _ _ _ Hw Hs) Hne) as Hd;
      unfold without_tab in Hd; cbn [tabs set_tabs active_tab_id] in Hd;
      cbn [tabs set_tabs active_tab_id] in *;
      rewrite Heqb0 in Hd; exact Hd.
  - wp_simpl. repeat wp_step; inv_leaf.
Qed.

Lemma preserves_reap_session now item : preserves P (reap_session now item).
Proof.
  unfold reap_session. destruct item as [sid sess].
  pose proof preserves_reap_tab. auto 8 with pres.
Qed.

Lemma preserves_reap_sessions now items :
  preserves P (reap_sessions now items).
Proof.
  induction items as [|[sid sess] r IH]; cbn [reap_sessions];
    [auto with pres|].
  pose proof preserves_reap_session. auto 8 with pres.
Qed.

Lemma preserves_cleanup_idle : preserves P _cleanup_idle.
Proof.
  unfold _cleanup_idle. pose proof preserves_reap_sessions.
  auto 8 with pres.
Qed.

Lemma preserves_cleanup : preserves P cleanup.
Proof.
  unfold cleanup. apply preserves_bind; [now intros w Hw|].
  intros _. auto 12 with pres.
Qed.

(** *** Request handlers *)

#[local] Hint Resolve preserves_cleanup_idle preserves_cleanup : pres.

Lemma wp_tab_ref sid session tid Q w :
  (forall t,
     Dict.get tid
       (tabs (match Dict.get sid (sessions w) with
              | Some s => s
              | None => session
              end)) = Some t ->
     Q (Ret t) w) ->
  Q (Raise (KeyError tid)) w ->
  wp (tab_ref sid session tid) Q w.
Proof.
  intros H1 H2. unfold tab_ref. repeat wp_step; auto.
Qed.

Lemma preserves_create_session : preserves P create_session.
Proof. unfold create_session. auto 12 with pres. Qed.

Lemma preserves_close_session sid : preserves P (close_session sid).
Proof. unfold close_session. auto 12 with pres. Qed.

Lemma preserves_create_tab sid : preserves P (create_tab sid).
Proof. unfold create_tab. auto 12 with pres. Qed.

Lemma preserves_close_tab sid tid : preserves P (close_tab sid tid).
Proof. unfold close_tab. auto 12 with pres. Qed.

Lemma preserves_activate_tab sid tid : preserves P (activate_tab sid tid).
Proof. unfold activate_tab. auto 12 with pres. Qed.

Lemma preserves_get_session_status sid t :
  preserves P (get_session_status sid t).
Proof. unfold get_session_status. auto 16 with pres. Qed.

Lemma preserves_navigate sid url t : preserves P (navigate sid url t).
Proof. unfold navigate. auto 20 with pres. Qed.

Lemma preserves_go_back sid t : preserves P (go_back sid t).
Proof.
  unfold go_back, not_found_404.
  apply preserves_try_except; [|auto with pres].
  apply preserves_bind; [auto with pres|]. intros [session|]; [|auto with pres].
  apply preserves_bind; [auto with pres|]. intros [tid pg].
  apply wp_preserves. intros w Hw.
  apply wp_bind. apply wp_tab_ref.
  - intros tb Ht. wp_simpl. destruct (0 <? history_index tb) eqn:Hlt.
    + wp_step. wp_step.
      eapply preserves_wp; [| |intros ? ? Hx; exact Hx].
      * auto 12 with pres.
      * destruct (Dict.get sid (sessions w)) as [s|] eqn:Hs; [|assumption].
        inv_leaf. apply (st_back P HP); auto.
        -- eapply every_get; eauto.
        -- now apply Z.ltb_lt.
    + wp_step. assumption.
  - assumption.
Qed.

Lemma preserves_go_forward sid t : preserves P (go_forward sid t).
Proof.
  unfold go_forward, not_found_404.
  apply preserves_try_except; [|auto with pres].
  apply preserves_bind; [auto with pres|]. intros [session|]; [|auto with pres].
  apply preserves_bind; [auto with pres|]. intros [tid pg].
  apply wp_preserves. intros w Hw.
  apply wp_bind. apply wp_tab_ref.
  - intros tb Ht. wp_simpl.
    destruct (history_index tb <? Z.of_nat (List.length (history tb)) - 1)
      eqn:Hlt.
    + wp_step. wp_step.
      eapply preserves_wp; [| |intros ? ? Hx; exact Hx].
      * auto 12 with pres.
      * destruct (Dict.get sid (sessions w)) as [s|] eqn:Hs; [|assumption].
        inv_leaf. apply (st_forward P HP); auto.
        -- eapply every_get; eauto.
        -- now apply Z.ltb_lt.
    + wp_step. assumption.
  - assumption.
Qed.

Lemma preserves_refresh sid t : preserves P (refresh sid t).
Proof. unfold refresh, key_error_404. auto 12 with pres. Qed.

Lemma preserves_get_screenshot sid t : preserves P (get_screenshot sid t).
Proof. unfold get_screenshot. auto 12 with pres. Qed.

Lemma preserves_page_action st sid t : preserves P (page_action st sid t).
Proof. unfold page_action, key_error_404. auto 12 with pres. Qed.

(** *** The streaming connection *)

Lemma ticks_socket_call : ticks socket_call.
Proof. unfold socket_call. auto with ticks. Qed.

Lemma ticks_send_json msg c : ticks (send_json msg c).
Proof. unfold send_json. auto with ticks. Qed.

Lemma ticks_send_state st ex c : ticks (send_state st ex c).
Proof.
  unfold send_state. pose proof ticks_send_json. auto 8 with ticks.
Qed.

#[local] Hint Resolve ticks_socket_call ticks_send_json ticks_send_state
  : ticks.

Lemma preserves_send_then msg c k :
  (forall c, preserves P (k c)) -> preserves P (send_then msg c k).
Proof. intros Hk. unfold send_then. auto 8 with pres. Qed.

Lemma preserves_continue c : preserves P (continue c).
Proof. unfold continue. auto with pres. Qed.

#[local] Hint Resolve preserves_continue : pres.
#[local] Hint Extern 2 (preserves _ (send_then _ _ _)) =>
  apply preserves_send_then; intro : pres.

Lemma preserves_stream_step sid c : preserves P (stream_step sid c).
Proof. unfold stream_step. auto 16 with pres. Qed.

Lemma preserves_ws_open sid : preserves P (ws_open sid).
Proof. unfold ws_open. auto 12 with pres. Qed.

Lemma preserves_ws_activate_tab sid c data :
  preserves P (ws_activate_tab sid c data).
Proof. unfold ws_activate_tab. auto 12 with pres. Qed.

Lemma preserves_ws_new_tab sid c : preserves P (ws_new_tab sid c).
Proof. unfold ws_new_tab. auto 12 with pres. Qed.

Lemma preserves_ws_close_tab sid c data :
  preserves P (ws_close_tab sid c data).
Proof. unfold ws_close_tab. auto 16 with pres. Qed.

Lemma preserves_ws_navigate_body sid tab_id url :
  preserves P (ws_navigate_body sid tab_id url).
Proof. unfold ws_navigate_body. auto 16 with pres. Qed.

Lemma preserves_ws_navigate sid c tab_id data :
  preserves P (ws_navigate sid c tab_id data).
Proof.
  unfold ws_navigate. pose proof preserves_ws_navigate_body.
  auto 16 with pres.
Qed.

Lemma preserves_ws_move (forward : bool) sid session tid :
  preserves P
    (tab <- tab_ref sid session tid ;;
     if forward then
       if history_index tab <? Z.of_nat (List.length (history tab)) - 1
       then
         update_tab sid tid (fun t =>
           set_history_index (history_index t + 1) t) ;;
         engine_
       else ret tt
     else
       if 0 <? history_index tab then
         update_tab sid tid (fun t =>
           set_history_index (history_index t - 1) t) ;;
         engine_
       else ret tt).
Proof.
  apply wp_preserves. intros w Hw.
  apply wp_bind, wp_tab_ref; [|assumption]. intros tb Ht. wp_simpl.
  destruct forward.
  - destruct (history_index tb <? Z.of_nat (List.length (history tb)) - 1)
      eqn:Hlt; [|wp_step; assumption].
    wp_step. wp_step.
    eapply preserves_wp; [| |intros ? ? Hx; exact Hx]; [auto with pres|].
    destruct (Dict.get sid (sessions w)) as [s|] eqn:Hs; [|assumption].
    inv_leaf. apply (st_forward P HP); auto.
    + eapply every_get; eauto.
    + now apply Z.ltb_lt.
  - destruct (0 <? history_index tb) eqn:Hlt; [|wp_step; assumption].
    wp_step. wp_step.
    eapply preserves_wp; [| |intros ? ? Hx; exact Hx]; [auto with pres|].
    destruct (Dict.get sid (sessions w)) as [s|] eqn:Hs; [|assumption].
    inv_leaf. apply (st_back P HP); auto.
    + eapply every_get; eauto.
    + now apply Z.ltb_lt.
Qed.

Lemma preserves_ws_history_move forward sid c tab_id :
  preserves P (ws_history_move forward sid c tab_id).
Proof.
  unfold ws_history_move. pose proof preserves_ws_move.
  apply preserves_bind; [|auto with pres].
  apply preserves_attempt.
  apply preserves_bind; [auto with pres|]. intros [session|]; [|auto with pres].
  apply preserves_bind; [auto with pres|]. intros [tid|]; [|auto with pres].
  apply H.
Qed.

Lemma ticks_ws_page_command ev data : ticks (ws_page_command ev data).
Proof. unfold ws_page_command. auto 30 with ticks. Qed.

Lemma preserves_ws_command sid c data : preserves P (ws_command sid c data).
Proof.
  unfold ws_command.
  pose proof preserves_ws_activate_tab. pose proof preserves_ws_new_tab.
  pose proof preserves_ws_close_tab. pose proof preserves_ws_navigate.
  pose proof preserves_ws_history_move.
  pose proof (fun ev data => preserves_ticks _ (ticks_ws_page_command ev data)).
  auto 20 with pres.
Qed.

(** Every operation of the service keeps a stable property of sessions. *)
Lemma run_op_preserves o w : all_sessions P w -> all_sessions P (run_op o w).
Proof.
  destruct o; cbn [run_op].
  - apply preserves_create_session.
  - apply preserves_close_session.
  - apply preserves_create_tab.
  - apply preserves_close_tab.
  - apply preserves_activate_tab.
  - apply preserves_get_session_status.
  - apply preserves_navigate.
  - apply preserves_go_back.
  - apply preserves_go_forward.
  - apply preserves_refresh.
  - apply preserves_get_screenshot.
  - apply preserves_page_action.
  - apply preserves_page_action.
  - apply preserves_page_action.
  - apply preserves_page_action.
  - apply preserves_cleanup_idle.
  - apply preserves_cleanup.
  - apply preserves_ws_open.
  - apply preserves_ws_command.
  - apply preserves_stream_step.
Qed.

Lemma run_ops_preserves os w :
  all_sessions P w -> all_sessions P (run_ops os w).
Proof.
  unfold run_ops. revert w.
  induction os as [|o os IH]; simpl; intros w Hw; [assumption|].
  apply IH, run_op_preserves, Hw.
Qed.

End Preservation.


(** ** The three invariants are stable *)

Lemma tabs_without_tab tid s :
  tabs (without_tab tid s) = Dict.pop tid (tabs s).
Proof.
  unfold without_tab. cbn [tabs set_tabs active_tab_id].
  now destruct (opt_eqb (active_tab_id s) (Some tid)).
Qed.

Lemma stable_has_tab : stable has_tab.
Proof.
  constructor; unfold has_tab; intros; cbn [tabs set_tabs set_active_tab_id
    set_sess_last_used]; try apply set_not_nil; try assumption;
    try discriminate.
  now rewrite tabs_without_tab.
Qed.

Lemma get_some_not_nil {V} k (d : Dict.t V) v :
  Dict.get k d = Some v -> d <> [].
Proof. destruct d; [discriminate | discriminate]. Qed.

Lemma active_ok_set_tab s tid t v :
  active_ok s -> Dict.get tid (tabs s) = Some t ->
  active_ok (set_tabs (Dict.set tid v (tabs s)) s).
Proof.
  unfold active_ok. cbn [tabs set_tabs active_tab_id]. intros H Ht _.
  destruct (H (get_some_not_nil _ _ _ Ht)) as (a & Ha & Hm).
  exists a. split; [assumption|]. rewrite mem_set, Hm. apply orb_true_r.
Qed.

Lemma active_ok_without_tab s tid : active_ok s -> active_ok (without_tab tid s).
Proof.
  unfold active_ok, without_tab. cbn [tabs set_tabs active_tab_id].
  intros H.
  destruct (opt_eqb (active_tab_id s) (Some tid)) eqn:He;
    cbn [tabs set_tabs set_active_tab_id active_tab_id]; intros Hne.
  - destruct (first_key_some _ Hne) as [k Hk].
    exists k. split; [assumption | now apply first_key_mem].
  - assert (tabs s <> []) as Hs.
    { intros Hn. rewrite Hn in Hne. now apply Hne. }
    destruct (H Hs) as (a & Ha & Hm). exists a. split; [assumption|].
    rewrite mem_pop_other; [assumption|].
    intros ->. rewrite Ha in He. simpl in He.
    rewrite String.eqb_refl in He. discriminate.
Qed.

Lemma stable_active_ok : stable active_ok.
Proof.
  constructor; intros; try (eapply active_ok_set_tab; eassumption).
  - intros _. exists tid. split; [reflexivity|].
    unfold Dict.mem. simpl. now rewrite String.eqb_refl.
  - exact H.
  - intros _. exists tid. split; [reflexivity|].
    cbn [tabs set_tabs set_active_tab_id]. rewrite mem_set.
    now rewrite String.eqb_refl.
  - intros _. exists tid. split; [reflexivity | assumption].
  - now apply active_ok_without_tab.
Qed.

Lemma cursor_ok_fresh pg c u : cursor_ok (fresh_tab pg c u).
Proof. unfold cursor_ok. simpl. lia. Qed.

Lemma cursor_ok_push u t : cursor_ok (push_history u t).
Proof.
  unfold cursor_ok, push_history.
  cbn [history history_index set_history set_history_index].
  rewrite length_app. simpl. lia.
Qed.

Lemma stable_cursor_ok : stable (tabs_ok cursor_ok).
Proof.
  constructor; unfold tabs_ok; intros;
    cbn [tabs set_tabs set_active_tab_id set_sess_last_used];
    try assumption;
    try (apply every_set; [assumption|]).
  - repeat constructor. apply cursor_ok_fresh.
  - exact (every_get _ _ _ _ H H0).
  - apply cursor_ok_push.
  - apply cursor_ok_fresh.
  - rewrite tabs_without_tab. now apply every_pop.
  - pose proof (every_get _ _ _ _ H H0) as Hc. unfold cursor_ok in *.
    cbn [history history_index set_history_index]. lia.
  - pose proof (every_get _ _ _ _ H H0) as Hc. unfold cursor_ok in *.
    cbn [history history_index set_history_index]. lia.
Qed.

Lemma init_world_all P : all_sessions P init_world.
Proof. constructor. Qed.


(** ** Dictionaries stay dictionaries *)

Lemma keys_set_in {V} k v (d : Dict.t V) x :
  In x (Dict.keys (Dict.set k v d)) -> x = k \/ In x (Dict.keys d).
Proof.
  unfold Dict.keys. induction d as [|[k' v'] d IH]; simpl.
  - intros [<-|[]]. now left.
  - destruct (String.eqb_spec k k') as [->|Hne]; simpl.
    + intros [<-|H]; [right; now left | right; now right].
    + intros [<-|H]; [right; now left|].
      destruct (IH H) as [->|H']; [now left | right; now right].
Qed.

Lemma wf_set {V} k v (d : Dict.t V) : Dict.wf d -> Dict.wf (Dict.set k v d).
Proof.
  unfold Dict.wf. induction d as [|[k' v'] d IH]; simpl.
  - intros _. repeat constructor. intros [].
  - intros H. inversion H; subst.
    destruct (String.eqb_spec k k') as [->|Hne]; simpl.
    + now constructor.
    + constructor; [|auto].
      intros Hin. apply keys_set_in in Hin as [->|Hin]; [congruence | auto].
Qed.

Lemma stable_wf_tabs : stable wf_tabs.
Proof.
  constructor; unfold wf_tabs; intros;
    cbn [tabs set_tabs set_active_tab_id set_sess_last_used];
    try assumption; try (now apply wf_set).
  - repeat constructor. intros [].
  - rewrite tabs_without_tab. now apply wf_pop.
Qed.

Lemma keeps_bind I {A B} (c : M A) (k : A -> M B) :
  keeps I c -> (forall a, keeps I (k a)) -> keeps I (bind c k).
Proof.
  intros Hc Hk w Hw. unfold bind. specialize (Hc w Hw).
  destruct (c w) as [[a|e] w']; simpl in *; [now apply Hk | assumption].
Qed.

Lemma keeps_try_except I {A} (c : M A) h :
  keeps I c -> (forall e, keeps I (h e)) -> keeps I (try_except c h).
Proof.
  intros Hc Hh w Hw. unfold try_except. specialize (Hc w Hw).
  destruct (c w) as [[a|e] w']; simpl in *; [assumption | now apply Hh].
Qed.

Lemma keeps_attempt I {A} (c : M A) : keeps I c -> keeps I (attempt c).
Proof.
  intros Hc w Hw. unfold attempt. specialize (Hc w Hw).
  now destruct (c w) as [r w'].
Qed.

Lemma keeps_for_each I {A} (xs : list A) body :
  (forall x, keeps I (body x)) -> keeps I (for_each xs body).
Proof.
  intros Hb. induction xs as [|x r IH]; simpl.
  - now intros w Hw.
  - apply keeps_bind; auto.
Qed.

Lemma keeps_gets I {A} (f : world -> A) : keeps I (gets f).
Proof. now intros w Hw. Qed.

Lemma keeps_get_session I sid : keeps I (get_session sid).
Proof. apply keeps_gets. Qed.

Lemma keeps_deref I sid s : keeps I (deref sid s).
Proof. apply keeps_gets. Qed.

Lemma keeps_deref_tab I sid tid t : keeps I (deref_tab sid tid t).
Proof. apply keeps_gets. Qed.

(** *** What the operations on the sessions of [touched] keep *)

Section Frames.

Variable I : world -> Prop.
Variable touched : string -> Prop.
Hypothesis HF : frames I touched.

Lemma keeps_ticks {A} (c : M A) : ticks c -> keeps I c.
Proof.
  intros Ht w Hw. destruct (Ht w) as [n ->].
  now apply (fr_same I touched HF w).
Qed.

Lemma keeps_update_session sid f :
  touched sid -> keeps I (update_session sid f).
Proof.
  intros Ht w Hw. unfold update_session, modify. simpl.
  destruct (Dict.get sid (sessions w)) eqn:E; [|assumption].
  now apply (fr_update I touched HF sid _ w s).
Qed.

Lemma keeps_update_tab sid tid f :
  touched sid -> keeps I (update_tab sid tid f).
Proof. apply keeps_update_session. Qed.

Lemma keeps_pop sid :
  touched sid ->
  keeps I (modify (fun w => set_sessions (Dict.pop sid (sessions w)) w)).
Proof. intros Ht w Hw. now apply (fr_pop I touched HF). Qed.

Lemma keeps_initialize : keeps I initialize.
Proof.
  intros w Hw. change (wp initialize (fun _ w' => I w') w).
  apply wp_initialize. intros r w' Hs _ _ _.
  now apply (fr_same I touched HF w).
Qed.

Create HintDb frame.
#[local] Hint Resolve ticks_socket_call ticks_send_json ticks_send_state
  : ticks.
#[local] Hint Resolve keeps_gets keeps_attempt keeps_update_session
  keeps_update_tab keeps_get_session keeps_deref keeps_deref_tab keeps_pop
  keeps_initialize : frame.
#[local] Hint Extern 1 (keeps _ (ret _)) =>
  apply keeps_ticks, ticks_ret : frame.
#[local] Hint Extern 1 (keeps _ (raise _)) =>
  apply keeps_ticks, ticks_raise : frame.
#[local] Hint Extern 2 (keeps _ (bind _ _)) =>
  apply keeps_bind; [| intro] : frame.
#[local] Hint Extern 2 (keeps _ (try_except _ _)) =>
  apply keeps_try_except; [| intro] : frame.
#[local] Hint Extern 2 (keeps _ (suppress _)) =>
  apply keeps_try_except; [| intro] : frame.
#[local] Hint Extern 2 (keeps _ (for_each _ _)) =>
  apply keeps_for_each; intro : frame.
#[local] Hint Extern 2 (keeps _ (send_then _ _ _)) =>
  unfold send_then : frame.
#[local] Hint Extern 3 (keeps _ (match ?x with _ => _ end)) =>
  destruct x : frame.
#[local] Hint Extern 3 (keeps _ (let (_, _) := ?x in _)) =>
  destruct x : frame.
#[local] Hint Extern 5 (keeps _ _) =>
  apply keeps_ticks; solve [auto 12 with ticks] : frame.

Lemma keeps_mgr_close_session sid :
  touched sid -> keeps I (mgr_close_session sid).
Proof. intros Ht. unfold mgr_close_session. auto 8 with frame. Qed.

Lemma keeps_mgr_create_session :
  (forall sid s w, I w -> I (set_sessions (Dict.set sid s (sessions w)) w)) ->
  keeps I mgr_create_session.
Proof.
  intros Hnew. unfold mgr_create_session.
  repeat (apply keeps_bind; [solve [auto with frame]|]; intro).
  destruct a0; [|auto with frame].
  repeat (apply keeps_bind; [solve [auto with frame]|]; intro).
  apply keeps_bind; [|auto with frame].
  intros w Hw. now apply Hnew.
Qed.

Lemma keeps_get_page sid j : touched sid -> keeps I (get_page sid j).
Proof. intros Ht. unfold get_page. auto 12 with frame. Qed.

Lemma keeps_tab_ref sid s tid : keeps I (tab_ref sid s tid).
Proof. unfold tab_ref. auto with frame. Qed.

#[local] Hint Resolve keeps_mgr_close_session keeps_get_page keeps_tab_ref
  : frame.

Lemma keeps_mgr_create_tab sid : touched sid -> keeps I (mgr_create_tab sid).
Proof. intros Ht. unfold mgr_create_tab. auto 16 with frame. Qed.

Lemma keeps_mgr_close_tab sid j :
  touched sid -> keeps I (mgr_close_tab sid j).
Proof. intros Ht. unfold mgr_close_tab. auto 16 with frame. Qed.

Lemma keeps_mgr_activate_tab sid j :
  touched sid -> keeps I (mgr_activate_tab sid j).
Proof. intros Ht. unfold mgr_activate_tab. auto 16 with frame. Qed.

Lemma keeps_reap_tab now sid sess item :
  touched sid -> keeps I (reap_tab now sid sess item).
Proof. intros Ht. unfold reap_tab. destruct item. auto 16 with frame. Qed.

Lemma keeps_reap_sessions now items :
  (forall sid, touched sid) -> keeps I (reap_sessions now items).
Proof.
  intros Ht. pose proof keeps_reap_tab.
  induction items as [|[sid sess] r IH]; cbn [reap_sessions];
    [auto with frame|].
  unfold reap_session. auto 12 with frame.
Qed.

Lemma keeps_cleanup_idle : (forall sid, touched sid) -> keeps I _cleanup_idle.
Proof.
  intros Ht. pose proof keeps_reap_sessions.
  unfold _cleanup_idle. auto 12 with frame.
Qed.

Lemma keeps_cleanup : (forall sid, touched sid) -> keeps I cleanup.
Proof.
  intros Ht. unfold cleanup. apply keeps_bind.
  - intros w Hw. now apply (fr_same I touched HF w).
  - intros _. auto 12 with frame.
Qed.

#[local] Hint Resolve keeps_mgr_create_tab keeps_mgr_close_tab
  keeps_mgr_activate_tab : frame.

Lemma keeps_ws_navigate_body sid tab_id url :
  touched sid -> keeps I (ws_navigate_body sid tab_id url).
Proof. intros Ht. unfold ws_navigate_body. auto 16 with frame. Qed.

Lemma keeps_continue c : keeps I (continue c).
Proof. unfold continue. auto with frame. Qed.

#[local] Hint Resolve keeps_continue keeps_ws_navigate_body : frame.

Lemma keeps_ws_activate_tab sid c data :
  touched sid -> keeps I (ws_activate_tab sid c data).
Proof. intros Ht. unfold ws_activate_tab. auto 12 with frame. Qed.

Lemma keeps_ws_new_tab sid c : touched sid -> keeps I (ws_new_tab sid c).
Proof. intros Ht. unfold ws_new_tab. auto 12 with frame. Qed.

Lemma keeps_ws_close_tab sid c data :
  touched sid -> keeps I (ws_close_tab sid c data).
Proof. intros Ht. unfold ws_close_tab. auto 16 with frame. Qed.

Lemma keeps_ws_navigate sid c tab_id data :
  touched sid -> keeps I (ws_navigate sid c tab_id data).
Proof. intros Ht. unfold ws_navigate. auto 16 with frame. Qed.

Lemma keeps_ws_history_move forward sid c tab_id :
  touched sid -> keeps I (ws_history_move forward sid c tab_id).
Proof. intros Ht. unfold ws_history_move. auto 20 with frame. Qed.

Lemma keeps_ws_command sid c data :
  touched sid -> keeps I (ws_command sid c data).
Proof.
  intros Ht. unfold ws_command.
  pose proof keeps_ws_activate_tab. pose proof keeps_ws_new_tab.
  pose proof keeps_ws_close_tab. pose proof keeps_ws_navigate.
  pose proof keeps_ws_history_move.
  pose proof (fun ev data => keeps_ticks _ (ticks_ws_page_command ev data)).
  auto 20 with frame.
Qed.

Lemma keeps_page_action st sid t :
  touched sid -> keeps I (page_action st sid t).
Proof. intros Ht. unfold page_action, key_error_404. auto 12 with frame. Qed.

(** An operation addressed to a session of [touched] keeps [I]. *)
Lemma run_op_frames o sid w :
  op_session o = Some sid -> touched sid -> I w -> I (run_op o w).
Proof.
  intros Ho Ht. pose proof keeps_ws_command. pose proof keeps_page_action.
  revert w. change (keeps I (fun w => (Ret tt, run_op o w))).
  destruct o; try discriminate Ho; injection Ho as ->;
    cbn [run_op]; intros w Hw; cbn [snd];
    match goal with
    | |- I (snd (?c w)) => revert w Hw; change (keeps I c)
    end;
    unfold close_session, create_tab, close_tab,
      activate_tab, get_session_status, navigate, go_back, go_forward,
      refresh, get_screenshot, click, type_text, keypress, scroll,
      not_found_404, key_error_404, ws_open, stream_step;
    auto 24 with frame.
Qed.

End Frames.

(** *** The keys of the registry stay distinct *)

Lemma frames_wf : frames wf_registry (fun _ => True).
Proof.
  constructor; unfold wf_registry.
  - intros w w' ->. auto.
  - intros. now apply wf_set.
  - intros. now apply wf_pop.
Qed.

(** Every operation keeps the keys of the registry distinct. *)
Lemma run_op_wf o w : wf_registry w -> wf_registry (run_op o w).
Proof.
  destruct (op_session o) as [sid|] eqn:Ho.
  - now apply (run_op_frames _ _ frames_wf o sid).
  - destruct o; try discriminate Ho; cbn [run_op].
    + unfold create_session. apply keeps_try_except.
      * apply keeps_bind.
        -- apply (keeps_mgr_create_session _ _ frames_wf).
           intros. now apply wf_set.
        -- intros [a b]. apply keeps_bind; [apply keeps_gets|].
           intros [s|]; apply (keeps_ticks _ _ frames_wf);
             [apply ticks_ret | apply ticks_raise].
      * intros e. apply (keeps_ticks _ _ frames_wf), ticks_raise.
    + now apply (keeps_cleanup_idle _ _ frames_wf).
    + now apply (keeps_cleanup _ _ frames_wf).
Qed.

Lemma run_ops_wf os w : wf_registry w -> wf_registry (run_ops os w).
Proof.
  unfold run_ops. revert w.
  induction os as [|o os IH]; simpl; intros w Hw; [assumption|].
  apply IH, run_op_wf, Hw.
Qed.

(** In every state the service reaches, the registry and every tab map
    have pairwise distinct keys. *)
Lemma reachable_wf os :
  wf_registry (run_ops os init_world)
  /\ all_sessions wf_tabs (run_ops os init_world).
Proof.
  split.
  - apply run_ops_wf. constructor.
  - apply (run_ops_preserves wf_tabs stable_wf_tabs). constructor.
Qed.


(** ** Creating and activating a tab *)

(** The tab registered by [create_tab] is new-born and active. *)
Lemma mgr_create_tab_run sid w tid w' :
  mgr_create_tab sid w = (Ret tid, w') ->
  exists s t,
    Dict.get sid (sessions w') = Some s /\
    active_tab_id s = Some tid /\
    Dict.get tid (tabs s) = Some t /\
    history t = [] /\ history_index t = -1.
Proof.
  intros Hrun.
  assert (wp (mgr_create_tab sid)
            (fun r w' => forall tid, r = Ret tid ->
               exists s t,
                 Dict.get sid (sessions w') = Some s /\
                 active_tab_id s = Some tid /\
                 Dict.get tid (tabs s) = Some t /\
                 history t = [] /\ history_index t = -1) w) as H.
  { unfold mgr_create_tab. repeat wp_step; intros tid' E; try discriminate.
    injection E as <-. eexists _, _. split; [reflexivity|].
    cbn [tabs active_tab_id set_tabs set_active_tab_id set_sess_last_used].
    rewrite get_set_same. repeat split. }
  exact (wp_elim _ _ _ _ _ H Hrun tid eq_refl).
Qed.

(** [create_tab] returns whenever the session exists and the engine opens
    the page. *)
Lemma mgr_create_tab_returns sid w s :
  Dict.get sid (sessions w) = Some s ->
  engine_at O (S (tick w)) = None ->
  exists w', mgr_create_tab sid w = (Ret (uuid4_at O (tick w)), w').
Proof.
  intros Hs He. unfold mgr_create_tab, bind, get_session, gets.
  rewrite Hs. unfold uuid4, engine, bind, next_tick, ret. simpl.
  rewrite He. simpl. eauto.
Qed.

(** [activate_tab] rejects the id of a tab that the session does not hold,
    and changes nothing. *)
Lemma mgr_activate_tab_absent sid tid w s :
  Dict.get sid (sessions w) = Some s ->
  Dict.mem tid (tabs s) = false ->
  mgr_activate_tab sid (JStr tid) w = (Raise (KeyError "Tab not found"), w).
Proof.
  intros Hs Hm. unfold mgr_activate_tab, bind, get_session, gets, json_in.
  rewrite Hs. unfold ret. simpl. now rewrite Hm.
Qed.

(** [activate_tab] on a tab of the session makes it the active one. *)
Lemma mgr_activate_tab_run sid tid w s :
  Dict.get sid (sessions w) = Some s ->
  Dict.mem tid (tabs s) = true ->
  exists w' s',
    mgr_activate_tab sid (JStr tid) w = (Ret tt, w') /\
    Dict.get sid (sessions w') = Some s' /\
    active_tab_id s' = Some tid /\
    Dict.keys (tabs s') = Dict.keys (tabs s).
Proof.
  intros Hs Hm.
  assert (wp (mgr_activate_tab sid (JStr tid))
            (fun r w' => r = Ret tt /\
               exists s', Dict.get sid (sessions w') = Some s' /\
                 active_tab_id s' = Some tid /\
                 Dict.keys (tabs s') = Dict.keys (tabs s)) w) as H.
  { unfold mgr_activate_tab, json_in. repeat wp_step.
    split; [reflexivity|]. wp_simpl. eexists. split; [reflexivity|].
    cbn [tabs active_tab_id set_tabs set_active_tab_id set_sess_last_used].
    destruct (Dict.get tid (tabs s)) eqn:Ht; cbn [tabs active_tab_id set_tabs];
      split; try reflexivity.
    now apply set_keys_mem. }
  unfold wp in H. destruct (mgr_activate_tab sid (JStr tid) w) as [r w'].
  simpl in H. destruct H as (-> & s' & H). eauto.
Qed.

(** ** One step of the reaper *)

(** What one round of the inner loop of [_cleanup_idle] does to the
    registry: the tab goes when it is idle for longer than the tab TTL and
    is not alone. *)
Lemma reap_tab_run now sid sess tid t w :
  fst (reap_tab now sid sess (tid, t) w) = Ret tt /\
  sessions (snd (reap_tab now sid sess (tid, t) w))
  = match Dict.get sid (sessions w) with
    | None => sessions w
    | Some s =>
        let t' :=
          match Dict.get tid (tabs s) with Some t' => t' | None => t end in
        if total_seconds_gt now (last_used t') TAB_TTL_SECONDS
           && (1 <? Dict.len (tabs s))
        then Dict.set sid (without_tab tid s) (sessions w)
        else sessions w
    end.
Proof.
  change (wp (reap_tab now sid sess (tid, t))
            (fun r w' => r = Ret tt /\
               sessions w'
               = match Dict.get sid (sessions w) with
                 | None => sessions w
                 | Some s =>
                     let t' :=
                       match Dict.get tid (tabs s) with
                       | Some t' => t'
                       | None => t
                       end in
                     if total_seconds_gt now (last_used t') TAB_TTL_SECONDS
                        && (1 <? Dict.len (tabs s))
                     then Dict.set sid (without_tab tid s) (sessions w)
                     else sessions w
                 end) w).
  unfold reap_tab. wp_step. wp_step. wp_step. apply wp_deref_tab.
  destruct (Dict.get sid (sessions w)) as [s|] eqn:Hs; wp_simpl.
  - destruct (total_seconds_gt now
                (last_used match Dict.get tid (tabs s) with
                           | Some t' => t'
                           | None => t
                           end) TAB_TTL_SECONDS
              && (1 <? Dict.len (tabs s))) eqn:Hc; wp_simpl;
      [|wp_step; auto].
    unfold without_tab. cbn [tabs set_tabs active_tab_id].
    repeat wp_step;
      match goal with
      | H : opt_eqb _ _ = _ |- _ =>
          cbn [tabs set_tabs active_tab_id] in H; rewrite H
      end; auto.
  - repeat wp_step; auto.
Qed.

(** ** The session invariants *)

(** As long as every operation runs from start to end before the next one
    starts, a registered session owns at least one tab: each operation keeps
    the invariant, so it holds in every state reached from the empty
    registry by such runs; and [close_tab], run on its own, removes the
    session from the registry when it removes its last tab.  What other
    coroutines see and do while [close_tab] or the reaper is suspended is
    the matter of the part on suspension points. *)
Theorem undisturbed_session_owns_a_tab :
  (forall o w, all_sessions has_tab w -> all_sessions has_tab (run_op o w)) /\
  (forall os, all_sessions has_tab (run_ops os init_world)) /\
  (forall sid tid w s,
     Dict.get sid (sessions w) = Some s ->
     Dict.mem tid (tabs s) = true ->
     Dict.pop tid (tabs s) = [] ->
     exists w',
       mgr_close_tab sid (JStr tid) w = (Ret tt, w') /\
       sessions w' = Dict.pop sid (sessions w) /\
       (Dict.wf (sessions w) -> Dict.get sid (sessions w') = None)).
Proof.
  split; [|split].
  - intros o w. apply run_op_preserves, stable_has_tab.
  - intros os. apply run_ops_preserves; [apply stable_has_tab|].
    apply init_world_all.
  - intros sid tid w s Hs Hm He.
    destruct (mgr_close_tab_run sid tid w s Hs Hm) as (w' & Hrun & Hw').
    rewrite He in Hw'. simpl in Hw'.
    exists w'. repeat split; [assumption | assumption |].
    intros Hwf. rewrite Hw'. now apply get_pop_same.
Qed.

(** C4. Every operation keeps the cursor of every tab within its history,
    [-1 <= history_index < len(history)], so that the bound holds in every
    state reached from the empty registry; and the tab that [create_tab]
    registers has an empty history and the cursor [-1]. *)
Theorem cursor_within_history :
  (forall o w, all_tabs cursor_ok w -> all_tabs cursor_ok (run_op o w)) /\
  (forall os, all_tabs cursor_ok (run_ops os init_world)) /\
  (forall sid w tid w',
     mgr_create_tab sid w = (Ret tid, w') ->
     exists s t,
       Dict.get sid (sessions w') = Some s /\
       Dict.get tid (tabs s) = Some t /\
       history t = [] /\ history_index t = -1).
Proof.
  split; [|split].
  - intros o w. apply run_op_preserves, stable_cursor_ok.
  - intros os. apply run_ops_preserves; [apply stable_cursor_ok|].
    apply init_world_all.
  - intros sid w tid w' Hrun.
    destruct (mgr_create_tab_run sid w tid w' Hrun)
      as (s & t & Hs & _ & Ht & Hh & Hi).
    eauto 8.
Qed.

(** C5. Every operation keeps the invariant that the active-tab pointer of
    a session with tabs names one of its tabs.  In particular [create_tab]
    makes the new tab active, [close_tab] moves the pointer to the first
    remaining tab when it closes the active one, the reaper does the same,
    and [activate_tab] rejects the id of a tab the session does not hold,
    leaving the registry as it was. *)
Theorem active_tab_is_live :
  (forall o w, all_sessions active_ok w -> all_sessions active_ok (run_op o w)) /\
  (forall os, all_sessions active_ok (run_ops os init_world)) /\
  (forall sid w tid w',
     mgr_create_tab sid w = (Ret tid, w') ->
     exists s,
       Dict.get sid (sessions w') = Some s /\
       active_tab_id s = Some tid /\ Dict.mem tid (tabs s) = true) /\
  (forall sid tid w s,
     Dict.get sid (sessions w) = Some s ->
     Dict.mem tid (tabs s) = true ->
     active_tab_id s = Some tid ->
     Dict.pop tid (tabs s) <> [] ->
     exists w' s' k,
       mgr_close_tab sid (JStr tid) w = (Ret tt, w') /\
       Dict.get sid (sessions w') = Some s' /\
       tabs s' = Dict.pop tid (tabs s) /\
       Dict.first_key (tabs s') = Some k /\
       active_tab_id s' = Some k /\ Dict.mem k (tabs s') = true) /\
  (forall now sid sess tid t w s t0,
     Dict.get sid (sessions w) = Some s ->
     Dict.get tid (tabs s) = Some t0 ->
     active_tab_id s = Some tid ->
     total_seconds_gt now (last_used t0) TAB_TTL_SECONDS = true ->
     1 < Dict.len (tabs s) ->
     exists s' k,
       Dict.get sid (sessions (snd (reap_tab now sid sess (tid, t) w)))
         = Some s' /\
       tabs s' = Dict.pop tid (tabs s) /\
       Dict.first_key (tabs s') = Some k /\
       active_tab_id s' = Some k /\ Dict.mem k (tabs s') = true) /\
  (forall sid tid w s,
     Dict.get sid (sessions w) = Some s ->
     Dict.mem tid (tabs s) = false ->
     mgr_activate_tab sid (JStr tid) w
       = (Raise (KeyError "Tab not found"), w)).
Proof.
  split; [|split; [|split; [|split; [|split]]]].
  - intros o w. apply run_op_preserves, stable_active_ok.
  - intros os. apply run_ops_preserves; [apply stable_active_ok|].
    apply init_world_all.
  - intros sid w tid w' Hrun.
    destruct (mgr_create_tab_run sid w tid w' Hrun)
      as (s & t & Hs & Ha & Ht & _).
    exists s. repeat split; auto. apply mem_get. eauto.
  - intros sid tid w s Hs Hm Ha Hne.
    destruct (mgr_close_tab_run sid tid w s Hs Hm) as (w' & Hrun & Hw').
    destruct (Dict.is_empty (Dict.pop tid (tabs s))) eqn:He.
    { apply is_empty_nil in He. contradiction. }
    destruct (first_key_some _ Hne) as [k Hk].
    exists w'. eexists. exists k. split; [exact Hrun|].
    rewrite Hw', get_set_same. split; [reflexivity|].
    unfold without_tab. cbn [tabs set_tabs active_tab_id]. rewrite Ha.
    simpl. rewrite String.eqb_refl. simpl.
    repeat split; auto. now apply first_key_mem.
  - intros now sid sess tid t w s t0 Hs Ht Ha Hexp Hlen.
    destruct (reap_tab_run now sid sess tid t w) as [_ Hrun].
    rewrite Hs, Ht in Hrun. cbn zeta in Hrun. rewrite Hexp in Hrun.
    apply Z.ltb_lt in Hlen. rewrite Hlen in Hrun. cbn [andb] in Hrun.
    assert (Dict.pop tid (tabs s) <> []) as Hne.
    { intros Hn. pose proof (pop_length (tabs s) tid) as Hl.
      rewrite Hn in Hl. apply Z.ltb_lt in Hlen. unfold Dict.len in Hlen.
      simpl in Hl. lia. }
    destruct (first_key_some _ Hne) as [k Hk].
    eexists. exists k. rewrite Hrun, get_set_same. split; [reflexivity|].
    unfold without_tab. cbn [tabs set_tabs active_tab_id]. rewrite Ha.
    simpl. rewrite String.eqb_refl. simpl.
    repeat split; auto. now apply first_key_mem.
  - intros sid tid w s. apply mgr_activate_tab_absent.
Qed.

(** C10. When [close_tab] removes a tab that is not the active one while
    another tab remains, the call returns, the session stays registered
    with the same browsing context and the same active-tab pointer, its tab
    map is the old one without the named tab, every other tab is found
    there with the record it had, and the other sessions are untouched. *)
Theorem close_tab_frame sid tid w s :
  Dict.get sid (sessions w) = Some s ->
  Dict.mem tid (tabs s) = true ->
  active_tab_id s <> Some tid ->
  Dict.pop tid (tabs s) <> [] ->
  exists w' s',
    mgr_close_tab sid (JStr tid) w = (Ret tt, w') /\
    Dict.get sid (sessions w') = Some s' /\
    active_tab_id s' = active_tab_id s /\
    context s' = context s /\
    sess_created_at s' = sess_created_at s /\
    tabs s' = Dict.pop tid (tabs s) /\
    (forall k, k <> tid -> Dict.get k (tabs s') = Dict.get k (tabs s)) /\
    (Dict.wf (tabs s) -> Dict.get tid (tabs s') = None) /\
    (forall sid', sid' <> sid ->
       Dict.get sid' (sessions w') = Dict.get sid' (sessions w)).
Proof.
  intros Hs Hm Ha Hne.
  destruct (mgr_close_tab_run sid tid w s Hs Hm) as (w' & Hrun & Hw').
  destruct (Dict.is_empty (Dict.pop tid (tabs s))) eqn:He.
  { apply is_empty_nil in He. contradiction. }
  assert (opt_eqb (active_tab_id s) (Some tid) = false) as Hf.
  { destruct (opt_eqb (active_tab_id s) (Some tid)) eqn:E; [|reflexivity].
    apply opt_eqb_eq in E. contradiction. }
  exists w'. eexists. split; [exact Hrun|].
  rewrite Hw', get_set_same. split; [reflexivity|].
  unfold without_tab. cbn [tabs set_tabs active_tab_id]. rewrite Hf.
  cbn [tabs set_tabs active_tab_id set_sess_last_used context sess_created_at].
  repeat split.
  - intros k Hk. apply get_pop_other. congruence.
  - intros Hwf. now apply get_pop_same.
  - intros sid' Hsid. apply get_set_other. congruence.
Qed.

(** ** The reaper and the last tab *)

Lemma reap_tab_sole now sid sess item w s :
  Dict.get sid (sessions w) = Some s ->
  Dict.len (tabs s) = 1 ->
  sessions (snd (reap_tab now sid sess item w)) = sessions w.
Proof.
  intros Hs Hlen. destruct item as [tid t].
  destruct (reap_tab_run now sid sess tid t w) as [_ ->].
  rewrite Hs, Hlen. cbn zeta. now rewrite andb_false_r.
Qed.

Lemma reap_tabs_sole now sid sess items w s :
  Dict.get sid (sessions w) = Some s ->
  Dict.len (tabs s) = 1 ->
  sessions (snd (for_each items (reap_tab now sid sess) w)) = sessions w.
Proof.
  intros Hs Hlen. revert w Hs.
  induction items as [|item r IH]; intros w Hs; [reflexivity|].
  cbn [for_each]. unfold bind.
  pose proof (reap_tab_sole now sid sess item w s Hs Hlen) as H1.
  destruct (reap_tab now sid sess item w) as [[[]|e] w1]; simpl in *.
  - rewrite IH; [assumption | now rewrite H1].
  - assumption.
Qed.

(** As long as nothing else runs during a sweep, a round of the reaper's
    inner loop removes a tab only when the tab is idle for longer than the
    tab TTL and the session holds more than one tab as the round starts.
    The only tab of a session is then kept whatever the time of the sweep,
    by one round and by the whole loop over the session's tabs; and neither
    the tab phase of a session nor a whole sweep leaves a registered
    session without tabs.  The test and the removal are however apart by an
    [await]: see the part on suspension points. *)
Theorem undisturbed_reaper_keeps_sole_tab :
  (forall now sid sess tid t w,
     sessions (snd (reap_tab now sid sess (tid, t) w)) = sessions w \/
     exists s,
       Dict.get sid (sessions w) = Some s /\
       1 < Dict.len (tabs s) /\
       total_seconds_gt now
         (last_used
            (match Dict.get tid (tabs s) with Some t' => t' | None => t end))
         TAB_TTL_SECONDS = true /\
       sessions (snd (reap_tab now sid sess (tid, t) w))
         = Dict.set sid (without_tab tid s) (sessions w)) /\
  (forall now sid sess item w s,
     Dict.get sid (sessions w) = Some s ->
     Dict.len (tabs s) = 1 ->
     sessions (snd (reap_tab now sid sess item w)) = sessions w) /\
  (forall now sid sess w s,
     Dict.get sid (sessions w) = Some s ->
     Dict.len (tabs s) = 1 ->
     sessions (snd (reap_session now (sid, sess) w)) = sessions w) /\
  (forall now item w,
     all_sessions has_tab w ->
     all_sessions has_tab (snd (reap_session now item w))) /\
  (forall w,
     all_sessions has_tab w -> all_sessions has_tab (snd (_cleanup_idle w))).
Proof.
  split; [|split; [|split; [|split]]].
  - intros now sid sess tid t w.
    destruct (reap_tab_run now sid sess tid t w) as [_ Hrun].
    destruct (Dict.get sid (sessions w)) as [s|] eqn:Hs; [|now left].
    cbn zeta in Hrun.
    destruct (total_seconds_gt now
                (last_used match Dict.get tid (tabs s) with
                           | Some t' => t'
                           | None => t
                           end) TAB_TTL_SECONDS) eqn:Hexp;
      [|now left].
    destruct (1 <? Dict.len (tabs s)) eqn:Hlen; [|now left].
    right. exists s. repeat split; auto. now apply Z.ltb_lt.
  - intros now sid sess item w s. apply reap_tab_sole.
  - intros now sid sess w s Hs Hlen. unfold reap_session, deref, bind, gets.
    cbn beta iota. rewrite Hs.
    pose proof (reap_tabs_sole now sid s (tabs s) w s Hs Hlen) as H1.
    destruct (for_each (tabs s) (reap_tab now sid s) w) as [[[]|e] w1];
      simpl in *; assumption.
  - intros now item. apply preserves_reap_session, stable_has_tab.
  - apply preserves_cleanup_idle, stable_has_tab.
Qed.

(** ** Resolving a tab *)

Lemma resolve_tab_run s j w :
  snd (_resolve_tab s j w) = w /\
  forall tid t,
    fst (_resolve_tab s j w) = Ret (tid, t) -> Dict.get tid (tabs s) = Some t.
Proof.
  unfold _resolve_tab.
  destruct (negb (json_truthy (json_or j (of_opt (active_tab_id s)))));
    [split; [reflexivity | discriminate]|].
  unfold json_in, bind, ret, raise.
  destruct (json_or j (of_opt (active_tab_id s))) as [| | |k| |]; simpl;
    try (split; [reflexivity | discriminate]).
  destruct (Dict.mem k (tabs s)); simpl;
    [|split; [reflexivity | discriminate]].
  destruct (Dict.get k (tabs s)) eqn:Hk; simpl;
    [|split; [reflexivity | discriminate]].
  split; [reflexivity|]. now intros tid t0 [= <- <-].
Qed.

Lemma get_page_run sid j w s tid t :
  Dict.get sid (sessions w) = Some s ->
  fst (_resolve_tab s j w) = Ret (tid, t) ->
  get_page sid j w
  = (Ret (tid, page t),
     set_sessions
       (Dict.set sid
          (bumped s tid t (utcnow_at O (tick w)) (utcnow_at O (S (tick w))))
          (sessions w))
       (set_tick (S (S (tick w))) w)).
Proof.
  intros Hs Hr. unfold get_page, get_session, bind, gets. rewrite Hs.
  destruct (resolve_tab_run s j w) as [Hw Hget].
  specialize (Hget tid t Hr).
  destruct (_resolve_tab s j w) as [r w1]. simpl in *. subst w1 r.
  unfold _utcnow, update_session, update_tab, update_session, modify, bind,
    next_tick, ret. simpl. rewrite Hs. simpl. rewrite get_set_same. simpl.
  rewrite Hget, set_set. reflexivity.
Qed.

Lemma get_page_fails sid j w s e :
  Dict.get sid (sessions w) = Some s ->
  fst (_resolve_tab s j w) = Raise e ->
  get_page sid j w = (Raise e, w).
Proof.
  intros Hs Hr. unfold get_page, get_session, bind, gets. rewrite Hs.
  destruct (resolve_tab_run s j w) as [Hw _].
  destruct (_resolve_tab s j w) as [r w1]. simpl in *. now subst.
Qed.

Lemma lookup_tab_bumped sid tid w s t n1 n2 w0 :
  lookup_tab sid tid
    (set_sessions (Dict.set sid (bumped s tid t n1 n2) (sessions w)) w0)
  = Some (set_last_used n2 t).
Proof.
  unfold lookup_tab, bumped. simpl. rewrite get_set_same. simpl.
  apply get_set_same.
Qed.

(** ** Back and forward *)

Lemma go_back_run sid otid w s tid t :
  Dict.get sid (sessions w) = Some s ->
  fst (_resolve_tab s (of_opt otid) w) = Ret (tid, t) ->
  let n1 := utcnow_at O (tick w) in
  let n2 := utcnow_at O (S (tick w)) in
  let t1 := set_last_used n2 t in
  go_back sid otid w
  = if 0 <? history_index t then
      (match engine_at O (S (S (tick w))) with
       | None =>
           Ret (Reply "success"
                  (Some (page_url_at O (S (S (S (tick w)))))) None (Some tid))
       | Some msg => Raise (ExternalError msg)
       end,
       set_sessions
         (Dict.set sid
            (set_tabs
               (Dict.set tid (set_history_index (history_index t - 1) t1)
                  (tabs s))
               (set_sess_last_used n1 s))
            (sessions w))
         (set_tick
            (match engine_at O (S (S (tick w))) with
             | None => S (S (S (S (tick w))))
             | Some _ => S (S (S (tick w)))
             end) w))
    else
      (Ret (Reply "no_history" None None (Some tid)),
       set_sessions (Dict.set sid (bumped s tid t n1 n2) (sessions w))
         (set_tick (S (S (tick w))) w)).
Proof.
  intros Hs Hr. cbv zeta.
  match goal with
  | |- _ = ?rhs =>
      enough (wp (go_back sid otid) (fun r w' => (r, w') = rhs) w) as H
        by (unfold wp in H; now destruct (go_back sid otid w))
  end.
  unfold go_back, not_found_404, tab_ref. wp_det.
  eapply wp_run; [exact (get_page_run sid (of_opt otid) w s tid t Hs Hr)|].
  wp_fields. wp_det.
  destruct (0 <? history_index t) eqn:Hlt; wp_det; [|reflexivity].
  destruct (engine_at O (S (S (tick w)))); wp_det; reflexivity.
Qed.

Lemma go_forward_run sid otid w s tid t :
  Dict.get sid (sessions w) = Some s ->
  fst (_resolve_tab s (of_opt otid) w) = Ret (tid, t) ->
  let n1 := utcnow_at O (tick w) in
  let n2 := utcnow_at O (S (tick w)) in
  let t1 := set_last_used n2 t in
  go_forward sid otid w
  = if history_index t <? Z.of_nat (List.length (history t)) - 1 then
      (match engine_at O (S (S (tick w))) with
       | None =>
           Ret (Reply "success"
                  (Some (page_url_at O (S (S (S (tick w)))))) None (Some tid))
       | Some msg => Raise (ExternalError msg)
       end,
       set_sessions
         (Dict.set sid
            (set_tabs
               (Dict.set tid (set_history_index (history_index t + 1) t1)
                  (tabs s))
               (set_sess_last_used n1 s))
            (sessions w))
         (set_tick
            (match engine_at O (S (S (tick w))) with
             | None => S (S (S (S (tick w))))
             | Some _ => S (S (S (tick w)))
             end) w))
    else
      (Ret (Reply "no_forward_history" None None (Some tid)),
       set_sessions (Dict.set sid (bumped s tid t n1 n2) (sessions w))
         (set_tick (S (S (tick w))) w)).
Proof.
  intros Hs Hr. cbv zeta.
  match goal with
  | |- _ = ?rhs =>
      enough (wp (go_forward sid otid) (fun r w' => (r, w') = rhs) w) as H
        by (unfold wp in H; now destruct (go_forward sid otid w))
  end.
  unfold go_forward, not_found_404, tab_ref. wp_det.
  eapply wp_run; [exact (get_page_run sid (of_opt otid) w s tid t Hs Hr)|].
  wp_fields. wp_det.
  destruct (history_index t <? Z.of_nat (List.length (history t)) - 1) eqn:Hlt; wp_det; [|reflexivity].
  destruct (engine_at O (S (S (tick w)))); wp_det; reflexivity.
Qed.

(** C7. For the tab that a [back] or [forward] request resolves to: at a
    cursor [<= 0], [go_back] answers [no_history] and leaves the cursor as
    it is; at a larger cursor it sets the cursor one lower, and answers
    [success] once [page.go_back()] has returned.  At the last index
    [go_forward] answers [no_forward_history] and leaves the cursor; below
    the last index it sets the cursor one higher, and answers [success]
    once [page.go_forward()] has returned.  Neither changes the history of
    the tab. *)
Theorem back_forward_move_cursor sid otid w s tid t :
  Dict.get sid (sessions w) = Some s ->
  fst (_resolve_tab s (of_opt otid) w) = Ret (tid, t) ->
  (exists t',
     lookup_tab sid tid (snd (go_back sid otid w)) = Some t' /\
     history t' = history t /\
     (history_index t <= 0 ->
      fst (go_back sid otid w)
        = Ret (Reply "no_history" None None (Some tid)) /\
      history_index t' = history_index t) /\
     (0 < history_index t ->
      history_index t' = history_index t - 1 /\
      (engine_at O (S (S (tick w))) = None ->
       fst (go_back sid otid w)
         = Ret (Reply "success"
                  (Some (page_url_at O (S (S (S (tick w))))))
                  None (Some tid))))) /\
  (exists t',
     lookup_tab sid tid (snd (go_forward sid otid w)) = Some t' /\
     history t' = history t /\
     (Z.of_nat (List.length (history t)) - 1 <= history_index t ->
      fst (go_forward sid otid w)
        = Ret (Reply "no_forward_history" None None (Some tid)) /\
      history_index t' = history_index t) /\
     (history_index t < Z.of_nat (List.length (history t)) - 1 ->
      history_index t' = history_index t + 1 /\
      (engine_at O (S (S (tick w))) = None ->
       fst (go_forward sid otid w)
         = Ret (Reply "success"
                  (Some (page_url_at O (S (S (S (tick w))))))
                  None (Some tid))))).
Proof.
  intros Hs Hr. split.
  - pose proof (go_back_run sid otid w s tid t Hs Hr) as Hrun.
    cbv zeta in Hrun. rewrite Hrun.
    destruct (0 <? history_index t) eqn:Hlt.
    + apply Z.ltb_lt in Hlt. eexists. cbn [fst snd].
      unfold lookup_tab. cbn [sessions set_sessions].
      rewrite get_set_same. cbn [tabs set_tabs]. rewrite get_set_same.
      split; [reflexivity|]. cbn [history history_index set_history_index
        set_last_used].
      split; [reflexivity|]. split; [lia|]. intros _.
      split; [reflexivity|]. now intros ->.
    + apply Z.ltb_ge in Hlt. eexists. cbn [fst snd].
      rewrite lookup_tab_bumped. split; [reflexivity|].
      cbn [history history_index set_last_used].
      split; [reflexivity|]. split; [auto | lia].
  - pose proof (go_forward_run sid otid w s tid t Hs Hr) as Hrun.
    cbv zeta in Hrun. rewrite Hrun.
    destruct (history_index t <? Z.of_nat (List.length (history t)) - 1)
      eqn:Hlt.
    + apply Z.ltb_lt in Hlt. eexists. cbn [fst snd].
      unfold lookup_tab. cbn [sessions set_sessions].
      rewrite get_set_same. cbn [tabs set_tabs]. rewrite get_set_same.
      split; [reflexivity|]. cbn [history history_index set_history_index
        set_last_used].
      split; [reflexivity|]. split; [lia|]. intros _.
      split; [reflexivity|]. now intros ->.
    + apply Z.ltb_ge in Hlt. eexists. cbn [fst snd].
      rewrite lookup_tab_bumped. split; [reflexivity|].
      cbn [history history_index set_last_used].
      split; [reflexivity|]. split; [auto | lia].
Qed.

(** ** Navigation and the history *)

Lemma slice_to_firstn {A} (l : list A) (n : Z) :
  0 <= n -> slice_to l n = firstn (Z.to_nat n) l.
Proof.
  intros Hn. unfold slice_to.
  destruct (n <? 0) eqn:E; [apply Z.ltb_lt in E; lia | reflexivity].
Qed.

Lemma history_push u t :
  history (push_history u t)
  = (slice_to (history t) (history_index t + 1) ++ [u])%list.
Proof. reflexivity. Qed.

Lemma history_index_push u t :
  history_index (push_history u t)
  = Z.of_nat (List.length (history (push_history u t))) - 1.
Proof. reflexivity. Qed.

Lemma push_history_recorded u t :
  -1 <= history_index t -> recorded t u (push_history u t).
Proof.
  intros Hc. unfold recorded, push_history.
  cbn [history history_index set_history set_history_index].
  rewrite slice_to_firstn by lia. split; reflexivity.
Qed.

(** [k] recordings in a row on a new tab leave [k] entries and the cursor
    [k - 1]. *)
Lemma push_history_many urls pg c u :
  let t := fold_left (fun t url => push_history url t) urls (fresh_tab pg c u) in
  history t = urls /\
  history_index t = Z.of_nat (List.length urls) - 1.
Proof.
  cbv zeta.
  induction urls as [|url urls IH] using rev_ind; [split; reflexivity|].
  rewrite fold_left_app. cbn [fold_left].
  destruct IH as [Hh Hi].
  rewrite history_index_push, history_push, Hh, Hi, slice_to_firstn by lia.
  replace (Z.to_nat (Z.of_nat (List.length urls) - 1 + 1))
    with (List.length urls) by lia.
  rewrite firstn_all. split; reflexivity.
Qed.

(** X15. When the request handler [navigate] answers for a URL that is not
    internal, or for the internal search page, it has recorded the visit
    on the resolved tab: the history is cut after the cursor, one URL is
    appended (the URL of the request for the internal search page, the
    URL the engine reports otherwise) and the cursor is the last index. *)
Theorem navigate_records sid url otid w s tid t resp w' :
  Dict.get sid (sessions w) = Some s ->
  fst (_resolve_tab s (of_opt otid) w) = Ret (tid, t) ->
  -1 <= history_index t ->
  _is_internal url = false \/
    (exists q, _parse_internal_search url = Ret (Some q)) ->
  navigate sid url otid w = (Ret resp, w') ->
  exists t' u,
    lookup_tab sid tid w' = Some t' /\
    recorded t u t' /\
    if _is_internal url then u = url else exists n, u = page_url_at O n.
Proof.
  intros Hs Hr Hc Hurl Hrun.
  assert (wp (navigate sid url otid)
            (fun r w' => forall resp, r = Ret resp ->
               exists t' u,
                 lookup_tab sid tid w' = Some t' /\
                 recorded t u t' /\
                 if _is_internal url then u = url
                 else exists n, u = page_url_at O n) w) as H.
  { unfold navigate, tab_ref. wp_det.
    eapply wp_run; [exact (get_page_run sid (of_opt otid) w s tid t Hs Hr)|].
    wp_fields. wp_det.
    destruct (_is_internal url) eqn:Hi.
    - destruct Hurl as [Hf|[q Hq]]; [discriminate|]. rewrite Hq.
      unfold lift. wp_det.
      apply wp_ticks; [auto with ticks|]. intros [html|e] n; wp_fields;
        [|repeat wp_step; intros ? E; discriminate].
      repeat wp_step; wp_fields; intros resp' E; try discriminate.
      eexists _, url. unfold lookup_tab. wp_fields.
      split; [reflexivity|]. split; [|reflexivity].
      unfold recorded, push_history. wp_fields.
      rewrite slice_to_firstn by lia. split; reflexivity.
    - repeat wp_step; wp_fields; intros resp' E; try discriminate.
      + eexists _, _. unfold lookup_tab. wp_fields.
        split; [reflexivity|]. split; [|eauto].
        unfold recorded, push_history. wp_fields.
        rewrite slice_to_firstn by lia. split; reflexivity.
      + eexists _, _. unfold lookup_tab. wp_fields.
        split; [reflexivity|]. split; [|eauto].
        unfold recorded, push_history. wp_fields.
        rewrite slice_to_firstn by lia. split; reflexivity. }
  exact (wp_elim _ _ _ _ _ H Hrun resp eq_refl).
Qed.

(** The request handler [navigate] answers for any other internal page
    without recording it. *)
Lemma navigate_internal_page_unrecorded sid url otid w s tid t :
  Dict.get sid (sessions w) = Some s ->
  fst (_resolve_tab s (of_opt otid) w) = Ret (tid, t) ->
  _is_internal url = true ->
  _parse_internal_search url = Ret None ->
  engine_at O (S (S (tick w))) = None ->
  exists w',
    navigate sid url otid w
    = (Ret (Reply "navigated" (Some url) (Some "Internal page") (Some tid)),
       w') /\
    lookup_tab sid tid w' = Some (set_last_used (utcnow_at O (S (tick w))) t).
Proof.
  intros Hs Hr Hi Hq He.
  assert (wp (navigate sid url otid)
            (fun r w' =>
               r = Ret (Reply "navigated" (Some url) (Some "Internal page")
                          (Some tid)) /\
               lookup_tab sid tid w'
               = Some (set_last_used (utcnow_at O (S (tick w))) t)) w) as H.
  { unfold navigate, tab_ref. wp_det.
    eapply wp_run; [exact (get_page_run sid (of_opt otid) w s tid t Hs Hr)|].
    wp_fields. wp_det. rewrite Hi, Hq. wp_det. rewrite He. wp_det.
    split; [reflexivity|]. unfold lookup_tab. now wp_fields. }
  unfold wp in H. destruct (navigate sid url otid w) as [r w'].
  simpl in H. destruct H as [-> H]. eauto.
Qed.

(** The body of the streaming [navigate] command, as a weakest
    precondition: a normal return has recorded the visit on the tab. *)
Lemma ws_navigate_body_wp sid tid url w s t :
  Dict.get sid (sessions w) = Some s ->
  Dict.get tid (tabs s) = Some t ->
  -1 <= history_index t ->
  wp (ws_navigate_body sid (JStr tid) (JStr url))
     (fun r w' => r = Ret tt ->
        exists t' u,
          lookup_tab sid tid w' = Some t' /\
          recorded t u t' /\
          if _is_internal url then u = url
          else exists n, u = page_url_at O n) w.
Proof.
  intros Hs Ht Hc.
  unfold ws_navigate_body, json_in. apply wp_bind, wp_ticks.
  { destruct (_is_internal url); auto 12 with ticks. }
  intros [[]|e] n; wp_fields; [|discriminate].
  assert (Dict.mem tid (tabs s) = true) as Hm by (apply mem_get; eauto).
  wp_det.
  destruct (_is_internal url) eqn:Hi; wp_det; intros _;
    eexists _, _; unfold lookup_tab; wp_fields;
    (split; [reflexivity|]); (split; [|eauto]);
    unfold recorded, push_history; wp_fields;
    rewrite slice_to_firstn by lia; split; reflexivity.
Qed.

(** X16. When the body of the streaming [navigate] command returns, it has
    recorded the visit on the tab, for every kind of URL (internal search,
    any other internal page, or a web page): the history is cut after the
    cursor, one URL is appended (the URL of the command for an internal
    page, the URL the engine reports otherwise) and the cursor is the last
    index. *)
Theorem ws_navigate_records sid tid url w s t w' :
  Dict.get sid (sessions w) = Some s ->
  Dict.get tid (tabs s) = Some t ->
  -1 <= history_index t ->
  ws_navigate_body sid (JStr tid) (JStr url) w = (Ret tt, w') ->
  exists t' u,
    lookup_tab sid tid w' = Some t' /\
    recorded t u t' /\
    if _is_internal url then u = url else exists n, u = page_url_at O n.
Proof.
  intros Hs Ht Hc Hrun.
  pose proof (ws_navigate_body_wp sid tid url w s t Hs Ht Hc) as H.
  exact (wp_elim _ _ _ _ _ H Hrun eq_refl).
Qed.

(** ** The search page when the API fails *)

Lemma prefix_app x post : String.prefix x (x ++ post) = true.
Proof.
  induction x as [|c x IH]; simpl; [now destruct post|].
  destruct (ascii_dec c c); [exact IH | contradiction].
Qed.

Lemma contains_prefix x s : String.prefix x s = true -> contains x s = true.
Proof. intros H. destruct s; cbn [contains]; now rewrite H. Qed.

Lemma contains_app pre x post : contains x (pre ++ x ++ post) = true.
Proof.
  induction pre as [|c pre IH].
  - cbn [append]. apply contains_prefix, prefix_app.
  - cbn [append contains]. rewrite IH. apply orb_true_r.
Qed.

Lemma append_assoc (a b c : string) : ((a ++ b) ++ c = a ++ (b ++ c))%string.
Proof. induction a as [|x a IH]; simpl; [reflexivity | now rewrite IH]. Qed.

(** [esc] leaves the address of the web search as it is and works on the
    query alone. *)
Lemma esc_google_url q :
  esc ("https://www.google.com/search?q=" ++ q)
  = "https://www.google.com/search?q=" ++ esc q.
Proof. reflexivity. Qed.

(** The text of the fallback page. *)
Lemma fallback_page_text q :
  fallback_page q
  = fallback_head ++ nl
    ++ "    <a href=\" ++ dq ++ "https://www.google.com/search?q="
    ++ esc q ++ "\" ++ dq ++ " target=\" ++ dq ++ "_blank\" ++ dq
    ++ ">Open Google search</a>" ++ nl ++ fallback_tail.
Proof.
  unfold fallback_page, search_link. cbv zeta. rewrite esc_google_url.
  rewrite !append_assoc. reflexivity.
Qed.

Lemma google_cse_search_down q w :
  cse_down -> exists e, fst (_google_cse_search q w) = Raise e.
Proof.
  unfold _google_cse_search. intros [Hc|Hx].
  - rewrite Hc. simpl. eauto.
  - destruct (truthy (environ O "GOOGLE_CSE_API_KEY")
              && truthy (environ O "GOOGLE_CSE_CX"))%bool; [|simpl; eauto].
    unfold bind, next_tick. simpl.
    destruct (Hx (tick w)) as [e ->]. simpl. eauto.
Qed.

(** Whatever makes the search fail, the renderer returns the fallback
    page. *)
Lemma render_down q w :
  cse_down ->
  fst (_render_search_results_html q w) = Ret (fallback_page (strip q)).
Proof.
  intros Hd. unfold _render_search_results_html.
  destruct (google_cse_search_down (strip q) w Hd) as [e He].
  unfold bind at 1, try_except, bind at 1.
  destruct (_google_cse_search (strip q) w) as [r w1]. simpl in He.
  subst r. reflexivity.
Qed.

Lemma wp_render_down q (Q : outcome string -> world -> Prop) w :
  cse_down ->
  (forall n, Q (Ret (fallback_page (strip q))) (set_tick n w)) ->
  wp (_render_search_results_html q) Q w.
Proof.
  intros Hd H. unfold wp. rewrite (render_down q w Hd).
  destruct (ticks_render_search_results_html q w) as [n ->]. apply H.
Qed.

(** The navigation to the search page survives a failure of the search
    API.  For a URL of the internal search page with a query, when the API
    is out of reach (a credential is missing, or the HTTP exchange raises
    whenever it is tried), the renderer raises nothing and returns the
    static fallback page; and the navigation, by request or over the
    streaming connection, answers as navigated as long as the engine takes
    the page.  The fallback page is its fixed head and tail around one
    anchor, whose [href] is written between backslash-quote pairs and
    holds the address of the web search followed by the query, stripped
    and passed through [esc] only. *)
Theorem search_survives_api_failure sid url otid q w s tid t :
  cse_down ->
  (forall n, engine_at O n = None) ->
  Dict.get sid (sessions w) = Some s ->
  fst (_resolve_tab s (of_opt otid) w) = Ret (tid, t) ->
  _is_internal url = true ->
  _parse_internal_search url = Ret (Some q) ->
  (forall w0,
     fst (_render_search_results_html q w0) = Ret (fallback_page (strip q))) /\
  fallback_page (strip q)
  = fallback_head ++ nl
    ++ "    <a href=\" ++ dq ++ "https://www.google.com/search?q="
    ++ esc (strip q) ++ "\" ++ dq ++ " target=\" ++ dq ++ "_blank\" ++ dq
    ++ ">Open Google search</a>" ++ nl ++ fallback_tail /\
  (exists w',
     navigate sid url otid w
     = (Ret (Reply "navigated" (Some url) (Some ("Search: " ++ q)) (Some tid)),
        w')) /\
  (exists w', ws_navigate_body sid (JStr tid) (JStr url) w = (Ret tt, w')).
Proof.
  intros Hd He Hs Hr Hi Hq. split; [|split; [|split]].
  - intros w0. now apply render_down.
  - apply fallback_page_text.
  - assert (wp (navigate sid url otid)
              (fun r _ =>
                 r = Ret (Reply "navigated" (Some url)
                            (Some ("Search: " ++ q)) (Some tid))) w) as H.
    { unfold navigate, tab_ref. wp_det.
      eapply wp_run; [exact (get_page_run sid (of_opt otid) w s tid t Hs Hr)|].
      wp_fields. wp_det. rewrite Hi, Hq. wp_det.
      apply wp_render_down; [assumption|]. intros n. wp_fields.
      wp_det. rewrite He. wp_det. rewrite He. wp_det. reflexivity. }
    unfold wp in H. destruct (navigate sid url otid w) as [r w'].
    simpl in H. subst r. eauto.
  - assert (wp (ws_navigate_body sid (JStr tid) (JStr url))
              (fun r _ => r = Ret tt) w) as H.
    { unfold ws_navigate_body, json_in. rewrite Hi, Hq. wp_det.
      apply wp_render_down; [assumption|]. intros n. wp_fields.
      wp_det. rewrite He. wp_det. rewrite He. wp_det.
      destruct (Dict.mem tid (tabs s)); wp_det; reflexivity. }
    unfold wp in H. destruct (ws_navigate_body sid (JStr tid) (JStr url) w)
      as [r w'].
    simpl in H. subst r. eauto.
Qed.

(** ** State notifications *)

Lemma states_of_app a b : states_of (a ++ b) = (states_of a ++ states_of b)%list.
Proof.
  induction a as [|[m f] a IH]; simpl; [reflexivity|].
  destruct m; simpl; now rewrite IH.
Qed.

Lemma last_of_snoc l x : last_of (l ++ [x]) = Some x.
Proof. unfold last_of. now rewrite rev_app_distr. Qed.

Lemma no_repeat_snoc l x :
  no_repeat l -> last_of l <> Some x -> no_repeat (l ++ [x]).
Proof.
  induction l as [|a l IH]; [simpl; auto|].
  intros Hn Hl. destruct l as [|b l].
  - simpl. split; [|exact I]. intros ->. now apply Hl.
  - destruct Hn as [Hab Hn].
    change (a <> b /\ no_repeat ((b :: l) ++ [x])). split; [assumption|].
    apply IH; [assumption|].
    intros H. apply Hl. unfold last_of in *. simpl in *.
    destruct (rev l ++ [b])%list eqn:E; simpl in *.
    + now destruct (rev l).
    + assumption.
Qed.

Lemma state_payload_state st ts tab ex f :
  states_of [(state_payload st ts tab ex, f)] = [st].
Proof. destruct ex as [[]|]; reflexivity. Qed.

(** A request for the state sent last hands nothing to the socket and
    changes nothing. *)
Lemma send_state_same st ex c w :
  last_sent_state c = Some st -> send_state st ex c w = (Ret c, w).
Proof.
  intros H. unfold send_state. rewrite H. simpl.
  now rewrite String.eqb_refl.
Qed.

(** Any other request hands exactly one notification to the socket, which
    carries the requested state, and remembers that state. *)
Lemma send_state_other st ex c w :
  last_sent_state c <> Some st ->
  exists m f w',
    send_state st ex c w = (Ret (add_out (m, f) (set_last_sent_state (Some st) c)), w') /\
    states_of [(m, f)] = [st] /\
    f = match socket_at O (S (tick w)) with None => true | Some _ => false end /\
    tick w' = S (S (tick w)).
Proof.
  intros H. unfold send_state.
  destruct (opt_eqb (Some st) (last_sent_state c)) eqn:E.
  { apply opt_eqb_eq in E. congruence. }
  unfold bind, _utcnow, send_json, bind, next_tick, ret. simpl.
  destruct (socket_at O (S (tick w))); simpl;
    eexists _, _, _; (split; [reflexivity|]);
    (split; [destruct ex as [[]|]; reflexivity | auto]).
Qed.

Lemma send_state_deduplicated st ex c w :
  deduplicated c -> deduplicated (match fst (send_state st ex c w) with
                                  | Ret c' => c'
                                  | Raise _ => c
                                  end).
Proof.
  intros [Hl Hn].
  destruct (opt_eqb (last_sent_state c) (Some st)) eqn:E.
  - apply opt_eqb_eq in E. rewrite (send_state_same st ex c w E).
    now split.
  - assert (last_sent_state c <> Some st) as Hne.
    { intros H. apply opt_eqb_eq in H. congruence. }
    destruct (send_state_other st ex c w Hne) as (m & f & w' & -> & Hm & _).
    unfold deduplicated. cbn [fst last_sent_state outbox add_out
      set_last_sent_state].
    rewrite states_of_app, Hm. split.
    + now rewrite last_of_snoc.
    + apply no_repeat_snoc; [assumption | congruence].
Qed.

(** *** Every sender of the connection goes through [send_state] *)

Lemma wp_any {A} (c : M A) (Q : outcome A -> world -> Prop) w :
  (forall r w', Q r w') -> wp c Q w.
Proof. unfold wp. auto. Qed.

Lemma wp_send_state_dd st ex c (Q : outcome conn -> world -> Prop) w :
  deduplicated c ->
  (forall c' w', deduplicated c' -> Q (Ret c') w') ->
  wp (send_state st ex c) Q w.
Proof.
  intros Hc H. unfold wp.
  pose proof (send_state_deduplicated st ex c w Hc) as Hd.
  destruct (opt_eqb (last_sent_state c) (Some st)) eqn:E.
  - apply opt_eqb_eq in E. rewrite (send_state_same st ex c w E) in *.
    now apply H.
  - assert (last_sent_state c <> Some st) as Hne.
    { intros Hx. apply opt_eqb_eq in Hx. congruence. }
    destruct (send_state_other st ex c w Hne) as (m & f & w' & Hrun & _).
    rewrite Hrun in *. now apply H.
Qed.

Lemma wp_send_json_dd msg c (Q : outcome (conn * option exn) -> world -> Prop)
    w :
  deduplicated c ->
  (forall f, states_of [(msg, f)] = []) ->
  (forall c' e w', deduplicated c' -> Q (Ret (c', e)) w') ->
  wp (send_json msg c) Q w.
Proof.
  intros [Hl Hn] Hm H. unfold wp, send_json, bind, next_tick, ret. simpl.
  destruct (socket_at O (tick w)); simpl; apply H; unfold deduplicated;
    cbn [last_sent_state outbox add_out]; rewrite states_of_app, Hm,
    app_nil_r; now split.
Qed.

Lemma deduplicated_active a c :
  deduplicated c -> deduplicated (set_conn_active_tab_id a c).
Proof. exact (fun H => H). Qed.

Lemma deduplicated_navigating b c :
  deduplicated c -> deduplicated (set_is_navigating b c).
Proof. exact (fun H => H). Qed.

Lemma deduplicated_new st a nav : deduplicated (mkConn st a nav None []).
Proof. split; [reflexivity | exact I]. Qed.

#[local] Hint Resolve deduplicated_active deduplicated_navigating
  deduplicated_new : core.

Ltac dd_step :=
  lazymatch goal with
  | |- wp (bind _ _) _ _ => apply wp_bind
  | |- wp (ret _) _ _ => apply wp_ret
  | |- wp (continue _) _ _ => apply wp_ret
  | |- wp (raise _) _ _ => apply wp_raise
  | |- wp (attempt _) _ _ => apply wp_attempt
  | |- wp _utcnow _ _ => apply wp_utcnow
  | |- wp (get_session _) _ _ => apply wp_get_session
  | |- wp (json_get (JDict _) _) _ _ => apply wp_ret
  | |- wp (send_state _ _ _) _ _ =>
      apply wp_send_state_dd; [solve [auto] | intros ? ? ?]
  | |- wp (send_json _ _) _ _ =>
      apply wp_send_json_dd; [solve [auto] | reflexivity | intros ? ? ? ?]
  | |- wp (send_then _ _ _) _ _ => unfold send_then
  | |- wp (match ?x with _ => _ end) _ _ => destruct x
  | |- wp (let (_, _) := ?x in _) _ _ => destruct x
  | |- wp _ _ _ => apply wp_any; intros [?|?] ?
  end; cbn beta iota; cbn [fst snd].

Ltac dd_start data := destruct data; cbn [json_get].

Lemma stream_step_dd sid c w :
  deduplicated c -> wp (stream_step sid c) dd_conn w.
Proof.
  intros Hc. unfold stream_step, dd_conn. repeat dd_step; auto.
Qed.

Lemma ws_command_dd sid c data w :
  deduplicated c -> wp (ws_command sid c data) dd_result w.
Proof.
  intros Hc.
  unfold ws_command, ws_activate_tab, ws_new_tab, ws_close_tab, ws_navigate,
    ws_history_move, dd_result.
  dd_start data; repeat dd_step; cbn [conn_of]; auto.
Qed.

Lemma ws_open_dd sid w :
  wp (ws_open sid)
    (fun r _ => match r with Ret (Some c) => deduplicated c | _ => True end) w.
Proof.
  unfold ws_open. repeat dd_step; auto.
Qed.

Lemma ws_run_dd sid evs c w :
  deduplicated c -> wp (ws_run sid evs c) dd_conn w.
Proof.
  revert c w. induction evs as [|ev evs IH]; intros c w Hc.
  - exact Hc.
  - destruct ev as [data|]; cbn [ws_run]; apply wp_bind.
    + eapply wp_mono; [apply ws_command_dd, Hc|].
      intros [[c'|c' e]|e] w'; unfold dd_result; cbn [conn_of];
        [apply IH | auto | auto].
    + eapply wp_mono; [apply stream_step_dd, Hc|].
      intros [c'|e] w'; unfold dd_conn; [apply IH | auto].
Qed.

Lemma send_states_dd reqs c w :
  deduplicated c -> wp (send_states reqs c) dd_conn w.
Proof.
  revert c w. induction reqs as [|[st ex] reqs IH]; intros c w Hc.
  - exact Hc.
  - cbn [send_states]. apply wp_bind, wp_send_state_dd; [assumption|].
    intros c' w' Hc'. now apply IH.
Qed.

(** *** What was delivered *)

Lemma no_repeat_prefix x y : no_repeat (x ++ y) -> no_repeat x.
Proof.
  induction x as [|a x IH]; [simpl; auto|].
  destruct x as [|b x]; [simpl; auto|].
  intros [Hab H]. split; [assumption | now apply IH].
Qed.

Lemma delivered_sorted (a b : list (message * bool)) :
  Forall (fun e => snd e = true) a ->
  Forall (fun e => snd e = false) b ->
  delivered (a ++ b) = a.
Proof.
  unfold delivered. intros Ha Hb. rewrite filter_app.
  replace (filter snd b) with (@nil (message * bool)).
  - rewrite app_nil_r. induction Ha as [|e a He Ha IH]; simpl;
      [reflexivity|]. now rewrite He, IH.
  - induction Hb as [|e b He Hb IH]; simpl; [reflexivity|]. now rewrite He.
Qed.

Lemma closing_delivered c w :
  closing c w -> no_repeat (states_of (outbox c)) ->
  no_repeat (states_of (delivered (outbox c))).
Proof.
  intros (a & b & Hout & Ha & Hb & _) Hn. rewrite Hout in *.
  rewrite (delivered_sorted a b Ha Hb).
  rewrite states_of_app in Hn. eapply no_repeat_prefix, Hn.
Qed.

Lemma send_state_returns st ex c w :
  exists c' w', send_state st ex c w = (Ret c', w').
Proof.
  destruct (opt_eqb (last_sent_state c) (Some st)) eqn:E.
  - apply opt_eqb_eq in E. rewrite (send_state_same st ex c w E). eauto.
  - assert (last_sent_state c <> Some st) as Hne.
    { intros H. apply opt_eqb_eq in H. congruence. }
    destruct (send_state_other st ex c w Hne) as (m & f & w' & -> & _). eauto.
Qed.

Lemma send_states_returns reqs c w :
  exists c' w', send_states reqs c w = (Ret c', w').
Proof.
  revert c w. induction reqs as [|[st ex] reqs IH]; intros c w.
  - simpl. unfold ret. eauto.
  - cbn [send_states]. unfold bind.
    destruct (send_state_returns st ex c w) as (c1 & w1 & ->). apply IH.
Qed.

Lemma send_state_closing st ex c w c' w' :
  socket_stays_closed ->
  send_state st ex c w = (Ret c', w') ->
  closing c w -> closing c' w'.
Proof.
  intros Hsock Hrun Hc.
  destruct (opt_eqb (last_sent_state c) (Some st)) eqn:E.
  - apply opt_eqb_eq in E. rewrite (send_state_same st ex c w E) in Hrun.
    now injection Hrun as <- <-.
  - assert (last_sent_state c <> Some st) as Hne.
    { intros H. apply opt_eqb_eq in H. congruence. }
    destruct (send_state_other st ex c w Hne)
      as (m & f & w1 & Hrun1 & _ & Hf & Ht).
    rewrite Hrun1 in Hrun. injection Hrun as <- <-.
    destruct Hc as (a & b & Hout & Ha & Hb & Hdead).
    unfold closing. cbn [outbox add_out set_last_sent_state]. rewrite Ht.
    destruct b as [|e0 b].
    + rewrite app_nil_r in Hout. subst a.
      destruct (socket_at O (S (tick w))) eqn:Es; subst f.
      * exists (outbox c), [(m, false)].
        split; [reflexivity|]. split; [assumption|].
        split; [repeat constructor|].
        intros _ k Hk. apply (Hsock (S (tick w)) k); [lia | congruence].
      * exists (outbox c ++ [(m, true)])%list, []. rewrite app_nil_r.
        split; [reflexivity|].
        split; [apply Forall_app; split; [assumption | repeat constructor]|].
        split; [constructor | congruence].
    + assert (f = false) as ->.
      { subst f. destruct (socket_at O (S (tick w))) eqn:Es; [reflexivity|].
        exfalso. apply (Hdead ltac:(discriminate) (S (tick w))); [lia|].
        assumption. }
      exists a, ((e0 :: b) ++ [(m, false)])%list. rewrite Hout, app_assoc.
      split; [reflexivity|]. split; [assumption|].
      split; [apply Forall_app; split; [assumption | repeat constructor]|].
      intros _ k Hk. apply Hdead; [discriminate | lia].
Qed.

Lemma send_states_closing reqs c w c' w' :
  socket_stays_closed ->
  send_states reqs c w = (Ret c', w') ->
  closing c w -> closing c' w'.
Proof.
  intros Hsock. revert c w.
  induction reqs as [|[st ex] reqs IH]; intros c w Hrun Hc.
  - injection Hrun as <- <-. exact Hc.
  - cbn [send_states] in Hrun. unfold bind in Hrun.
    destruct (send_state_returns st ex c w) as (c1 & w1 & H1).
    rewrite H1 in Hrun. eapply IH; [exact Hrun|].
    eapply send_state_closing; eauto.
Qed.

Lemma closing_new st a nav w : closing (mkConn st a nav None []) w.
Proof.
  exists [], []. repeat split; auto.
Qed.

(** C9. The sender of state notifications deduplicates.  A request whose
    state is the one sent last hands nothing to the socket and changes
    nothing.  Hence, whatever requests are made on a connection, no two
    consecutive state notifications handed to the socket carry the same
    state; this holds of every connection that [websocket_endpoint] opens
    and runs, whatever it receives and however its frame pump is
    scheduled, state notifications being sent by [send_state] only; and,
    a socket that has raised raising ever after, it holds of the
    notifications whose send returned as well. *)
Theorem state_notifications_deduplicated :
  (forall st ex c w,
     last_sent_state c = Some st -> send_state st ex c w = (Ret c, w)) /\
  (forall reqs c w,
     deduplicated c ->
     exists c' w',
       send_states reqs c w = (Ret c', w') /\
       no_repeat (states_of (outbox c'))) /\
  (forall sid evs w c w1,
     ws_open sid w = (Ret (Some c), w1) ->
     exists c' w',
       ws_run sid evs c w1 = (Ret c', w') /\
       no_repeat (states_of (outbox c'))) /\
  (socket_stays_closed ->
   forall reqs st a nav w c' w',
     send_states reqs (mkConn st a nav None []) w = (Ret c', w') ->
     no_repeat (states_of (delivered (outbox c')))).
Proof.
  split; [|split; [|split]].
  - intros st ex c w. apply send_state_same.
  - intros reqs c w Hc.
    destruct (send_states_returns reqs c w) as (c' & w' & Hrun).
    exists c', w'. split; [assumption|].
    pose proof (send_states_dd reqs c w Hc) as H.
    unfold wp in H. rewrite Hrun in H. exact (proj2 H).
  - intros sid evs w c w1 Hopen.
    pose proof (ws_open_dd sid w) as H0. unfold wp in H0.
    rewrite Hopen in H0. cbn [fst] in H0.
    pose proof (ws_run_dd sid evs c w1 H0) as H.
    unfold wp, dd_conn in H.
    destruct (ws_run sid evs c w1) as [[c'|e] w']; [|contradiction].
    exists c', w'. split; [reflexivity | exact (proj2 H)].
  - intros Hsock reqs st a nav w c' w' Hrun.
    eapply closing_delivered.
    + eapply send_states_closing; [assumption | exact Hrun |].
      apply closing_new.
    + pose proof (send_states_dd reqs _ w (deduplicated_new st a nav)) as H.
      unfold wp in H. rewrite Hrun in H. exact (proj2 H).
Qed.

(** * Further properties of the code *)

(** ** Sessions do not interfere *)

Lemma get_pop_none {V} k k' (d : Dict.t V) :
  Dict.get k d = None -> Dict.get k (Dict.pop k' d) = None.
Proof.
  induction d as [|[k0 v0] d IH]; simpl; [reflexivity|].
  destruct (String.eqb_spec k k0) as [->|Hk]; [discriminate|].
  intros H. destruct (String.eqb k' k0); [assumption|].
  simpl. destruct (String.eqb_spec k k0); [contradiction | auto].
Qed.

(** X1. An operation addressed to one session (a request handler, the
    opening of a streaming connection, a round of its command loop or of
    its frame pump) leaves every other session of the registry exactly as
    it was: same record, or still absent. *)
Theorem sessions_are_isolated o sid sid' w :
  op_session o = Some sid -> sid' <> sid ->
  Dict.get sid' (sessions (run_op o w)) = Dict.get sid' (sessions w).
Proof.
  intros Ho Hne.
  apply (run_op_frames
           (fun w0 => Dict.get sid' (sessions w0) = Dict.get sid' (sessions w))
           (fun x => x <> sid')) with (sid := sid); auto.
  constructor.
  - intros w0 w1 ->. auto.
  - intros x s' w0 s Hx Hw _. cbn [sessions set_sessions].
    now rewrite get_set_other.
  - intros x w0 Hx Hw. cbn [sessions set_sessions].
    now rewrite get_pop_other.
Qed.

(** X2. No operation other than [create_session] registers a session: an
    identifier that is not in the registry (never issued, or closed) is
    still not in it after any request, any reaper sweep, shutdown, and any
    step of a streaming connection. *)
Theorem closed_sessions_stay_closed o sid w :
  o <> OpCreateSession ->
  Dict.get sid (sessions w) = None ->
  Dict.get sid (sessions (run_op o w)) = None.
Proof.
  intros Ho.
  assert (frames (fun w0 => Dict.get sid (sessions w0) = None)
                 (fun _ => True)) as HF.
  { constructor.
    - intros w0 w1 ->. auto.
    - intros x s' w0 s _ Hw Hx. cbn [sessions set_sessions].
      rewrite get_set_other; [assumption|]. intros ->. congruence.
    - intros x w0 _ Hw. cbn [sessions set_sessions].
      now apply get_pop_none. }
  destruct (op_session o) as [x|] eqn:Hx.
  - now apply (run_op_frames _ _ HF o x).
  - destruct o; try discriminate Hx; try contradiction; cbn [run_op].
    + now apply (keeps_cleanup_idle _ _ HF).
    + now apply (keeps_cleanup _ _ HF).
Qed.

(** ** A sweep of the idle reaper *)

Lemma set_get_same {V} k v (d : Dict.t V) :
  Dict.get k d = Some v -> Dict.set k v d = d.
Proof.
  induction d as [|[k' v'] d IH]; simpl; [discriminate|].
  destruct (String.eqb_spec k k') as [->|Hne].
  - now intros [= ->].
  - intros H. now rewrite IH.
Qed.

Lemma get_app_notin {V} k (a b : Dict.t V) :
  ~ In k (Dict.keys a) -> Dict.get k (a ++ b)%list = Dict.get k b.
Proof.
  induction a as [|[k' v'] a IH]; simpl; [reflexivity|].
  intros H. destruct (String.eqb_spec k k') as [->|Hne].
  - exfalso. apply H. now left.
  - apply IH. intros Hin. apply H. now right.
Qed.

Lemma pop_app_notin {V} k (a b : Dict.t V) :
  ~ In k (Dict.keys a) -> Dict.pop k (a ++ b)%list = (a ++ Dict.pop k b)%list.
Proof.
  induction a as [|[k' v'] a IH]; simpl; [reflexivity|].
  intros H. destruct (String.eqb_spec k k') as [->|Hne].
  - exfalso. apply H. now left.
  - rewrite IH; [reflexivity|]. intros Hin. apply H. now right.
Qed.

Lemma set_app_notin {V} k v (a b : Dict.t V) :
  ~ In k (Dict.keys a) ->
  Dict.set k v (a ++ b)%list = (a ++ Dict.set k v b)%list.
Proof.
  induction a as [|[k' v'] a IH]; simpl; [reflexivity|].
  intros H. destruct (String.eqb_spec k k') as [->|Hne].
  - exfalso. apply H. now left.
  - rewrite IH; [reflexivity|]. intros Hin. apply H. now right.
Qed.

Lemma wf_app_head {V} (a : Dict.t V) k v b :
  Dict.wf (a ++ (k, v) :: b)%list -> ~ In k (Dict.keys a).
Proof.
  unfold Dict.wf, Dict.keys. rewrite map_app. simpl.
  intros H Hin. apply NoDup_remove_2 in H. apply H.
  apply in_or_app. now left.
Qed.

Lemma mem_pop_sub {V} k k' (d : Dict.t V) :
  Dict.mem k (Dict.pop k' d) = true -> Dict.mem k d = true.
Proof.
  unfold Dict.mem.
  destruct (Dict.get k d) eqn:E; [reflexivity|].
  now rewrite (get_pop_none k k' d E).
Qed.

(** One pass of the tab loop, and the whole loop, on the registry. *)
Lemma reap_tab_step now sid sess item w s :
  Dict.get sid (sessions w) = Some s ->
  fst (reap_tab now sid sess item w) = Ret tt /\
  sessions (snd (reap_tab now sid sess item w))
  = Dict.set sid (reap_step now item s) (sessions w).
Proof.
  intros Hs. destruct item as [tid t].
  destruct (reap_tab_run now sid sess tid t w) as [Hr Hw].
  split; [assumption|]. rewrite Hw, Hs. unfold reap_step, tab_expired.
  cbn [fst snd].
  destruct (total_seconds_gt now _ TAB_TTL_SECONDS && (1 <? Dict.len (tabs s)));
    [reflexivity|].
  symmetry. now apply set_get_same.
Qed.

Lemma reap_tabs_fold now sid sess items w s :
  Dict.get sid (sessions w) = Some s ->
  fst (for_each items (reap_tab now sid sess) w) = Ret tt /\
  sessions (snd (for_each items (reap_tab now sid sess) w))
  = Dict.set sid (fold_left (fun s item => reap_step now item s) items s)
      (sessions w).
Proof.
  revert w s. induction items as [|item r IH]; intros w s Hs.
  - simpl. split; [reflexivity|]. symmetry. now apply set_get_same.
  - cbn [for_each fold_left]. unfold bind.
    destruct (reap_tab_step now sid sess item w s Hs) as [Hr Hw].
    destruct (reap_tab now sid sess item w) as [r0 w1].
    cbn [fst snd] in Hr, Hw. subst r0.
    assert (Dict.get sid (sessions w1) = Some (reap_step now item s)) as Hs1
      by (rewrite Hw; apply get_set_same).
    destruct (IH w1 _ Hs1) as [Hr' Hw']. split; [assumption|].
    rewrite Hw', Hw. apply set_set.
Qed.

Lemma reap_session_run now sid sess w s :
  Dict.get sid (sessions w) = Some s ->
  fst (reap_session now (sid, sess) w)
  = Ret (session_expired now (tab_phase now s)) /\
  sessions (snd (reap_session now (sid, sess) w))
  = Dict.set sid (tab_phase now s) (sessions w).
Proof.
  intros Hs. unfold reap_session, bind, deref, gets, ret. rewrite Hs.
  destruct (reap_tabs_fold now sid s (tabs s) w s Hs) as [Hr Hw].
  destruct (for_each (tabs s) (reap_tab now sid s) w) as [r0 w1].
  cbn [fst snd] in Hr, Hw. subst r0. cbn [fst snd].
  rewrite Hw, get_set_same. split; reflexivity.
Qed.

(** The reaper changes neither the context nor the timestamps of a
    session. *)
Lemma reap_step_fields now item s :
  context (reap_step now item s) = context s /\
  sess_created_at (reap_step now item s) = sess_created_at s /\
  sess_last_used (reap_step now item s) = sess_last_used s.
Proof.
  unfold reap_step, without_tab. cbn [tabs set_tabs active_tab_id].
  destruct (tab_expired now _ && (1 <? Dict.len (tabs s))); [|auto].
  destruct (opt_eqb (active_tab_id s) (Some (fst item))); auto.
Qed.

Lemma reap_fold_fields now items s :
  let s' := fold_left (fun s item => reap_step now item s) items s in
  context s' = context s /\
  sess_created_at s' = sess_created_at s /\
  sess_last_used s' = sess_last_used s.
Proof.
  revert s. induction items as [|item r IH]; intros s; simpl; [auto|].
  destruct (IH (reap_step now item s)) as (H1 & H2 & H3).
  destruct (reap_step_fields now item s) as (G1 & G2 & G3).
  repeat split; congruence.
Qed.

Lemma tabs_reap_step now item s :
  tabs (reap_step now item s) = tabs s \/
  tabs (reap_step now item s) = Dict.pop (fst item) (tabs s).
Proof.
  unfold reap_step.
  destruct (tab_expired now _ && (1 <? Dict.len (tabs s))); [|now left].
  right. apply tabs_without_tab.
Qed.

Lemma reap_fold_shrinks now items s k :
  Dict.mem k
    (tabs (fold_left (fun s item => reap_step now item s) items s)) = true ->
  Dict.mem k (tabs s) = true.
Proof.
  revert s. induction items as [|item r IH]; intros s; simpl; [auto|].
  intros H. apply IH in H.
  destruct (tabs_reap_step now item s) as [E|E]; rewrite E in H;
    [assumption | now apply mem_pop_sub in H].
Qed.

(** The tabs left by the loop, when the tabs met so far that were kept are
    [kept] and the loop still has to visit [rest]. *)
Lemma reap_fold_tabs now rest kept s :
  tabs s = (kept ++ rest)%list ->
  Dict.wf (kept ++ rest)%list ->
  tabs (fold_left (fun s item => reap_step now item s) rest s)
  = match (kept ++ filter (fun kv => negb (tab_expired now (snd kv))) rest)%list
    with
    | [] => skipn (List.length rest - 1) rest
    | fresh => fresh
    end.
Proof.
  revert kept s. induction rest as [|[tid t] rest IH]; intros kept s Ht Hwf.
  - simpl. rewrite Ht, app_nil_r. now destruct kept.
  - cbn [fold_left filter snd].
    pose proof (wf_app_head kept tid t rest Hwf) as Hnot.
    assert (Dict.get tid (tabs s) = Some t) as Hget.
    { rewrite Ht, get_app_notin by assumption. simpl.
      now rewrite String.eqb_refl. }
    unfold reap_step at 2. cbn [fst snd]. rewrite Hget.
    destruct (tab_expired now t) eqn:He; cbn [negb andb].
    + destruct (1 <? Dict.len (tabs s)) eqn:Hlen.
      * (* the tab is removed *)
        rewrite (IH kept).
        -- destruct (kept ++ filter _ rest)%list eqn:E; [|reflexivity].
           apply app_eq_nil in E as [-> _].
           apply Z.ltb_lt in Hlen. unfold Dict.len in Hlen.
           rewrite Ht in Hlen. simpl in Hlen.
           destruct rest as [|x rest']; [simpl in Hlen; lia|].
           simpl. now rewrite Nat.sub_0_r.
        -- rewrite tabs_without_tab, Ht, pop_app_notin by assumption.
           simpl. now rewrite String.eqb_refl.
        -- unfold Dict.wf, Dict.keys in *. rewrite map_app in *. simpl in Hwf.
           now apply NoDup_remove_1 in Hwf.
      * (* the last tab of the session stays *)
        apply Z.ltb_ge in Hlen. unfold Dict.len in Hlen.
        rewrite Ht, length_app in Hlen. simpl in Hlen.
        destruct kept; [|simpl in Hlen; lia].
        destruct rest; [|simpl in Hlen; lia].
        simpl. exact Ht.
    + (* the tab is not expired *)
      rewrite (IH (kept ++ [(tid, t)])%list).
      * rewrite <- app_assoc. simpl.
        destruct kept; reflexivity.
      * now rewrite <- app_assoc.
      * now rewrite <- app_assoc.
Qed.

Lemma tab_phase_tabs now s :
  Dict.wf (tabs s) -> tabs (tab_phase now s) = surviving_tabs now (tabs s).
Proof.
  intros Hwf. unfold tab_phase, surviving_tabs.
  now rewrite (reap_fold_tabs now (tabs s) [] s).
Qed.

Lemma active_without_tab tid s :
  active_tab_id (without_tab tid s)
  = if opt_eqb (active_tab_id s) (Some tid)
    then Dict.first_key (Dict.pop tid (tabs s))
    else active_tab_id s.
Proof.
  unfold without_tab. cbn [tabs set_tabs active_tab_id].
  now destruct (opt_eqb (active_tab_id s) (Some tid)).
Qed.

Lemma wf_app_gone {V} (a : Dict.t V) k v b :
  Dict.wf (a ++ (k, v) :: b)%list -> Dict.mem k (a ++ b)%list = false.
Proof.
  intros H. apply mem_false_get, get_absent.
  unfold Dict.wf, Dict.keys in *. rewrite map_app in *. simpl in H.
  now apply NoDup_remove_2 in H.
Qed.

Lemma opt_eqb_neq a b : a <> b -> opt_eqb a b = false.
Proof.
  intros H. destruct (opt_eqb a b) eqn:E; [|reflexivity].
  now apply opt_eqb_eq in E.
Qed.

(** Where the active-tab pointer stands after the loop. *)
Lemma reap_fold_active now rest kept s :
  tabs s = (kept ++ rest)%list ->
  Dict.wf (kept ++ rest)%list ->
  let s' := fold_left (fun s item => reap_step now item s) rest s in
  (forall k, active_tab_id s = Some k -> Dict.mem k (tabs s') = true ->
     active_tab_id s' = Some k) /\
  (forall k, active_tab_id s = Some k -> Dict.mem k (tabs s) = true ->
     Dict.mem k (tabs s') = false ->
     active_tab_id s' = Dict.first_key (tabs s')) /\
  (active_tab_id s = Dict.first_key (tabs s) ->
   active_tab_id s' = Dict.first_key (tabs s')).
Proof.
  revert kept s. induction rest as [|[tid t] rest IH]; intros kept s Ht Hwf.
  - simpl. repeat split; auto. congruence.
  - cbn [fold_left].
    assert (Dict.wf ((kept ++ [(tid, t)]) ++ rest)%list) as Hwf'
      by now rewrite <- app_assoc.
    assert (tabs s = ((kept ++ [(tid, t)]) ++ rest)%list) as Ht'
      by now rewrite <- app_assoc.
    assert (reap_step now (tid, t) s = s \/
            reap_step now (tid, t) s = without_tab tid s) as [E|E]
      by (unfold reap_step; cbn [fst snd];
          destruct (tab_expired now _ && (1 <? Dict.len (tabs s))); auto);
      rewrite E; [exact (IH _ s Ht' Hwf')|]. clear E.
    pose proof (wf_app_head kept tid t rest Hwf) as Hnot.
    assert (tabs (without_tab tid s) = (kept ++ rest)%list) as Ht1.
    { rewrite tabs_without_tab, Ht, pop_app_notin by assumption.
      simpl. now rewrite String.eqb_refl. }
    assert (Dict.wf (kept ++ rest)%list) as Hwf1.
    { unfold Dict.wf, Dict.keys in *. rewrite map_app in *. simpl in Hwf.
      now apply NoDup_remove_1 in Hwf. }
    pose proof (IH kept (without_tab tid s) Ht1 Hwf1) as IH1.
    cbv zeta in IH1 |- *. destruct IH1 as (I1 & I2 & I3).
    pose proof (active_without_tab tid s) as Ha.
    repeat split.
    + intros k Hk Hm. destruct (String.eqb_spec k tid) as [->|Hne].
      * apply reap_fold_shrinks in Hm. rewrite Ht1 in Hm.
        now rewrite (wf_app_gone kept tid t rest Hwf) in Hm.
      * apply I1; [|assumption]. rewrite Ha, Hk.
        rewrite opt_eqb_neq; [reflexivity | congruence].
    + intros k Hk Hm Hm'. destruct (String.eqb_spec k tid) as [->|Hne].
      * apply I3. rewrite Ha, Hk.
        replace (opt_eqb (Some tid) (Some tid)) with true
          by (symmetry; now apply opt_eqb_eq).
        now rewrite tabs_without_tab.
      * apply (I2 k); [| |assumption].
        -- rewrite Ha, Hk. rewrite opt_eqb_neq; [reflexivity | congruence].
        -- now rewrite tabs_without_tab, mem_pop_other by congruence.
    + intros Hf. apply I3. rewrite Ha, tabs_without_tab.
      destruct (opt_eqb (active_tab_id s) (Some tid)) eqn:E; [reflexivity|].
      rewrite Hf, Ht in *. rewrite pop_app_notin by assumption.
      destruct kept as [|[k1 v1] kept]; simpl in *.
      * now rewrite String.eqb_refl in E.
      * reflexivity.
Qed.

(** X3. The tab loop of a reaper sweep on one registered session removes
    exactly the tabs idle for more than the tab TTL, except that when every
    tab is expired the last tab of the map stays.  The active-tab pointer
    is kept if its tab stays and otherwise names the first remaining tab;
    the browsing context and the timestamps of the session are untouched,
    and the loop reports the session as expired exactly when its own
    [last_used] is older than the session TTL. *)
Theorem reaper_tab_phase now sid sess w s :
  Dict.get sid (sessions w) = Some s ->
  Dict.wf (tabs s) ->
  exists s',
    Dict.get sid (sessions (snd (reap_session now (sid, sess) w))) = Some s' /\
    tabs s' = surviving_tabs now (tabs s) /\
    (forall k, active_tab_id s = Some k -> Dict.mem k (tabs s) = true ->
       active_tab_id s'
       = if Dict.mem k (tabs s') then Some k else Dict.first_key (tabs s')) /\
    context s' = context s /\
    sess_created_at s' = sess_created_at s /\
    sess_last_used s' = sess_last_used s /\
    fst (reap_session now (sid, sess) w) = Ret (session_expired now s).
Proof.
  intros Hs Hwf.
  destruct (reap_session_run now sid sess w s Hs) as [Hr Hw].
  destruct (reap_fold_fields now (tabs s) s) as (F1 & F2 & F3).
  fold (tab_phase now s) in F1, F2, F3.
  exists (tab_phase now s). rewrite Hw, get_set_same.
  repeat split; auto.
  - now apply tab_phase_tabs.
  - intros k Hk Hm.
    pose proof (reap_fold_active now (tabs s) [] s eq_refl Hwf) as H.
    cbv zeta in H. fold (tab_phase now s) in H. destruct H as (H1 & H2 & _).
    destruct (Dict.mem k (tabs (tab_phase now s))) eqn:E; eauto.
  - rewrite Hr. unfold session_expired. now rewrite F3.
Qed.

Lemma wf_same_keys {V W} (d : Dict.t V) (d' : Dict.t W) :
  Dict.keys d' = Dict.keys d -> Dict.wf d -> Dict.wf d'.
Proof. unfold Dict.wf. now intros ->. Qed.

(** The session loop of a sweep: every session goes through the tab loop,
    and the expired ones are listed. *)
Lemma reap_sessions_run now items done w :
  sessions w = (done ++ items)%list ->
  Dict.wf (done ++ items)%list ->
  fst (reap_sessions now items w)
  = Ret (map fst (filter (fun kv => session_expired now (snd kv)) items)) /\
  sessions (snd (reap_sessions now items w))
  = (done ++ map (fun kv => (fst kv, tab_phase now (snd kv))) items)%list.
Proof.
  revert done w. induction items as [|[sid sess] r IH]; intros done w Hw Hwf.
  - simpl. split; [reflexivity | exact Hw].
  - cbn [reap_sessions]. unfold bind.
    pose proof (wf_app_head done sid sess r Hwf) as Hnot.
    assert (Dict.get sid (sessions w) = Some sess) as Hs.
    { rewrite Hw, get_app_notin by assumption. simpl.
      now rewrite String.eqb_refl. }
    destruct (reap_session_run now sid sess w sess Hs) as [Hr Hw1].
    destruct (reap_session now (sid, sess) w) as [r0 w1].
    cbn [fst snd] in Hr, Hw1. subst r0.
    assert (sessions w1
            = ((done ++ [(sid, tab_phase now sess)]) ++ r)%list) as Hw1'.
    { rewrite Hw1, Hw, set_app_notin by assumption. simpl.
      rewrite String.eqb_refl. now rewrite <- app_assoc. }
    assert (Dict.wf ((done ++ [(sid, tab_phase now sess)]) ++ r)%list) as Hwf1.
    { apply (wf_same_keys (done ++ (sid, sess) :: r)%list); [|assumption].
      unfold Dict.keys. rewrite <- app_assoc, !map_app. reflexivity. }
    destruct (IH _ w1 Hw1' Hwf1) as [Hr2 Hw2].
    destruct (reap_sessions now r w1) as [r2 w2].
    cbn [fst snd] in Hr2, Hw2. subst r2. cbn [fst snd filter map].
    assert (session_expired now (tab_phase now sess) = session_expired now sess)
      as ->.
    { unfold session_expired.
      destruct (reap_fold_fields now (tabs sess) sess) as (_ & _ & F3).
      fold (tab_phase now sess) in F3. now rewrite F3. }
    split.
    + now destruct (session_expired now sess).
    + unfold ret. cbn [snd]. rewrite Hw2, <- app_assoc. reflexivity.
Qed.

(** Closing the listed sessions pops them, whatever the engine does. *)
Lemma close_all_run ks w :
  fst (for_each ks (fun sid => suppress (mgr_close_session sid)) w) = Ret tt /\
  sessions (snd (for_each ks (fun sid => suppress (mgr_close_session sid)) w))
  = fold_left (fun d k => Dict.pop k d) ks (sessions w).
Proof.
  revert w. induction ks as [|k ks IH]; intros w; [split; reflexivity|].
  cbn [for_each fold_left]. unfold bind.
  destruct (Dict.get k (sessions w)) as [s|] eqn:Hs.
  - replace (suppress (mgr_close_session k) w)
      with (Ret tt, set_sessions (Dict.pop k (sessions w))
                      (set_tick (S (tick w)) w))
      by (unfold suppress, try_except;
          now rewrite (mgr_close_session_run k w s Hs)).
    apply IH.
  - replace (suppress (mgr_close_session k) w) with (Ret tt, w)
      by (unfold suppress, try_except;
          now rewrite (mgr_close_session_absent k w Hs)).
    rewrite (pop_absent (sessions w) k) by now apply mem_false_get.
    apply IH.
Qed.

Lemma get_pop_all_in {V} ks (d : Dict.t V) k :
  Dict.wf d -> In k ks ->
  Dict.get k (fold_left (fun d k => Dict.pop k d) ks d) = None.
Proof.
  assert (forall ks (d : Dict.t V),
            Dict.get k d = None ->
            Dict.get k (fold_left (fun d k => Dict.pop k d) ks d) = None)
    as Hnone.
  { intros l. induction l as [|k0 l IHl]; intros d0 H; simpl; [assumption|].
    apply IHl. now apply get_pop_none. }
  revert d. induction ks as [|k0 ks IH]; intros d Hwf Hin; [destruct Hin|].
  simpl. destruct (String.eqb_spec k0 k) as [->|Hne].
  - apply Hnone. now apply get_pop_same.
  - destruct Hin as [->|Hin]; [contradiction|].
    apply IH; [now apply wf_pop | assumption].
Qed.

Lemma get_pop_all_out {V} ks (d : Dict.t V) k :
  ~ In k ks ->
  Dict.get k (fold_left (fun d k => Dict.pop k d) ks d) = Dict.get k d.
Proof.
  revert d. induction ks as [|k0 ks IH]; intros d Hin; [reflexivity|].
  simpl. rewrite IH.
  - apply get_pop_other. intros ->. apply Hin. now left.
  - intros H. apply Hin. now right.
Qed.

Lemma get_map_values {V W} (f : V -> W) (d : Dict.t V) k :
  Dict.get k (map (fun kv => (fst kv, f (snd kv))) d)
  = option_map f (Dict.get k d).
Proof.
  induction d as [|[k' v'] d IH]; simpl; [reflexivity|].
  now destruct (String.eqb k k').
Qed.

Lemma in_filter_keys {V} (p : V -> bool) (d : Dict.t V) k v :
  Dict.wf d -> Dict.get k d = Some v ->
  In k (map fst (filter (fun kv => p (snd kv)) d)) <-> p v = true.
Proof.
  unfold Dict.wf, Dict.keys.
  induction d as [|[k' v'] d IH]; simpl; [discriminate|].
  intros Hwf. inversion Hwf as [|? ? Hnot Hwf']; subst.
  destruct (String.eqb_spec k k') as [->|Hne].
  - intros [= ->]. destruct (p v) eqn:Hp; simpl.
    + split; auto.
    + split; [|discriminate]. intros Hin. exfalso. apply Hnot.
      clear - Hin. induction d as [|[k0 v0] d IHd]; simpl in *; [assumption|].
      destruct (p v0); simpl in *; [destruct Hin; auto | auto].
  - intros Hget. rewrite <- (IH Hwf' Hget).
    destruct (p v'); simpl; [|reflexivity].
    split; [intros [->|H]; [contradiction | assumption] | auto].
Qed.

(** X4. A sweep of the idle reaper never raises, whatever the engine does.
    It closes exactly the sessions whose [last_used] is older than the
    session TTL at the time of the sweep; every other session stays
    registered with its timestamps and context untouched and with the tabs
    that the tab loop leaves: those not expired, or the last tab when all
    are expired. *)
Theorem reaper_sweep w :
  wf_registry w ->
  all_sessions wf_tabs w ->
  let now := utcnow_at O (tick w) in
  let w' := snd (_cleanup_idle w) in
  fst (_cleanup_idle w) = Ret tt /\
  forall sid s,
    Dict.get sid (sessions w) = Some s ->
    if session_expired now s then Dict.get sid (sessions w') = None
    else
      exists s',
        Dict.get sid (sessions w') = Some s' /\
        tabs s' = surviving_tabs now (tabs s) /\
        context s' = context s /\
        sess_created_at s' = sess_created_at s /\
        sess_last_used s' = sess_last_used s.
Proof.
  intros Hwf Htabs now.
  set (w1 := set_tick (S (tick w)) w).
  assert (_cleanup_idle w
          = let (r, w2) := reap_sessions now (sessions w) w1 in
            match r with
            | Ret l =>
                for_each l (fun sid => suppress (mgr_close_session sid)) w2
            | Raise e => (Raise e, w2)
            end) as -> by reflexivity.
  destruct (reap_sessions_run now (sessions w) [] w1 eq_refl Hwf) as [Hr Hs].
  destruct (reap_sessions now (sessions w) w1) as [r2 w2].
  cbn [fst snd] in Hr, Hs. subst r2. cbn [app] in Hs.
  destruct (close_all_run
              (map fst (filter (fun kv => session_expired now (snd kv))
                          (sessions w))) w2) as [Hc Hc'].
  cbv zeta. split; [assumption|].
  intros sid s Hget. rewrite Hc', Hs.
  assert (Dict.wf (map (fun kv => (fst kv, tab_phase now (snd kv)))
                     (sessions w))) as Hwf2.
  { apply (wf_same_keys (sessions w)); [|assumption].
    unfold Dict.keys. rewrite map_map. reflexivity. }
  pose proof (in_filter_keys (session_expired now) (sessions w) sid s
                Hwf Hget) as Hin.
  destruct (session_expired now s) eqn:He.
  - apply get_pop_all_in; [assumption | now apply Hin].
  - rewrite get_pop_all_out, get_map_values, Hget.
    + destruct (reap_fold_fields now (tabs s) s) as (F1 & F2 & F3).
      fold (tab_phase now s) in F1, F2, F3.
      exists (tab_phase now s). repeat split; auto.
      apply tab_phase_tabs.
      exact (every_get wf_tabs _ _ _ Htabs Hget).
    + intros H. apply Hin in H. discriminate.
Qed.

(** ** Requests that name no session or no tab *)

Lemma get_page_unknown_session sid j w :
  Dict.get sid (sessions w) = None ->
  get_page sid j w = (Raise (KeyError "Session not found"), w).
Proof.
  intros Hs. unfold get_page, bind, get_session, gets. now rewrite Hs.
Qed.

Lemma get_page_unknown_tab sid tid w s :
  Dict.get sid (sessions w) = Some s ->
  Dict.mem tid (tabs s) = false ->
  tid <> EmptyString ->
  get_page sid (JStr tid) w = (Raise (KeyError "Tab not found"), w).
Proof.
  intros Hs Hm Hne. apply (get_page_fails sid (JStr tid) w s); [assumption|].
  unfold _resolve_tab, json_or, json_truthy.
  destruct (String.eqb_spec tid EmptyString) as [->|_]; [contradiction|].
  cbn [negb]. unfold json_truthy.
  destruct (String.eqb_spec tid EmptyString) as [->|_]; [contradiction|].
  cbn [negb]. unfold json_in, bind, ret. now rewrite Hm.
Qed.

(** X5. A request handler called with a session identifier that is not
    registered answers 404 and changes nothing, not even the oracle
    counter: no engine call is made.  The detail is [Session not found] for
    the handlers that look the session up themselves, the text of the
    [KeyError] (quoted, as [str] renders it) for [close_tab] and
    [activate_tab], and [Session or tab not found] for the handlers that
    only call [get_page]. *)
Theorem unknown_session_is_404 sid tid url otid w :
  Dict.get sid (sessions w) = None ->
  close_session sid w = (Raise (HTTPException 404 "Session not found"), w) /\
  create_tab sid w = (Raise (HTTPException 404 "Session not found"), w) /\
  close_tab sid tid w
    = (Raise (HTTPException 404 "'Session not found'"), w) /\
  activate_tab sid tid w
    = (Raise (HTTPException 404 "'Session not found'"), w) /\
  get_session_status sid otid w
    = (Raise (HTTPException 404 "Session not found"), w) /\
  navigate sid url otid w
    = (Raise (HTTPException 404 "Session not found"), w) /\
  go_back sid otid w = (Raise (HTTPException 404 "Session not found"), w) /\
  go_forward sid otid w = (Raise (HTTPException 404 "Session not found"), w) /\
  refresh sid otid w
    = (Raise (HTTPException 404 "Session or tab not found"), w) /\
  get_screenshot sid otid w
    = (Raise (HTTPException 404 "Session or tab not found"), w) /\
  click sid otid w
    = (Raise (HTTPException 404 "Session or tab not found"), w) /\
  type_text sid otid w
    = (Raise (HTTPException 404 "Session or tab not found"), w) /\
  keypress sid otid w
    = (Raise (HTTPException 404 "Session or tab not found"), w) /\
  scroll sid otid w
    = (Raise (HTTPException 404 "Session or tab not found"), w).
Proof.
  intros Hs.
  pose proof (get_page_unknown_session sid (of_opt otid) w Hs) as Hp.
  repeat split;
    unfold close_session, create_tab, close_tab, activate_tab,
      get_session_status, navigate, go_back, go_forward, refresh,
      get_screenshot, click, type_text, keypress, scroll, page_action,
      mgr_close_tab, mgr_activate_tab, try_except, bind, get_session, gets;
    rewrite ?Hs, ?Hp; reflexivity.
Qed.

(** X6. A request handler called for a registered session with a tab
    identifier that is not in the session answers 404 and changes nothing:
    no timestamp is bumped and no engine call is made. *)
Theorem unknown_tab_is_404 sid tid url w s :
  Dict.get sid (sessions w) = Some s ->
  Dict.mem tid (tabs s) = false ->
  tid <> EmptyString ->
  close_tab sid tid w = (Raise (HTTPException 404 "'Tab not found'"), w) /\
  activate_tab sid tid w = (Raise (HTTPException 404 "'Tab not found'"), w) /\
  get_session_status sid (Some tid) w
    = (Raise (HTTPException 404 "Tab not found"), w) /\
  navigate sid url (Some tid) w
    = (Raise (HTTPException 404 "Session or tab not found"), w) /\
  go_back sid (Some tid) w
    = (Raise (HTTPException 404 "Session or tab not found"), w) /\
  go_forward sid (Some tid) w
    = (Raise (HTTPException 404 "Session or tab not found"), w) /\
  refresh sid (Some tid) w
    = (Raise (HTTPException 404 "Session or tab not found"), w) /\
  get_screenshot sid (Some tid) w
    = (Raise (HTTPException 404 "Session or tab not found"), w) /\
  click sid (Some tid) w
    = (Raise (HTTPException 404 "Session or tab not found"), w) /\
  type_text sid (Some tid) w
    = (Raise (HTTPException 404 "Session or tab not found"), w) /\
  keypress sid (Some tid) w
    = (Raise (HTTPException 404 "Session or tab not found"), w) /\
  scroll sid (Some tid) w
    = (Raise (HTTPException 404 "Session or tab not found"), w).
Proof.
  intros Hs Hm Hne.
  pose proof (get_page_unknown_tab sid tid w s Hs Hm Hne) as Hp.
  repeat split;
    unfold close_tab, activate_tab,
      get_session_status, navigate, go_back, go_forward, refresh,
      get_screenshot, click, type_text, keypress, scroll, page_action,
      mgr_close_tab, mgr_activate_tab, json_in, of_opt,
      try_except, bind, get_session, gets, ret;
    rewrite ?Hs, ?Hm, ?Hp; reflexivity.
Qed.

(** ** Creating and closing sessions and tabs *)

(** X7. [create_session] is all or nothing.  Either it answers with the
    identifiers of a session that is now registered with exactly one tab,
    which is active, and with the creation time it reports, all other
    entries of the registry being as before; or it answers 500 and the
    registry is unchanged.  It answers in no other way. *)
Theorem create_session_all_or_nothing w :
  match create_session w with
  | (Ret (CreateSessionResponse sid created tid), w') =>
      exists s t,
        sessions w' = Dict.set sid s (sessions w) /\
        sess_created_at s = created /\
        tabs s = [(tid, t)] /\ history t = [] /\ history_index t = -1 /\
        active_tab_id s = Some tid
  | (Ret _, _) => False
  | (Raise e, w') =>
      sessions w' = sessions w /\ exists detail, e = HTTPException 500 detail
  end.
Proof.
  enough (wp create_session
            (fun r w' =>
               match r with
               | Ret (CreateSessionResponse sid created tid) =>
                   exists s t,
                     sessions w' = Dict.set sid s (sessions w) /\
                     sess_created_at s = created /\
                     tabs s = [(tid, t)] /\ history t = [] /\
                     history_index t = -1 /\ active_tab_id s = Some tid
               | Ret _ => False
               | Raise e =>
                   sessions w' = sessions w /\
                   exists detail, e = HTTPException 500 detail
               end) w) as H
    by (unfold wp in H; now destruct (create_session w)).
  unfold create_session, mgr_create_session.
  wp_step. wp_step. wp_step. apply wp_initialize.
  intros r w1 Hs _ _ _. destruct r as [[]|e]; wp_simpl.
  - repeat wp_step; rewrite ?Hs;
      first [ split; [reflexivity | eauto]
            | eexists _, _; repeat split; reflexivity ].
  - wp_step. rewrite Hs. eauto.
Qed.

(** X8. A failed browser launch is never retried.  If Playwright starts
    and [chromium.launch] then raises, [create_session] answers 500 with
    the engine's message and leaves the manager with Playwright set and no
    browser; from such a state every later [create_session] answers 500
    [Playwright browser not initialized] without calling the engine, and
    leaves the manager in the same condition. *)
Theorem failed_launch_is_permanent w :
  (forall msg,
     playwright w = None ->
     engine_at O (tick w) = None ->
     engine_at O (S (tick w)) = Some msg ->
     exists w',
       create_session w = (Raise (HTTPException 500 msg), w') /\
       sessions w' = sessions w /\
       playwright w' = Some (tick w) /\ browser w' = browser w) /\
  (forall p,
     playwright w = Some p -> browser w = None ->
     exists w',
       create_session w
       = (Raise (HTTPException 500 "Playwright browser not initialized"), w') /\
       sessions w' = sessions w /\
       playwright w' = Some p /\ browser w' = None /\ tick w' = tick w).
Proof.
  split.
  - intros msg Hp He1 He2.
    enough (wp create_session
              (fun r w' =>
                 r = Raise (HTTPException 500 msg) /\
                 sessions w' = sessions w /\
                 playwright w' = Some (tick w) /\ browser w' = browser w) w)
      as H.
    { unfold wp in H. destruct (create_session w) as [r w'].
      cbn [fst snd] in H. destruct H as (-> & H). eauto. }
    unfold create_session, mgr_create_session, initialize.
    repeat wp_step; try congruence.
    assert (s = msg) as -> by congruence. repeat split.
  - intros p Hp Hb.
    enough (wp create_session
              (fun r w' =>
                 r = Raise (HTTPException 500
                              "Playwright browser not initialized") /\
                 sessions w' = sessions w /\
                 playwright w' = Some p /\ browser w' = None /\
                 tick w' = tick w) w)
      as H.
    { unfold wp in H. destruct (create_session w) as [r w'].
      cbn [fst snd] in H. destruct H as (-> & H). eauto. }
    unfold create_session, mgr_create_session, initialize.
    repeat wp_step; try congruence; repeat split; congruence.
Qed.

(** X9. [create_tab] on a registered session is all or nothing.  Either
    it answers with the identifier of a tab that is now in the session,
    new-born (empty history, cursor [-1]) and active, every other tab and
    the browsing context being as before; or it answers 500 and the
    registry is unchanged. *)
Theorem create_tab_all_or_nothing sid w s :
  Dict.get sid (sessions w) = Some s ->
  match create_tab sid w with
  | (Ret (CreateTabResponse tid), w') =>
      exists s' t,
        Dict.get sid (sessions w') = Some s' /\
        tabs s' = Dict.set tid t (tabs s) /\
        history t = [] /\ history_index t = -1 /\
        active_tab_id s' = Some tid /\
        context s' = context s /\
        (forall k, k <> tid -> Dict.get k (tabs s') = Dict.get k (tabs s)) /\
        (forall sid', sid' <> sid ->
           Dict.get sid' (sessions w') = Dict.get sid' (sessions w))
  | (Ret _, _) => False
  | (Raise e, w') =>
      sessions w' = sessions w /\ exists detail, e = HTTPException 500 detail
  end.
Proof.
  intros Hs.
  enough (wp (create_tab sid)
            (fun r w' =>
               match r with
               | Ret (CreateTabResponse tid) =>
                   exists s' t,
                     Dict.get sid (sessions w') = Some s' /\
                     tabs s' = Dict.set tid t (tabs s) /\
                     history t = [] /\ history_index t = -1 /\
                     active_tab_id s' = Some tid /\
                     context s' = context s /\
                     (forall k, k <> tid ->
                        Dict.get k (tabs s') = Dict.get k (tabs s)) /\
                     (forall sid', sid' <> sid ->
                        Dict.get sid' (sessions w')
                        = Dict.get sid' (sessions w))
               | Ret _ => False
               | Raise e =>
                   sessions w' = sessions w /\
                   exists detail, e = HTTPException 500 detail
               end) w) as H
    by (unfold wp in H; now destruct (create_tab sid w)).
  unfold create_tab, mgr_create_tab.
  repeat wp_step; wp_fields.
  - split; [reflexivity | eauto].
  - eexists _, _. split; [reflexivity|].
    cbn [tabs set_tabs set_active_tab_id set_sess_last_used active_tab_id
         context fresh_tab history history_index].
    repeat split.
    + intros k Hk. apply get_set_other. congruence.
    + intros sid' Hne. apply get_set_other. congruence.
Qed.

(** X10. [close_session] on a registered session always answers [closed]
    and removes the session, whether closing the browsing context succeeds
    or raises; the other sessions are untouched. *)
Theorem close_session_always_closes sid w s :
  Dict.get sid (sessions w) = Some s ->
  exists w',
    close_session sid w = (Ret (Reply "closed" None None None), w') /\
    sessions w' = Dict.pop sid (sessions w) /\
    (Dict.wf (sessions w) -> Dict.get sid (sessions w') = None) /\
    (forall sid', sid' <> sid ->
       Dict.get sid' (sessions w') = Dict.get sid' (sessions w)).
Proof.
  intros Hs. unfold close_session, bind, get_session, gets. rewrite Hs.
  rewrite (mgr_close_session_run sid w s Hs). eexists. split; [reflexivity|].
  cbn [sessions set_sessions]. repeat split.
  - intros Hwf. now apply get_pop_same.
  - intros sid' Hne. apply get_pop_other. congruence.
Qed.

Lemma pop_all_keys {V} (d : Dict.t V) :
  fold_left (fun d k => Dict.pop k d) (Dict.keys d) d = [].
Proof.
  induction d as [|[k v] d IH]; simpl; [reflexivity|].
  now rewrite String.eqb_refl.
Qed.

Lemma close_all_world ks w :
  exists n,
    for_each ks (fun sid => suppress (mgr_close_session sid)) w
    = (Ret tt,
       set_sessions (fold_left (fun d k => Dict.pop k d) ks (sessions w))
         (set_tick n w)).
Proof.
  revert w. induction ks as [|k ks IH]; intros w.
  - exists (tick w). now destruct w.
  - cbn [for_each fold_left]. unfold bind.
    destruct (Dict.get k (sessions w)) as [s|] eqn:Hs.
    + replace (suppress (mgr_close_session k) w)
        with (Ret tt, set_sessions (Dict.pop k (sessions w))
                        (set_tick (S (tick w)) w))
        by (unfold suppress, try_except;
            now rewrite (mgr_close_session_run k w s Hs)).
      destruct (IH (set_sessions (Dict.pop k (sessions w))
                      (set_tick (S (tick w)) w))) as [n ->].
      now exists n.
    + replace (suppress (mgr_close_session k) w) with (Ret tt, w)
        by (unfold suppress, try_except;
            now rewrite (mgr_close_session_absent k w Hs)).
      rewrite (pop_absent (sessions w) k) by now apply mem_false_get.
      apply IH.
Qed.

(** X11. Shutdown ([cleanup_sessions]) never raises, whatever the engine
    does, and leaves the registry empty and the reaper stopped.  It keeps
    the Playwright and browser handles of the manager as they were. *)
Theorem cleanup_empties_registry w :
  exists w',
    cleanup_sessions w = (Ret tt, w') /\
    sessions w' = [] /\
    cleanup_task w' = false /\
    playwright w' = playwright w /\
    browser w' = browser w.
Proof.
  enough (wp cleanup_sessions
            (fun r w' =>
               r = Ret tt /\ sessions w' = [] /\ cleanup_task w' = false /\
               playwright w' = playwright w /\ browser w' = browser w) w)
    as H.
  { unfold wp in H. destruct (cleanup_sessions w) as [r w'].
    cbn [fst snd] in H. destruct H as (-> & H). eauto. }
  unfold cleanup_sessions, cleanup.
  wp_step. wp_step. wp_step. wp_step. wp_step.
  destruct (close_all_world (Dict.keys (sessions w))
              (set_cleanup_task false w)) as [n E].
  eapply wp_run; [exact E|]. cbn [sessions set_cleanup_task] in *.
  rewrite pop_all_keys.
  repeat wp_step; repeat split; congruence.
Qed.

(** ** Resolving the tab of a request *)

Lemma json_truthy_of_opt o : json_truthy (of_opt o) = truthy o.
Proof. now destruct o. Qed.

(** When [_resolve_tab] returns, it returns the record found under the
    non-empty identifier that [tab_id or active_tab_id] evaluates to. *)
Lemma resolve_tab_inv s j w tid t :
  fst (_resolve_tab s j w) = Ret (tid, t) ->
  json_or j (of_opt (active_tab_id s)) = JStr tid /\
  tid <> EmptyString /\
  Dict.get tid (tabs s) = Some t.
Proof.
  unfold _resolve_tab.
  destruct (json_truthy (json_or j (of_opt (active_tab_id s)))) eqn:Htr;
    cbn [negb]; [|discriminate].
  unfold json_in, bind, ret, raise.
  destruct (json_or j (of_opt (active_tab_id s))) as [| | |k| |]; simpl;
    try discriminate.
  destruct (Dict.mem k (tabs s)); simpl; [|discriminate].
  destruct (Dict.get k (tabs s)) eqn:Hk; simpl; [|discriminate].
  intros [= <- <-]. repeat split; [|assumption].
  intros ->. discriminate.
Qed.

Lemma resolve_tab_ok s j w tid t :
  json_or j (of_opt (active_tab_id s)) = JStr tid ->
  tid <> EmptyString ->
  Dict.get tid (tabs s) = Some t ->
  _resolve_tab s j w = (Ret (tid, t), w).
Proof.
  intros Hj Hne Hget. unfold _resolve_tab. rewrite Hj. simpl.
  destruct (String.eqb_spec tid EmptyString) as [->|_]; [contradiction|].
  simpl. unfold json_in, bind, ret, Dict.mem. rewrite Hget.
  cbn beta iota. now rewrite Hget.
Qed.

(** X12. [get_page] works on the tab named by the request, or on the
    active tab of the session when the request names none (no identifier,
    or the empty string).  When that tab is in the session, the call
    returns its identifier and page and bumps [last_used] of the session
    and of that tab, each with a clock reading of its own; the history and
    cursor of the tab, every other tab, the active-tab pointer and the
    browsing context are untouched. *)
Theorem get_page_resolves_and_bumps sid otid w s tid t :
  Dict.get sid (sessions w) = Some s ->
  (if truthy otid then otid else active_tab_id s) = Some tid ->
  tid <> EmptyString ->
  Dict.get tid (tabs s) = Some t ->
  exists w' s',
    get_page sid (of_opt otid) w = (Ret (tid, page t), w') /\
    Dict.get sid (sessions w') = Some s' /\
    sess_last_used s' = utcnow_at O (tick w) /\
    Dict.get tid (tabs s')
      = Some (set_last_used (utcnow_at O (S (tick w))) t) /\
    (forall k, k <> tid -> Dict.get k (tabs s') = Dict.get k (tabs s)) /\
    active_tab_id s' = active_tab_id s /\
    context s' = context s /\
    sess_created_at s' = sess_created_at s /\
    (forall sid', sid' <> sid ->
       Dict.get sid' (sessions w') = Dict.get sid' (sessions w)).
Proof.
  intros Hs Hsel Hne Hget.
  assert (json_or (of_opt otid) (of_opt (active_tab_id s)) = JStr tid) as Hj.
  { unfold json_or. rewrite json_truthy_of_opt.
    destruct (truthy otid); now rewrite Hsel. }
  pose proof (resolve_tab_ok s (of_opt otid) w tid t Hj Hne Hget) as Hr.
  rewrite (get_page_run sid (of_opt otid) w s tid t Hs)
    by now rewrite Hr.
  eexists _, _. split; [reflexivity|].
  cbn [sessions set_sessions]. rewrite get_set_same.
  split; [reflexivity|]. unfold bumped.
  cbn [tabs set_tabs set_sess_last_used sess_last_used active_tab_id context
       sess_created_at].
  rewrite get_set_same. repeat split.
  - intros k Hk. apply get_set_other. congruence.
  - intros sid' Hk. apply get_set_other. congruence.
Qed.

(** ** Status, back and forward *)

(** X13. [get_session_status] reports the active tab of the session (also
    when the request names another tab) and the two flags
    [can_go_back = history_index > 0] and
    [can_go_forward = history_index < len(history) - 1] of the resolved
    tab.  The flags predict [go_back] and [go_forward] called in the same
    state: with a flag false the call answers the boundary status, with a
    flag true it moves the cursor by one. *)
Theorem status_predicts_back_and_forward sid otid w s tid t :
  Dict.get sid (sessions w) = Some s ->
  fst (_resolve_tab s (of_opt otid) w) = Ret (tid, t) ->
  engine_at O (S (S (S (tick w)))) = None ->
  let can_back := 0 <? history_index t in
  let can_forward :=
    history_index t <? Z.of_nat (List.length (history t)) - 1 in
  (exists w',
     get_session_status sid otid w
     = (Ret (SessionStatusResponse sid (active_tab_id s)
               (page_url_at O (S (S (tick w))))
               (page_title_at O (S (S (S (tick w)))))
               can_back can_forward), w')) /\
  (can_back = false ->
   fst (go_back sid otid w) = Ret (Reply "no_history" None None (Some tid))) /\
  (can_back = true ->
   option_map history_index (lookup_tab sid tid (snd (go_back sid otid w)))
   = Some (history_index t - 1)) /\
  (can_forward = false ->
   fst (go_forward sid otid w)
   = Ret (Reply "no_forward_history" None None (Some tid))) /\
  (can_forward = true ->
   option_map history_index (lookup_tab sid tid (snd (go_forward sid otid w)))
   = Some (history_index t + 1)).
Proof.
  intros Hs Hr He can_back can_forward. split; [|repeat split].
  - match goal with
    | |- exists w', _ = (?r, w') =>
        enough (wp (get_session_status sid otid)
                  (fun r' _ => r' = r) w) as H
    end.
    { unfold wp in H. destruct (get_session_status sid otid w) as [r w'].
      cbn [fst] in H. subst r. eauto. }
    unfold get_session_status, tab_ref. wp_det.
    eapply wp_run; [exact (get_page_run sid (of_opt otid) w s tid t Hs Hr)|].
    wp_fields. wp_det. rewrite He. wp_det. reflexivity.
  - intros Hb. rewrite (go_back_run sid otid w s tid t Hs Hr).
    unfold can_back in Hb. now rewrite Hb.
  - intros Hb. rewrite (go_back_run sid otid w s tid t Hs Hr).
    unfold can_back in Hb. rewrite Hb. unfold lookup_tab.
    cbn [snd sessions set_sessions]. rewrite get_set_same.
    cbn [tabs set_tabs]. now rewrite get_set_same.
  - intros Hf. rewrite (go_forward_run sid otid w s tid t Hs Hr).
    unfold can_forward in Hf. now rewrite Hf.
  - intros Hf. rewrite (go_forward_run sid otid w s tid t Hs Hr).
    unfold can_forward in Hf. rewrite Hf. unfold lookup_tab.
    cbn [snd sessions set_sessions]. rewrite get_set_same.
    cbn [tabs set_tabs]. now rewrite get_set_same.
Qed.

Lemma resolve_tab_again s j w tid t s' t' w' :
  fst (_resolve_tab s j w) = Ret (tid, t) ->
  active_tab_id s' = active_tab_id s ->
  Dict.get tid (tabs s') = Some t' ->
  fst (_resolve_tab s' j w') = Ret (tid, t').
Proof.
  intros Hr Ha Hget. apply resolve_tab_inv in Hr as (Hj & Hne & _).
  rewrite (resolve_tab_ok s' j w' tid t'); auto. now rewrite Ha.
Qed.

(** X14. Back and forward undo each other on the cursor: from a cursor
    that can move back, [go_back] followed by [go_forward] on the same tab
    leaves the cursor where it was, and so does [go_forward] followed by
    [go_back] from a cursor that can move forward; the history is the same
    list throughout.  This holds whether or not the engine's own
    [go_back] and [go_forward] calls succeed, since the cursor moves
    first. *)
Theorem back_and_forward_cancel sid otid w s tid t :
  Dict.get sid (sessions w) = Some s ->
  fst (_resolve_tab s (of_opt otid) w) = Ret (tid, t) ->
  (0 < history_index t < Z.of_nat (List.length (history t)) ->
   exists t',
     lookup_tab sid tid
       (snd (go_forward sid otid (snd (go_back sid otid w)))) = Some t' /\
     history_index t' = history_index t /\ history t' = history t) /\
  (0 <= history_index t < Z.of_nat (List.length (history t)) - 1 ->
   exists t',
     lookup_tab sid tid
       (snd (go_back sid otid (snd (go_forward sid otid w)))) = Some t' /\
     history_index t' = history_index t /\ history t' = history t).
Proof.
  intros Hs Hr. split; intros Hc.
  - rewrite (go_back_run sid otid w s tid t Hs Hr).
    replace (0 <? history_index t) with true by (symmetry; apply Z.ltb_lt; lia).
    cbn [snd].
    match goal with
    | |- context [go_forward sid otid
                    (set_sessions (Dict.set sid ?s1 _) ?w0)] =>
        pose (s' := s1);
        set (w1 := set_sessions (Dict.set sid s1 (sessions w)) w0)
    end.
    assert (Dict.get sid (sessions w1) = Some s') as Hs1
      by (unfold w1; cbn [sessions set_sessions]; apply get_set_same).
    assert (Dict.get tid (tabs s')
            = Some (set_history_index (history_index t - 1)
                      (set_last_used (utcnow_at O (S (tick w))) t))) as Ht1
      by (unfold s'; cbn [tabs set_tabs]; apply get_set_same).
    pose proof (resolve_tab_again s (of_opt otid) w tid t s' _ w1
                  Hr eq_refl Ht1) as Hr1.
    rewrite (go_forward_run sid otid w1 s' tid _ Hs1 Hr1).
    cbn [history history_index set_history_index set_last_used].
    replace (history_index t - 1 <? Z.of_nat (List.length (history t)) - 1)
      with true by (symmetry; apply Z.ltb_lt; lia).
    unfold lookup_tab. cbn [snd sessions set_sessions].
    rewrite get_set_same. cbn [tabs set_tabs]. rewrite get_set_same.
    eexists. split; [reflexivity|].
    cbn [history history_index set_history_index set_last_used].
    split; [lia | reflexivity].
  - rewrite (go_forward_run sid otid w s tid t Hs Hr).
    replace (history_index t <? Z.of_nat (List.length (history t)) - 1)
      with true by (symmetry; apply Z.ltb_lt; lia).
    cbn [snd].
    match goal with
    | |- context [go_back sid otid (set_sessions (Dict.set sid ?s1 _) ?w0)] =>
        pose (s' := s1);
        set (w1 := set_sessions (Dict.set sid s1 (sessions w)) w0)
    end.
    assert (Dict.get sid (sessions w1) = Some s') as Hs1
      by (unfold w1; cbn [sessions set_sessions]; apply get_set_same).
    assert (Dict.get tid (tabs s')
            = Some (set_history_index (history_index t + 1)
                      (set_last_used (utcnow_at O (S (tick w))) t))) as Ht1
      by (unfold s'; cbn [tabs set_tabs]; apply get_set_same).
    pose proof (resolve_tab_again s (of_opt otid) w tid t s' _ w1
                  Hr eq_refl Ht1) as Hr1.
    rewrite (go_back_run sid otid w1 s' tid _ Hs1 Hr1).
    cbn [history history_index set_history_index set_last_used].
    replace (0 <? history_index t + 1)
      with true by (symmetry; apply Z.ltb_lt; lia).
    unfold lookup_tab. cbn [snd sessions set_sessions].
    rewrite get_set_same. cbn [tabs set_tabs]. rewrite get_set_same.
    eexists. split; [reflexivity|].
    cbn [history history_index set_history_index set_last_used].
    split; [lia | reflexivity].
Qed.

(** ** More on navigation *)

Lemma lookup_tab_some sid tid w t :
  lookup_tab sid tid w = Some t ->
  exists s,
    Dict.get sid (sessions w) = Some s /\ Dict.get tid (tabs s) = Some t.
Proof.
  unfold lookup_tab. destruct (Dict.get sid (sessions w)) as [s|];
    [eauto | discriminate].
Qed.

Lemma ws_navigations_grow sid tid urls w s t w' :
  Dict.get sid (sessions w) = Some s ->
  Dict.get tid (tabs s) = Some t ->
  history_index t = Z.of_nat (List.length (history t)) - 1 ->
  for_each urls (fun url => ws_navigate_body sid (JStr tid) (JStr url)) w
  = (Ret tt, w') ->
  exists t',
    lookup_tab sid tid w' = Some t' /\
    List.length (history t')
    = (List.length (history t) + List.length urls)%nat /\
    history_index t' = Z.of_nat (List.length (history t')) - 1.
Proof.
  revert w s t. induction urls as [|url urls IH]; intros w s t Hs Ht Hc Hrun.
  - injection Hrun as <-. exists t. unfold lookup_tab. rewrite Hs, Ht.
    repeat split; [simpl; lia | assumption].
  - cbn [for_each] in Hrun. unfold bind in Hrun.
    destruct (ws_navigate_body sid (JStr tid) (JStr url) w) as [[[]|e] w1]
      eqn:E; [|discriminate].
    pose proof (ws_navigate_body_wp sid tid url w s t Hs Ht ltac:(lia)) as H.
    destruct (wp_elim _ _ _ _ _ H E eq_refl) as (t1 & u & Hl & [Hh Hi] & _).
    apply lookup_tab_some in Hl as (s1 & Hs1 & Ht1).
    destruct (IH w1 s1 t1 Hs1 Ht1 Hi Hrun) as (t' & Hl' & Hlen & Hidx).
    exists t'. repeat split; [assumption| |assumption].
    rewrite Hlen, Hh, length_app, firstn_all2 by lia. simpl. lia.
Qed.

(** X17. On a new tab, [k] bodies of the streaming [navigate] command that
    all return leave a history of [k] entries with the cursor on the last
    one, [k - 1]. *)
Theorem streaming_navigations_accumulate sid tid urls w s pg c u w' :
  Dict.get sid (sessions w) = Some s ->
  Dict.get tid (tabs s) = Some (fresh_tab pg c u) ->
  for_each urls (fun url => ws_navigate_body sid (JStr tid) (JStr url)) w
  = (Ret tt, w') ->
  exists t',
    lookup_tab sid tid w' = Some t' /\
    List.length (history t') = List.length urls /\
    history_index t' = Z.of_nat (List.length urls) - 1.
Proof.
  intros Hs Ht Hrun.
  destruct (ws_navigations_grow sid tid urls w s _ w' Hs Ht eq_refl Hrun)
    as (t' & Hl & Hlen & Hidx).
  exists t'. simpl in Hlen. rewrite Hidx, Hlen. auto.
Qed.

(** X18. When [page.goto] raises, the request handler [navigate] answers
    500 with the engine's message, and the history and cursor of the tab
    are as before: only the activity timestamps have moved. *)
Theorem failed_navigation_keeps_history sid url otid w s tid t msg :
  Dict.get sid (sessions w) = Some s ->
  fst (_resolve_tab s (of_opt otid) w) = Ret (tid, t) ->
  _is_internal url = false ->
  engine_at O (S (S (tick w))) = Some msg ->
  exists w',
    navigate sid url otid w = (Raise (HTTPException 500 msg), w') /\
    lookup_tab sid tid w' = Some (set_last_used (utcnow_at O (S (tick w))) t).
Proof.
  intros Hs Hr Hi He.
  enough (wp (navigate sid url otid)
            (fun r w' =>
               r = Raise (HTTPException 500 msg) /\
               lookup_tab sid tid w'
               = Some (set_last_used (utcnow_at O (S (tick w))) t)) w) as H.
  { unfold wp in H. destruct (navigate sid url otid w) as [r w'].
    cbn [fst snd] in H. destruct H as (-> & H). eauto. }
  unfold navigate, tab_ref. wp_det.
  eapply wp_run; [exact (get_page_run sid (of_opt otid) w s tid t Hs Hr)|].
  wp_fields. wp_det. rewrite Hi. wp_det. rewrite He. wp_det.
  split; [reflexivity|]. apply lookup_tab_bumped.
Qed.

(** ** The streaming [navigate] command *)

Lemma wp_send_json_any msg c (Q : outcome (conn * option exn) -> world -> Prop)
    w :
  (forall f e n, Q (Ret (add_out (msg, f) c, e)) (set_tick n w)) ->
  wp (send_json msg c) Q w.
Proof.
  intros H. unfold send_json. wp_step. wp_step.
  destruct (socket_at O (tick w)); wp_step; apply H.
Qed.

Lemma wp_send_state_any st ex c (Q : outcome conn -> world -> Prop) w :
  (forall c' n,
     last_sent_state c' = Some st ->
     is_navigating c' = is_navigating c ->
     streaming c' = streaming c ->
     conn_active_tab_id c' = conn_active_tab_id c ->
     Q (Ret c') (set_tick n w)) ->
  wp (send_state st ex c) Q w.
Proof.
  intros H. unfold send_state.
  destruct (opt_eqb (Some st) (last_sent_state c)) eqn:E.
  - apply opt_eqb_eq in E. wp_step. rewrite <- (set_tick_same w).
    apply H; auto.
  - wp_step. wp_step. wp_step. apply wp_send_json_any. intros f e n.
    wp_step. apply (H _ n); reflexivity.
Qed.

(** X20. Once the [navigate] branch of the command loop is entered with a
    truthy URL, it always leaves the connection out of the navigating
    condition and with [idle] as the last state notification requested,
    whatever the URL is and whatever the engine and the socket do: the
    [finally] clause runs on every path. *)
Theorem streaming_navigate_ends_idle sid c tab_id d url w :
  Dict.get "url" d = Some url ->
  json_truthy url = true ->
  exists r w',
    ws_navigate sid c tab_id (JDict d) w = (Ret r, w') /\
    is_navigating (conn_of r) = false /\
    last_sent_state (conn_of r) = Some "idle".
Proof.
  intros Hd Hu.
  enough (wp (ws_navigate sid c tab_id (JDict d))
            (fun r _ =>
               match r with
               | Ret r =>
                   is_navigating (conn_of r) = false /\
                   last_sent_state (conn_of r) = Some "idle"
               | Raise _ => False
               end) w) as H.
  { unfold wp in H. destruct (ws_navigate sid c tab_id (JDict d) w) as [r w'].
    cbn [fst snd] in H. destruct r as [r|e]; [eauto | contradiction]. }
  unfold ws_navigate, json_get, continue. wp_step. wp_step. wp_step.
  rewrite Hu. wp_step. apply wp_send_state_any. intros c1 n1 _ _ _ _.
  wp_step. wp_step. apply wp_any. intros r w1. wp_step.
  apply (wp_mono _ (fun r _ => exists sent, r = Ret sent)).
  { destruct r; [wp_step; eauto|]. apply wp_send_json_any. eauto. }
  intros r1 w2 [sent ->]. wp_step. apply wp_send_state_any.
  intros c2 n2 Hl Hn _ _. cbn [is_navigating set_is_navigating] in Hn.
  destruct (snd sent); wp_step; auto.
Qed.

(** X19. When the page load of the [navigate] branch of the command loop
    raises, the branch reports the engine's message on the socket with the
    tab identifier, returns to [idle], keeps the command loop running, and
    itself changes nothing in the registry: the failed visit is not
    recorded in the history of the tab. *)
Theorem streaming_navigate_reports_failure sid c tid d url w msg :
  Dict.get "url" d = Some (JStr url) ->
  url <> EmptyString ->
  _is_internal url = false ->
  (forall n, engine_at O n = Some msg) ->
  (forall n, socket_at O n = None) ->
  exists c' w',
    ws_navigate sid c (JStr tid) (JDict d) w = (Ret (Continue c'), w') /\
    sessions w' = sessions w /\
    In (MError msg (Some (JStr tid)), true) (outbox c') /\
    is_navigating c' = false /\
    last_sent_state c' = Some "idle".
Proof.
  intros Hd Hne Hi He Hsock.
  enough (wp (ws_navigate sid c (JStr tid) (JDict d))
            (fun r w' =>
               exists c',
                 r = Ret (Continue c') /\
                 sessions w' = sessions w /\
                 In (MError msg (Some (JStr tid)), true) (outbox c') /\
                 is_navigating c' = false /\
                 last_sent_state c' = Some "idle") w) as H.
  { unfold wp in H. destruct (ws_navigate sid c (JStr tid) (JDict d) w)
      as [r w']. cbn [fst snd] in H. destruct H as (c' & -> & H). eauto. }
  assert (json_truthy (JStr url) = true) as Hu.
  { simpl. now destruct (String.eqb_spec url EmptyString). }
  unfold ws_navigate, json_get, continue, ws_navigate_body, send_state,
    send_json.
  wp_step. wp_step. wp_step. rewrite Hu, Hi.
  repeat (wp_step; rewrite ?He, ?Hsock);
    repeat match goal with
    | H : opt_eqb _ _ = true |- _ =>
        apply opt_eqb_eq in H;
        cbn [last_sent_state set_is_navigating add_out set_last_sent_state]
          in H
    end;
    try congruence;
    eexists; (split; [reflexivity|]);
    cbn [outbox add_out set_last_sent_state set_is_navigating is_navigating
         last_sent_state sessions set_tick str_exn];
    (split; [reflexivity|]); (split; [|split; reflexivity]);
    rewrite !in_app_iff; simpl; auto.
Qed.

(** ** Steps of the streaming connection *)

(** X21. A [ping] command is answered with a [pong] that carries the
    clock reading, and touches nothing in the registry: no session is
    looked up and no activity timestamp moves, so pings alone do not keep
    a session from expiring.  The loop goes on when the [pong] was sent,
    and ends with the socket's exception otherwise. *)
Theorem ping_touches_nothing sid c d w :
  Dict.get "type" d = Some (JStr "ping") ->
  exists r w',
    ws_command sid c (JDict d) w = (Ret r, w') /\
    sessions w' = sessions w /\
    r = match socket_at O (S (tick w)) with
        | None => Continue (add_out (MPong (utcnow_at O (tick w)), true) c)
        | Some e =>
            Finished (add_out (MPong (utcnow_at O (tick w)), false) c)
              (Some (ExternalError e))
        end.
Proof.
  intros Hd.
  enough (wp (ws_command sid c (JDict d))
            (fun r0 w' =>
               sessions w' = sessions w /\
               r0 = Ret match socket_at O (S (tick w)) with
                        | None =>
                            Continue
                              (add_out (MPong (utcnow_at O (tick w)), true) c)
                        | Some e =>
                            Finished
                              (add_out (MPong (utcnow_at O (tick w)), false) c)
                              (Some (ExternalError e))
                        end) w) as H.
  { unfold wp in H. destruct (ws_command sid c (JDict d) w) as [r w'].
    cbn [fst snd] in H. destruct H as (H & ->). eauto. }
  unfold ws_command, json_get, send_then, send_json, continue.
  wp_step. wp_step. wp_step. cbn [json_is String.eqb Ascii.eqb Bool.eqb].
  wp_det. destruct (socket_at O (S (tick w))); wp_det; split; reflexivity.
Qed.

(** X22. While the connection is navigating, a round of the frame pump
    whose tab resolves sends nothing and leaves the connection as it is;
    the round still bumps the activity timestamps of the session and of
    the tab through [get_page], each with a clock reading of its own, and
    changes nothing else in the session. *)
Theorem pump_is_silent_while_navigating sid c w s tid t :
  is_navigating c = true ->
  Dict.get sid (sessions w) = Some s ->
  fst (_resolve_tab s (of_opt (conn_active_tab_id c)) w) = Ret (tid, t) ->
  exists w' s',
    stream_step sid c w = (Ret c, w') /\
    Dict.get sid (sessions w') = Some s' /\
    sess_last_used s' = utcnow_at O (tick w) /\
    Dict.get tid (tabs s')
      = Some (set_last_used (utcnow_at O (S (tick w))) t) /\
    (forall k, k <> tid -> Dict.get k (tabs s') = Dict.get k (tabs s)) /\
    active_tab_id s' = active_tab_id s /\
    context s' = context s /\
    sess_created_at s' = sess_created_at s.
Proof.
  intros Hn Hs Hr. unfold stream_step, bind, attempt.
  rewrite (get_page_run sid _ w s tid t Hs Hr), Hn.
  eexists _, _. split; [reflexivity|].
  cbn [sessions set_sessions]. rewrite get_set_same.
  split; [reflexivity|]. unfold bumped.
  cbn [tabs set_tabs set_sess_last_used sess_last_used active_tab_id context
       sess_created_at].
  rewrite get_set_same. repeat split.
  intros k Hk. apply get_set_other. congruence.
Qed.

(** X23. Opening a streaming connection for a session that is not
    registered accepts the socket, closes it (code 4004) and ends: no
    state notification is sent and the registry is untouched.  For a
    registered session it sends the [connected] notification with the
    session identifier and starts on the active tab of the session. *)
Theorem opening_a_connection sid w :
  (forall n, socket_at O n = None) ->
  (Dict.get sid (sessions w) = None ->
   exists w', ws_open sid w = (Ret None, w') /\ sessions w' = sessions w) /\
  (forall s,
     Dict.get sid (sessions w) = Some s ->
     exists w',
       ws_open sid w
       = (Ret (Some (mkConn true (active_tab_id s) false (Some "connected")
                       [(MState "connected" (utcnow_at O (S (tick w)))
                           (active_tab_id s) (Some sid), true)])), w') /\
       sessions w' = sessions w).
Proof.
  intros Hsock. split.
  - intros Hs.
    enough (wp (ws_open sid)
              (fun r w' => r = Ret None /\ sessions w' = sessions w) w) as H.
    { unfold wp in H. destruct (ws_open sid w) as [r w'].
      cbn [fst snd] in H. destruct H as (-> & H). eauto. }
    unfold ws_open, socket_call.
    repeat (wp_step; rewrite ?Hsock); split; reflexivity.
  - intros s Hs.
    match goal with
    | |- exists w', _ = (?r, w') /\ _ =>
        enough (wp (ws_open sid)
                  (fun r0 w' => r0 = r /\ sessions w' = sessions w) w) as H
    end.
    { unfold wp in H. destruct (ws_open sid w) as [r w'].
      cbn [fst snd] in H. destruct H as (-> & H). eauto. }
    unfold ws_open, socket_call, send_state, send_json.
    repeat (wp_step; rewrite ?Hsock); try discriminate; split; reflexivity.
Qed.

(** X24. A streaming [close_tab] command for the only tab of the session
    closes the session with it: the session leaves the registry, the
    connection sends [session_closed], closes the socket and ends its
    command loop without an exception.  When another tab remains, the
    command answers [tab_closed] with the active tab of the session, takes
    that tab as the connection's own, and the loop goes on. *)
Theorem streaming_close_tab sid c d tid w s :
  Dict.get "type" d = Some (JStr "close_tab") ->
  Dict.get "tabId" d = Some (JStr tid) ->
  tid <> EmptyString ->
  Dict.get sid (sessions w) = Some s ->
  Dict.wf (sessions w) ->
  Dict.mem tid (tabs s) = true ->
  (forall n, socket_at O n = None) ->
  (Dict.pop tid (tabs s) = [] ->
   exists w',
     ws_command sid c (JDict d) w
     = (Ret (Finished (add_out (MSessionClosed, true) c) None), w') /\
     Dict.get sid (sessions w') = None) /\
  (Dict.pop tid (tabs s) <> [] ->
   exists w' s',
     Dict.get sid (sessions w') = Some s' /\
     tabs s' = Dict.pop tid (tabs s) /\
     ws_command sid c (JDict d) w
     = (Ret (Continue
               (add_out (MTabClosed (JStr tid) (active_tab_id s'), true)
                  (set_conn_active_tab_id (active_tab_id s') c))), w')).
Proof.
  intros Hty Hid Hne Hs Hwf Hm Hsock.
  assert (json_truthy (JStr tid) = true) as Hu.
  { simpl. now destruct (String.eqb_spec tid EmptyString). }
  destruct (mgr_close_tab_run sid tid w s Hs Hm) as (w1 & Hrun & Hw1).
  split; intros Hp.
  - enough (wp (ws_command sid c (JDict d))
              (fun r w' =>
                 r = Ret (Finished (add_out (MSessionClosed, true) c) None) /\
                 Dict.get sid (sessions w') = None) w) as H.
    { unfold wp in H. destruct (ws_command sid c (JDict d) w) as [r w'].
      cbn [fst snd] in H. destruct H as (-> & H). eauto. }
    rewrite Hp in Hw1. cbn [Dict.is_empty] in Hw1.
    unfold ws_command, json_get, ws_close_tab, json_get, send_then, send_json,
      socket_call, continue.
    wp_step. wp_step. wp_step. cbn [json_is String.eqb Ascii.eqb Bool.eqb].
    wp_step. wp_step. wp_step. wp_step. wp_step. rewrite Hu.
    wp_step. wp_step. eapply wp_run; [exact Hrun|]. wp_simpl.
    wp_step. wp_step. rewrite Hw1, get_pop_same by assumption.
    repeat (wp_step; rewrite ?Hsock). split; [reflexivity|].
    cbn [sessions set_tick]. rewrite Hw1. now apply get_pop_same.
  - assert (Dict.is_empty (Dict.pop tid (tabs s)) = false) as He
      by (destruct (Dict.pop tid (tabs s)); [contradiction | reflexivity]).
    rewrite He in Hw1.
    set (s1 := set_sess_last_used (utcnow_at O (S (tick w)))
                 (without_tab tid s)) in *.
    exists (set_tick (S (tick w1)) w1), s1.
    assert (Dict.get sid (sessions w1) = Some s1) as Hs1
      by (rewrite Hw1; apply get_set_same).
    split; [exact Hs1|]. split.
    { unfold s1. cbn [tabs set_sess_last_used]. apply tabs_without_tab. }
    match goal with
    | |- _ = (?r, ?w2) =>
        enough (wp (ws_command sid c (JDict d))
                  (fun r0 w' => (r0, w') = (r, w2)) w) as H
          by (unfold wp in H; now destruct (ws_command sid c (JDict d) w))
    end.
    unfold ws_command, json_get, ws_close_tab, json_get, send_then, send_json,
      continue.
    wp_step. wp_step. wp_step. cbn [json_is String.eqb Ascii.eqb Bool.eqb].
    wp_step. wp_step. wp_step. wp_step. wp_step. rewrite Hu.
    wp_step. wp_step. eapply wp_run; [exact Hrun|]. wp_simpl.
    wp_step. wp_step.
    repeat (wp_step; rewrite ?Hsock). reflexivity.
Qed.

(** ** Text of the search page *)

Lemma replace_app c r a b :
  replace c r (a ++ b) = (replace c r a ++ replace c r b)%string.
Proof.
  induction a as [|x a IH]; simpl; [reflexivity|].
  destruct (Ascii.eqb x c); simpl; rewrite IH; [|reflexivity].
  now rewrite append_assoc.
Qed.

(** [esc] works character by character. *)
Lemma esc_cons a s :
  esc (String a s) = (esc (String a EmptyString) ++ esc s)%string.
Proof.
  unfold esc. change (String a s) with (String a EmptyString ++ s)%string.
  now rewrite !replace_app.
Qed.

Lemma esc_single a :
  esc (String a EmptyString)
  = if Ascii.eqb a "&" then "&amp;"
    else if Ascii.eqb a "<" then "&lt;"
    else if Ascii.eqb a ">" then "&gt;"
    else if Ascii.eqb a (ascii_of_nat 34) then "&quot;"
    else String a EmptyString.
Proof.
  unfold esc. cbn [replace].
  destruct (Ascii.eqb a "&") eqn:E1; [reflexivity|]. cbn [replace].
  destruct (Ascii.eqb a "<") eqn:E2; [reflexivity|]. cbn [replace].
  destruct (Ascii.eqb a ">") eqn:E3; [reflexivity|]. cbn [replace].
  now destruct (Ascii.eqb a (ascii_of_nat 34)) eqn:E4.
Qed.

Lemma list_ascii_app a b :
  list_ascii_of_string (a ++ b)
  = (list_ascii_of_string a ++ list_ascii_of_string b)%list.
Proof. induction a as [|x a IH]; simpl; [reflexivity | now rewrite IH]. Qed.

(** X25. The text [esc] produces holds no [<], no [>] and no double quote,
    whatever its argument: a value placed in the search page through
    [esc] cannot open or close a tag.  A text that holds none of [&], [<],
    [>] and the double quote comes back as it is: blanks, single quotes
    and backslashes pass through [esc]. *)
Theorem esc_leaves_no_markup s :
  (forall c,
     In c (list_ascii_of_string (esc s)) ->
     c <> "<"%char /\ c <> ">"%char /\ c <> ascii_of_nat 34) /\
  ((forall c,
      In c (list_ascii_of_string s) ->
      c <> "&"%char /\ c <> "<"%char /\ c <> ">"%char /\
      c <> ascii_of_nat 34) ->
   esc s = s).
Proof.
  split.
  - intros c. induction s as [|a s IH]; [intros []|].
    rewrite esc_cons, list_ascii_app, in_app_iff. intros [H|H]; [|auto].
    rewrite esc_single in H.
    assert (forall l : list ascii,
              In c l ->
              Forall (fun x => x <> "<"%char /\ x <> ">"%char /\
                               x <> ascii_of_nat 34) l ->
              c <> "<"%char /\ c <> ">"%char /\ c <> ascii_of_nat 34)
      as Hall.
    { intros l Hin Hl. rewrite Forall_forall in Hl. now apply Hl. }
    destruct (Ascii.eqb_spec a "&");
      [apply (Hall _ H); repeat constructor; discriminate|].
    destruct (Ascii.eqb_spec a "<");
      [apply (Hall _ H); repeat constructor; discriminate|].
    destruct (Ascii.eqb_spec a ">");
      [apply (Hall _ H); repeat constructor; discriminate|].
    destruct (Ascii.eqb_spec a (ascii_of_nat 34));
      [apply (Hall _ H); repeat constructor; discriminate|].
    apply (Hall _ H). repeat constructor; assumption.
  - induction s as [|a s IH]; intros Hs; [reflexivity|].
    rewrite esc_cons, esc_single, IH
      by (intros c Hc; apply Hs; now right).
    destruct (Hs a (or_introl eq_refl)) as (H1 & H2 & H3 & H4).
    destruct (Ascii.eqb_spec a "&"); [contradiction|].
    destruct (Ascii.eqb_spec a "<"); [contradiction|].
    destruct (Ascii.eqb_spec a ">"); [contradiction|].
    destruct (Ascii.eqb_spec a (ascii_of_nat 34)); [contradiction|].
    reflexivity.
Qed.

(** X26. [esc] loses nothing: two texts with the same escaped form are the
    same text. *)
Theorem esc_is_injective s1 s2 : esc s1 = esc s2 -> s1 = s2.
Proof.
  revert s2. induction s1 as [|a1 s1 IH]; intros [|a2 s2].
  - reflexivity.
  - rewrite esc_cons, esc_single.
    destruct (Ascii.eqb a2 "&"); [discriminate|].
    destruct (Ascii.eqb a2 "<"); [discriminate|].
    destruct (Ascii.eqb a2 ">"); [discriminate|].
    destruct (Ascii.eqb a2 (ascii_of_nat 34)); discriminate.
  - rewrite esc_cons, esc_single.
    destruct (Ascii.eqb a1 "&"); [discriminate|].
    destruct (Ascii.eqb a1 "<"); [discriminate|].
    destruct (Ascii.eqb a1 ">"); [discriminate|].
    destruct (Ascii.eqb a1 (ascii_of_nat 34)); discriminate.
  - rewrite (esc_cons a1), (esc_cons a2), !esc_single.
    destruct (Ascii.eqb_spec a1 "&") as [->|N1];
      [|destruct (Ascii.eqb_spec a1 "<") as [->|N2];
        [|destruct (Ascii.eqb_spec a1 ">") as [->|N3];
          [|destruct (Ascii.eqb_spec a1 (ascii_of_nat 34)) as [->|N4]]]];
    (destruct (Ascii.eqb_spec a2 "&") as [->|M1];
      [|destruct (Ascii.eqb_spec a2 "<") as [->|M2];
        [|destruct (Ascii.eqb_spec a2 ">") as [->|M3];
          [|destruct (Ascii.eqb_spec a2 (ascii_of_nat 34)) as [->|M4]]]]);
    simpl; intros H; try discriminate H;
      try (injection H as H; f_equal; now apply IH);
      try (injection H as Ha H; congruence).
    injection H as -> H. f_equal. now apply IH.
Qed.

Lemma prefix_shorter a b s :
  String.prefix (a ++ b) s = true -> String.prefix a s = true.
Proof.
  revert s. induction a as [|x a IH]; intros s; [now destruct s|].
  destruct s as [|y s]; simpl; [discriminate|].
  destruct (ascii_dec x y); [apply IH | discriminate].
Qed.

(** X27. The two tests on a URL agree: a URL that
    [_parse_internal_search] takes for a search page is internal for
    [_is_internal], and on a URL that is not internal
    [_parse_internal_search] answers [None] without parsing anything.
    The empty URL is neither. *)
Theorem search_urls_are_internal url :
  (forall q, _parse_internal_search url = Ret (Some q) ->
     _is_internal url = true) /\
  (_is_internal url = false -> _parse_internal_search url = Ret None) /\
  _is_internal EmptyString = false /\
  _parse_internal_search EmptyString = Ret None.
Proof.
  assert (startswith (lower url) "chrome://search" = true ->
          _is_internal url = true) as Hp.
  { unfold _is_internal, startswith.
    change "chrome://search" with ("chrome://" ++ "search")%string.
    apply prefix_shorter. }
  unfold _parse_internal_search. repeat split.
  - intros q. destruct (String.eqb url EmptyString); [discriminate|].
    destruct (startswith (lower url) "chrome://search"); [auto | discriminate].
  - intros Hi. destruct (String.eqb url EmptyString); [reflexivity|].
    destruct (startswith (lower url) "chrome://search"); [|reflexivity].
    rewrite Hp in Hi by reflexivity. discriminate.
Qed.

(** ** A search answer of an unexpected shape *)

Lemma render_malformed d items :
  (truthy (environ O "GOOGLE_CSE_API_KEY")
   && truthy (environ O "GOOGLE_CSE_CX"))%bool = true ->
  (forall n, cse_at O n = Ret (JDict d)) ->
  Dict.get "items" d = Some items ->
  (forall v, Dict.get "searchInformation" d = Some v ->
     json_truthy v = true -> exists i, v = JDict i) ->
  json_truthy items = true ->
  (forall l, items <> JList l) ->
  exists e,
    (exists m, e = AttributeError m \/ e = TypeError m) /\
    forall q w,
      _render_search_results_html q w = (Raise e, set_tick (S (tick w)) w).
Proof.
  intros Hkey Hcse Hit Hinfo Htr Hnl.
  assert (exists i,
            json_or match Dict.get "searchInformation" d with
                    | Some v => v
                    | None => JNull
                    end (JDict []) = JDict i) as [i Hi].
  { destruct (Dict.get "searchInformation" d) as [v|]; [|now exists []].
    unfold json_or. destruct (json_truthy v) eqn:Tv; [|now exists []].
    destruct (Hinfo v eq_refl Tv) as [i ->]. now exists i. }
  exists (match items with
          | JDict _ | JStr _ =>
              AttributeError "'str' object has no attribute 'get'"
          | _ => TypeError "object is not iterable"
          end).
  split; [destruct items; eauto|].
  intros q w.
  match goal with
  | |- _ = ?rhs =>
      enough (wp (_render_search_results_html q)
                (fun r w' => (r, w') = rhs) w) as H
        by (unfold wp in H; now destruct (_render_search_results_html q w))
  end.
  unfold _render_search_results_html, _google_cse_search, json_get, iter_items.
  rewrite Hkey. wp_det. rewrite Hcse. wp_det.
  rewrite Hi. wp_det.
  unfold json_or. rewrite Htr.
  destruct items as [| | | |l|]; try discriminate Htr;
    try (wp_det; reflexivity).
  now destruct (Hnl l).
Qed.

(** X28. The fallback of the search page covers the API call and the two
    readings of its answer, not the loop over the items.  When the API
    answers with a document whose [items] entry is truthy but is not a
    list, and whose [searchInformation] entry is absent, falsy or a
    dictionary (so that reading [totalResults] does not raise inside the
    [try]), [_render_search_results_html] raises, and the request handler
    [navigate] answers 500 for the search URL; the visit is not
    recorded. *)
Theorem malformed_search_answer_fails_navigation sid url otid q w s tid t d
    items :
  (truthy (environ O "GOOGLE_CSE_API_KEY")
   && truthy (environ O "GOOGLE_CSE_CX"))%bool = true ->
  (forall n, cse_at O n = Ret (JDict d)) ->
  Dict.get "items" d = Some items ->
  (forall v, Dict.get "searchInformation" d = Some v ->
     json_truthy v = true -> exists i, v = JDict i) ->
  json_truthy items = true ->
  (forall l, items <> JList l) ->
  Dict.get sid (sessions w) = Some s ->
  fst (_resolve_tab s (of_opt otid) w) = Ret (tid, t) ->
  _is_internal url = true ->
  _parse_internal_search url = Ret (Some q) ->
  (exists e w', _render_search_results_html q w = (Raise e, w')) /\
  (exists detail w',
     navigate sid url otid w = (Raise (HTTPException 500 detail), w') /\
     lookup_tab sid tid w' = Some (set_last_used (utcnow_at O (S (tick w))) t)).
Proof.
  intros Hkey Hcse Hit Hinfo Htr Hnl Hs Hr Hi Hq.
  destruct (render_malformed d items Hkey Hcse Hit Hinfo Htr Hnl)
    as (e & (m & Hm) & He).
  split; [exists e; eexists; apply He|].
  enough (wp (navigate sid url otid)
            (fun r w' =>
               (exists detail, r = Raise (HTTPException 500 detail)) /\
               lookup_tab sid tid w'
               = Some (set_last_used (utcnow_at O (S (tick w))) t)) w) as H.
  { unfold wp in H. destruct (navigate sid url otid w) as [r w'].
    cbn [fst snd] in H. destruct H as ((detail & ->) & H). eauto. }
  unfold navigate, tab_ref. wp_det.
  eapply wp_run; [exact (get_page_run sid (of_opt otid) w s tid t Hs Hr)|].
  wp_fields. wp_det. rewrite Hi, Hq. unfold lift. wp_det.
  eapply wp_run; [apply He|]. wp_fields.
  destruct Hm as [-> | ->]; wp_det; (split; [eauto | apply lookup_tab_bumped]).
Qed.

(** ** Activating a tab, and history moves over the socket *)

(** X29. [activate_tab] on a tab of the session answers [active], makes
    the tab the active one, and bumps [last_used] of the session and of
    that tab, each with a clock reading of its own.  It calls the engine
    not at all and changes nothing else: the tab's page, history and
    cursor, the other tabs, the context and the other sessions are as
    before. *)
Theorem activate_tab_sets_the_pointer sid tid w s t :
  Dict.get sid (sessions w) = Some s ->
  Dict.get tid (tabs s) = Some t ->
  exists w' s',
    activate_tab sid tid w = (Ret (Reply "active" None None (Some tid)), w') /\
    Dict.get sid (sessions w') = Some s' /\
    active_tab_id s' = Some tid /\
    sess_last_used s' = utcnow_at O (tick w) /\
    tabs s'
    = Dict.set tid (set_last_used (utcnow_at O (S (tick w))) t) (tabs s) /\
    context s' = context s /\
    sess_created_at s' = sess_created_at s /\
    tick w' = S (S (tick w)) /\
    (forall sid', sid' <> sid ->
       Dict.get sid' (sessions w') = Dict.get sid' (sessions w)).
Proof.
  intros Hs Ht.
  assert (Dict.mem tid (tabs s) = true) as Hm by (apply mem_get; eauto).
  enough (wp (activate_tab sid tid)
            (fun r w' =>
               r = Ret (Reply "active" None None (Some tid)) /\
               exists s',
                 Dict.get sid (sessions w') = Some s' /\
                 active_tab_id s' = Some tid /\
                 sess_last_used s' = utcnow_at O (tick w) /\
                 tabs s'
                 = Dict.set tid (set_last_used (utcnow_at O (S (tick w))) t)
                     (tabs s) /\
                 context s' = context s /\
                 sess_created_at s' = sess_created_at s /\
                 tick w' = S (S (tick w)) /\
                 (forall sid', sid' <> sid ->
                    Dict.get sid' (sessions w') = Dict.get sid' (sessions w)))
            w) as H.
  { unfold wp in H. destruct (activate_tab sid tid w) as [r w'].
    cbn [fst snd] in H. destruct H as (-> & s' & H). eauto. }
  unfold activate_tab, mgr_activate_tab, json_in. wp_det.
  split; [reflexivity|]. eexists. split; [reflexivity|].
  cbn [tabs set_tabs set_active_tab_id set_sess_last_used active_tab_id
       sess_last_used context sess_created_at].
  repeat split. intros sid' Hne. apply get_set_other. congruence.
Qed.

(** X30. The [back] and [forward] commands of the streaming connection do
    to the registry exactly what the request handlers [go_back] and
    [go_forward] do for the same tab: the same timestamps are bumped and
    the cursor moves, or stays at the boundary, in the same way. *)
Theorem streaming_history_moves_like_http (forward : bool) sid c d tid w s t :
  Dict.get "type" d = Some (JStr (if forward then "forward" else "back")) ->
  Dict.get "tabId" d = Some (JStr tid) ->
  tid <> EmptyString ->
  Dict.get sid (sessions w) = Some s ->
  Dict.get tid (tabs s) = Some t ->
  sessions (snd (ws_command sid c (JDict d) w))
  = sessions (snd ((if forward then go_forward else go_back) sid (Some tid) w)).
Proof.
  intros Hty Hid Hne Hs Ht.
  assert (json_truthy (JStr tid) = true) as Hu.
  { simpl. now destruct (String.eqb_spec tid EmptyString). }
  assert (forall j, json_or (JStr tid) j = JStr tid) as Hor
    by (intros j; unfold json_or; now rewrite Hu).
  assert (fst (_resolve_tab s (JStr tid) w) = Ret (tid, t)) as Hr
    by (rewrite (resolve_tab_ok s (JStr tid) w tid t); auto).
  assert (Dict.mem tid (tabs s) = true) as Hm by (apply mem_get; eauto).
  match goal with
  | |- _ = ?rhs =>
      enough (wp (ws_command sid c (JDict d))
                (fun _ w' => sessions w' = rhs) w) as H by exact H
  end.
  destruct forward.
  - rewrite (go_forward_run sid (Some tid) w s tid t Hs Hr).
    unfold ws_command, json_get, ws_history_move, continue, json_in, tab_ref.
    wp_step. wp_step. wp_step.
    cbn [json_is String.eqb Ascii.eqb Bool.eqb].
    wp_step. wp_step. rewrite Hor. wp_step. wp_step.
    eapply wp_run; [exact (get_page_run sid (JStr tid) w s tid t Hs Hr)|].
    wp_fields. wp_det. rewrite mem_set, String.eqb_refl. cbn [orb]. wp_det.
    destruct (history_index t <? Z.of_nat (List.length (history t)) - 1);
      wp_det; [|reflexivity].
    destruct (engine_at O (S (S (tick w)))); wp_det; reflexivity.
  - rewrite (go_back_run sid (Some tid) w s tid t Hs Hr).
    unfold ws_command, json_get, ws_history_move, continue, json_in, tab_ref.
    wp_step. wp_step. wp_step.
    cbn [json_is String.eqb Ascii.eqb Bool.eqb].
    wp_step. wp_step. rewrite Hor. wp_step. wp_step.
    eapply wp_run; [exact (get_page_run sid (JStr tid) w s tid t Hs Hr)|].
    wp_fields. wp_det. rewrite mem_set, String.eqb_refl. cbn [orb]. wp_det.
    destruct (0 <? history_index t); wp_det; [|reflexivity].
    destruct (engine_at O (S (S (tick w)))); wp_det; reflexivity.
Qed.

(** ** Suspension points *)

(** A loop whose bodies agree on every world runs alike. *)
Lemma for_each_ext {A} (xs : list A) (f g : A -> M unit) :
  (forall x w, f x w = g x w) ->
  forall w, for_each xs f w = for_each xs g w.
Proof.
  intros H. induction xs as [|x xs IH]; intros w; [reflexivity|].
  cbn [for_each]. unfold bind. rewrite H.
  destruct (g x w) as [[[]|e] w1]; [apply IH | reflexivity].
Qed.

(** With nothing run at the suspension point, the opened pass of the tab
    loop is [reap_tab]. *)
Lemma reap_tab_undisturbed now sid sess item w :
  reap_tab_meanwhile (fun _ _ => ret tt) now sid sess item w
  = reap_tab now sid sess item w.
Proof.
  destruct item as [tid t].
  unfold reap_tab_meanwhile, reap_tab_test, reap_tab_resume, reap_tab,
    meanwhile, deref, deref_tab, bind, gets, ret.
  cbn [fst snd].
  destruct (Dict.get sid (sessions w)) as [s|] eqn:Hs.
  - destruct (total_seconds_gt now _ TAB_TTL_SECONDS && _); [|reflexivity].
    destruct (suppress engine_ w) as [[[]|e] w1] eqn:E; [|reflexivity].
    destruct (update_session sid _ w1) as [[[]|e] w2] eqn:E2; [|reflexivity].
    assert (sessions w1 = sessions w) as H1.
    { unfold suppress, try_except, engine_, engine, bind, next_tick, ret,
        raise in E.
      cbn in E. destruct (engine_at O (tick w)); now inversion E. }
    unfold update_session, modify in E2. rewrite H1, Hs in E2.
    inversion E2; subst w2. cbn [sessions set_sessions].
    now rewrite get_set_same.
  - destruct (total_seconds_gt now _ TAB_TTL_SECONDS && _); [|reflexivity].
    destruct (suppress engine_ w) as [[[]|e] w1] eqn:E; [|reflexivity].
    destruct (update_session sid _ w1) as [[[]|e] w2] eqn:E2; [|reflexivity].
    assert (sessions w1 = sessions w) as H1.
    { unfold suppress, try_except, engine_, engine, bind, next_tick, ret,
        raise in E.
      cbn in E. destruct (engine_at O (tick w)); now inversion E. }
    unfold update_session, modify in E2. rewrite H1, Hs in E2.
    inversion E2; subst w2. now rewrite H1, Hs.
Qed.

Lemma reap_session_undisturbed now item w :
  reap_session_meanwhile (fun _ _ => ret tt) now item w
  = reap_session now item w.
Proof.
  destruct item as [sid sess].
  unfold reap_session_meanwhile, reap_session, bind.
  destruct (deref sid sess w) as [[s|e] w1]; [|reflexivity].
  now rewrite (for_each_ext (tabs s) _ (reap_tab now sid s)
                 (reap_tab_undisturbed now sid s)).
Qed.

Lemma reap_sessions_undisturbed now items w :
  reap_sessions_meanwhile (fun _ _ => ret tt) now items w
  = reap_sessions now items w.
Proof.
  revert w. induction items as [|[sid sess] r IH]; intros w; [reflexivity|].
  cbn [reap_sessions_meanwhile reap_sessions]. unfold bind.
  rewrite reap_session_undisturbed.
  destruct (reap_session now (sid, sess) w) as [[b|e] w1]; [|reflexivity].
  now rewrite IH.
Qed.

(** With nothing run at its suspension points, the opened sweep is
    [_cleanup_idle]. *)
Lemma cleanup_idle_undisturbed w :
  _cleanup_idle_meanwhile (fun _ _ => ret tt) w = _cleanup_idle w.
Proof.
  unfold _cleanup_idle_meanwhile, _cleanup_idle, bind.
  destruct (_utcnow w) as [[now|e] w1]; [|reflexivity].
  destruct (gets sessions w1) as [[ss|e] w2]; [|reflexivity].
  now rewrite reap_sessions_undisturbed.
Qed.

(** With nothing run at the suspension point, the opened [close_tab] is
    [mgr_close_tab]. *)
Lemma close_tab_undisturbed sid tab_id w :
  mgr_close_tab_meanwhile (ret tt) sid tab_id w = mgr_close_tab sid tab_id w.
Proof.
  unfold mgr_close_tab_meanwhile, close_tab_until_await,
    close_tab_from_await, mgr_close_tab, meanwhile, bind, get_session, gets,
    ret.
  cbn [fst snd].
  destruct (Dict.get sid (sessions w)) as [s|]; [|reflexivity].
  destruct (json_in tab_id (tabs s) w) as [[[tid|]|e] w1]; reflexivity.
Qed.

(** The pass of the tab loop from its [await] on removes the tab, whatever
    the session holds by then. *)
Lemma reap_tab_resume_run sid sess tid w s :
  Dict.get sid (sessions w) = Some s ->
  fst (reap_tab_resume sid sess tid w) = Ret tt /\
  sessions (snd (reap_tab_resume sid sess tid w))
  = Dict.set sid (without_tab tid s) (sessions w).
Proof.
  intros Hs.
  change (wp (reap_tab_resume sid sess tid)
            (fun r w' => r = Ret tt /\
               sessions w' = Dict.set sid (without_tab tid s) (sessions w)) w).
  unfold reap_tab_resume. wp_step. apply wp_suppress_engine. wp_simpl.
  wp_step. wp_step. wp_simpl. wp_step. wp_step. wp_simpl.
  unfold without_tab. cbn [tabs set_tabs active_tab_id].
  destruct (opt_eqb (active_tab_id s) (Some tid)); repeat wp_step; auto.
Qed.

(** The race of the reaper with [close_tab].  A session holds two tabs;
    the pass of the tab loop on the one that is idle beyond the tab TTL
    finds the session with more than one tab and is suspended; the request
    [close_tab] for the other tab is served meanwhile.  When the pass
    resumes it removes its tab, by then the only one, and the session stays
    registered without a tab. *)
Lemma reaper_race now sid sess e te k tk s w :
  Dict.get sid (sessions w) = Some s ->
  tabs s = [(e, te); (k, tk)] \/ tabs s = [(k, tk); (e, te)] ->
  e <> k ->
  total_seconds_gt now (last_used te) TAB_TTL_SECONDS = true ->
  let race :=
    reap_tab_meanwhile (fun sid _ => meanwhile (close_tab sid k))
      now sid sess (e, te) in
  fst (reap_tab_test now sid sess (e, te) w) = Ret true /\
  fst (close_tab sid k w) = Ret (Reply "closed" None None (Some k)) /\
  exists s',
    Dict.get sid (sessions (snd (race w))) = Some s' /\
    tabs s' = [] /\
    context s' = context s /\
    (active_tab_id s = Some e \/ active_tab_id s = Some k ->
     active_tab_id s' = None).
Proof.
  intros Hs Htabs Hek Hdue. cbv zeta.
  assert (String.eqb e k = false) as Eek by now apply String.eqb_neq.
  assert (String.eqb k e = false) as Eke
    by (apply String.eqb_neq; congruence).
  assert (Dict.get e (tabs s) = Some te) as He.
  { destruct Htabs as [-> | ->]; simpl;
      rewrite ?String.eqb_refl, ?Eek; reflexivity. }
  assert (Dict.mem k (tabs s) = true) as Hk.
  { unfold Dict.mem. destruct Htabs as [-> | ->]; simpl;
      rewrite ?String.eqb_refl, ?Eke; reflexivity. }
  assert (Dict.pop k (tabs s) = [(e, te)]) as Hpop.
  { destruct Htabs as [-> | ->]; simpl;
      rewrite ?String.eqb_refl, ?Eke; reflexivity. }
  assert (reap_tab_test now sid sess (e, te) w = (Ret true, w)) as Htest.
  { unfold reap_tab_test, deref, deref_tab, bind, gets, ret.
    rewrite Hs, He, Hdue.
    destruct Htabs as [-> | ->]; reflexivity. }
  destruct (mgr_close_tab_run sid k w s Hs Hk) as (w1 & Hrun & Hw1).
  rewrite Hpop in Hw1. cbn [Dict.is_empty] in Hw1.
  assert (close_tab sid k w = (Ret (Reply "closed" None None (Some k)), w1))
    as Hclose.
  { unfold close_tab, try_except, bind. now rewrite Hrun. }
  split; [now rewrite Htest|]. split; [now rewrite Hclose|].
  pose (s1 := set_sess_last_used (utcnow_at O (S (tick w))) (without_tab k s)).
  assert (Dict.get sid (sessions w1) = Some s1) as Hs1
    by (rewrite Hw1; apply get_set_same).
  destruct (reap_tab_resume_run sid sess e w1 s1 Hs1) as [_ Hres].
  exists (without_tab e s1). split.
  - unfold reap_tab_meanwhile, bind. rewrite Htest. cbn [fst].
    unfold meanwhile. cbn [snd]. rewrite Hclose. cbn [snd].
    rewrite Hres. apply get_set_same.
  - unfold s1, without_tab. cbn [tabs set_tabs active_tab_id]. rewrite Hpop.
    destruct (opt_eqb (active_tab_id s) (Some k)) eqn:Ek;
      cbn [tabs set_tabs active_tab_id set_sess_last_used set_active_tab_id
           context];
      cbn [Dict.pop Dict.first_key Dict.keys map hd_error fst opt_eqb];
      rewrite ?String.eqb_refl.
    + cbn [tabs set_tabs active_tab_id set_sess_last_used set_active_tab_id
           context Dict.first_key Dict.keys map hd_error].
      auto.
    + destruct (opt_eqb (active_tab_id s) (Some e)) eqn:Ee;
        cbn [tabs set_tabs active_tab_id set_sess_last_used set_active_tab_id
             context Dict.first_key Dict.keys map hd_error];
        repeat split; auto.
      intros [Ha | Ha]; rewrite Ha in *; cbn [opt_eqb] in *;
        rewrite String.eqb_refl in *; discriminate.
Qed.

(** What a lock-free reader finds while [close_tab] on the only tab of a
    session is suspended: the session registered, without a tab, so that a
    status request answers [Tab not found]. *)
Lemma close_tab_suspended sid tid t w s :
  Dict.get sid (sessions w) = Some s ->
  tabs s = [(tid, t)] ->
  exists w1 s1,
    close_tab_until_await sid (JStr tid) w = (Ret (s, tid), w1) /\
    Dict.get sid (sessions w1) = Some s1 /\
    tabs s1 = [] /\
    fst (get_session_status sid None w1)
    = Raise (HTTPException 404 "Tab not found").
Proof.
  intros Hs Ht.
  assert (Dict.mem tid (tabs s) = true) as Hm
    by (unfold Dict.mem; rewrite Ht; simpl; now rewrite String.eqb_refl).
  assert (Dict.pop tid (tabs s) = []) as Hp
    by (rewrite Ht; simpl; now rewrite String.eqb_refl).
  exists (set_sessions
            (Dict.set sid (set_tabs (Dict.pop tid (tabs s)) s) (sessions w))
            w),
    (set_tabs (Dict.pop tid (tabs s)) s).
  split; [|split; [|split]].
  - unfold close_tab_until_await, get_session, json_in, update_session,
      modify, bind, gets, ret.
    now rewrite Hs, Hm, Hs.
  - cbn [sessions set_sessions]. apply get_set_same.
  - cbn [tabs set_tabs]. exact Hp.
  - unfold get_session_status, get_session, bind, gets, try_except.
    cbn [sessions set_sessions]. rewrite get_set_same.
    rewrite (get_page_fails sid JNull _ (set_tabs (Dict.pop tid (tabs s)) s)
               (KeyError "Tab not found")).
    + reflexivity.
    + cbn [sessions set_sessions]. apply get_set_same.
    + unfold _resolve_tab. cbn [tabs set_tabs active_tab_id of_opt].
      rewrite Hp. unfold json_or. cbn [json_truthy].
      destruct (active_tab_id s) as [a|]; [|reflexivity].
      cbn [of_opt json_truthy].
      destruct (String.eqb a EmptyString); reflexivity.
Qed.

End Model.

(** * The handlers on concrete inputs *)

Lemma one_tab_reached : snd (mgr_create_session calm init_world) = one_tab.
Proof. vm_compute. reflexivity. Qed.

Lemma two_tabs_reached : snd (mgr_create_tab calm "c" one_tab) = two_tabs.
Proof. vm_compute. reflexivity. Qed.

(** C1. The request handler [navigate] answers [navigated] for an internal
    page other than the search page and leaves the history of the tab
    empty and its cursor at [-1], where the claim has one entry and the
    cursor [0]; the [navigate] command of the streaming connection, given
    the same tab and URL, records the URL. *)
Theorem http_navigate_internal_page_not_recorded :
  let r :=
    navigate calm sample_first_q sample_str_json
      "c" "chrome://settings" None one_tab in
  let r' :=
    ws_navigate_body calm sample_first_q sample_str_json
      "c" (JStr "e") (JStr "chrome://settings") one_tab in
  fst r = Ret (Reply "navigated" (Some "chrome://settings")
                 (Some "Internal page") (Some "e")) /\
  option_map history (lookup_tab "c" "e" (snd r)) = Some [] /\
  option_map history_index (lookup_tab "c" "e" (snd r)) = Some (-1) /\
  fst r' = Ret tt /\
  option_map history (lookup_tab "c" "e" (snd r'))
    = Some ["chrome://settings"] /\
  option_map history_index (lookup_tab "c" "e" (snd r')) = Some 0.
Proof. vm_compute. repeat split. Qed.

(** C2. A registered session without a tab is observable, in two ways.
    While [close_tab] on the only tab of a session is suspended at its
    [await tab["page"].close()], the tab has left the session and the
    session is still registered: a status request served at that point
    answers [Tab not found], where it answers [Session not found] once
    [close_tab] has gone on to its cascade.  And a sweep of the reaper
    during which a [close_tab] request is served (the race of the next
    theorem) leaves the session registered without a tab for good: the
    invariant that holds before the sweep fails after it, with no
    coroutine left in flight, and a later sweep changes nothing. *)
Theorem session_without_tabs_is_observable :
  let status := get_session_status calm "c" None in
  let suspended := close_tab_until_await "c" (JStr "e") one_tab in
  let finished :=
    mgr_close_tab_meanwhile calm status "c" (JStr "e") one_tab in
  let sweep :=
    _cleanup_idle_meanwhile calm 1800 5
      (fun sid tid =>
         if String.eqb tid "e" then meanwhile (close_tab calm sid "k")
         else ret tt)
      two_tabs in
  all_sessions has_tab one_tab /\
  option_map tabs (Dict.get "c" (sessions (snd suspended))) = Some [] /\
  fst (status (snd suspended)) = Raise (HTTPException 404 "Tab not found") /\
  fst finished = Ret tt /\
  Dict.get "c" (sessions (snd finished)) = None /\
  fst (status (snd finished))
  = Raise (HTTPException 404 "Session not found") /\
  all_sessions has_tab two_tabs /\
  fst sweep = Ret tt /\
  ~ all_sessions has_tab (snd sweep) /\
  option_map tabs (Dict.get "c" (sessions (snd sweep))) = Some [] /\
  fst (status (snd sweep)) = Raise (HTTPException 404 "Tab not found") /\
  option_map tabs
    (Dict.get "c" (sessions (snd (_cleanup_idle calm 1800 5 (snd sweep)))))
  = Some [].
Proof.
  vm_compute. repeat split; try (repeat constructor; discriminate).
  intros H. inversion H as [|? ? H1 _]. now apply H1.
Qed.

(** C8. The reaper removes the only tab of a session.  With a tab TTL of
    five seconds, the session [c] of [two_tabs] holds the tab [e], idle
    for eight seconds, and the tab [k].  The pass of the tab loop on [e]
    finds [e] expired and two tabs in the session, and is suspended at its
    [await tab["page"].close()].  The request [close_tab] for [k] is
    served meanwhile and leaves [e] as the only tab.  The pass resumes and
    pops [e], although the test made now would spare it: the session stays
    registered with no tab and no active tab, and nothing cascades into
    [close_session].  The whole sweep, run with that request served at
    that point, ends in this registry. *)
Theorem reaper_removes_a_sole_tab :
  let sess :=
    mkSession 3
      [("e", mkTab 5 6000000 7000000 [] (-1));
       ("k", mkTab 11 12000000 13000000 [] (-1))]
      (Some "k") 8000000 14000000 in
  let item := ("e", mkTab 5 6000000 7000000 [] (-1)) in
  let now := utcnow_at calm (tick two_tabs) in
  let started := set_tick (S (tick two_tabs)) two_tabs in
  let tested := reap_tab_test 5 now "c" sess item started in
  let closed := close_tab calm "c" "k" (snd tested) in
  let resumed := reap_tab_resume calm "c" sess "e" (snd closed) in
  let sweep :=
    _cleanup_idle_meanwhile calm 1800 5
      (fun sid tid =>
         if String.eqb tid "e" then meanwhile (close_tab calm sid "k")
         else ret tt)
      two_tabs in
  Dict.get "c" (sessions two_tabs) = Some sess /\
  fst tested = Ret true /\
  fst closed = Ret (Reply "closed" None None (Some "k")) /\
  option_map (fun s => Dict.keys (tabs s))
    (Dict.get "c" (sessions (snd closed))) = Some ["e"] /\
  fst (reap_tab_test 5 now "c" sess item (snd closed)) = Ret false /\
  fst resumed = Ret tt /\
  option_map tabs (Dict.get "c" (sessions (snd resumed))) = Some [] /\
  fst sweep = Ret tt /\
  sessions (snd sweep) = sessions (snd resumed) /\
  sessions (snd sweep) = [("c", mkSession 3 [] None 8000000 17000000)].
Proof. vm_compute. repeat split. Qed.

(** C3. With the search API out of reach, the navigation to the search
    page for the query [hello world] answers [navigated] and the renderer
    returns the fallback page, as the claim has it.  The anchor of that
    page is however no link to the web search on the query.  Its [href] is
    written between backslash-quote pairs: nowhere in the page is [href=]
    followed by a quote or by the address, so the value as HTML delimits
    it starts with a backslash and ends at the first blank.  And the query
    stands in it as typed, with its blank, not encoded for a URL. *)
Theorem fallback_anchor_is_malformed :
  let url := "chrome://search?q=hello world" in
  let r := navigate calm sample_first_q sample_str_json "c" url None one_tab in
  let page :=
    fallback_head ++ nl
    ++ "    <a href=\" ++ dq ++ "https://www.google.com/search?q=hello world\"
    ++ dq ++ " target=\" ++ dq ++ "_blank\" ++ dq
    ++ ">Open Google search</a>" ++ nl ++ fallback_tail in
  _parse_internal_search sample_first_q url = Ret (Some "hello world") /\
  fst r = Ret (Reply "navigated" (Some url) (Some "Search: hello world")
                 (Some "e")) /\
  fst (_render_search_results_html calm sample_str_json "hello world" one_tab)
  = Ret page /\
  contains ("href=" ++ dq) page = false /\
  contains "href='" page = false /\
  contains "href=h" page = false /\
  contains "hello%20world" page = false /\
  contains "hello+world" page = false.
Proof. vm_compute. repeat split. Qed.

Lemma undisturbed_session_owns_a_tab_witness :
  all_sessions has_tab
    (run_op calm 1800 1800 sample_first_q sample_str_json sample_py_int
       (OpCloseTab "c" "e") two_tabs) /\
  exists w',
    mgr_close_tab calm "c" (JStr "e") one_tab = (Ret tt, w') /\
    sessions w' = Dict.pop "c" (sessions one_tab) /\
    (Dict.wf (sessions one_tab) -> Dict.get "c" (sessions w') = None).
Proof.
  pose proof (undisturbed_session_owns_a_tab calm 1800 1800 sample_first_q
                sample_str_json sample_py_int) as (H1 & _ & H3).
  split.
  - apply H1. constructor; [simpl; discriminate | constructor].
  - apply (H3 "c" "e" one_tab _ eq_refl); reflexivity.
Defined.

Lemma cursor_within_history_witness :
  all_tabs cursor_ok
    (run_op calm 1800 1800 sample_first_q sample_str_json sample_py_int
       (OpBack "c" None) visited) /\
  exists s t,
    Dict.get "c" (sessions two_tabs) = Some s /\
    Dict.get "k" (tabs s) = Some t /\
    history t = [] /\ history_index t = -1.
Proof.
  pose proof (cursor_within_history calm 1800 1800 sample_first_q
                sample_str_json sample_py_int) as (H1 & _ & H3).
  split.
  - apply H1. constructor; [|constructor].
    constructor; [|constructor]. unfold cursor_ok. simpl. lia.
  - apply (H3 "c" one_tab "k" two_tabs). vm_compute. reflexivity.
Defined.

Lemma active_tab_is_live_witness :
  all_sessions active_ok
    (run_op calm 1800 1800 sample_first_q sample_str_json sample_py_int
       OpReap two_tabs) /\
  (exists w' s' k,
     mgr_close_tab calm "c" (JStr "k") two_tabs = (Ret tt, w') /\
     Dict.get "c" (sessions w') = Some s' /\
     tabs s' = Dict.pop "k" [("e", mkTab 5 6000000 7000000 [] (-1));
                            ("k", mkTab 11 12000000 13000000 [] (-1))] /\
     Dict.first_key (tabs s') = Some k /\
     active_tab_id s' = Some k /\ Dict.mem k (tabs s') = true) /\
  mgr_activate_tab calm "c" (JStr "zz") two_tabs
    = (Raise (KeyError "Tab not found"), two_tabs).
Proof.
  pose proof (active_tab_is_live calm 1800 1800 sample_first_q
                sample_str_json sample_py_int)
    as (H1 & _ & _ & H4 & _ & H6).
  split; [|split].
  - apply H1. constructor; [|constructor].
    intros _. exists "k". split; reflexivity.
  - apply (H4 "c" "k" two_tabs _ eq_refl); [reflexivity | reflexivity |].
    simpl. discriminate.
  - apply (H6 "c" "zz" two_tabs _ eq_refl). reflexivity.
Defined.

Lemma create_session_one_active_tab_witness :
  exists sid tid w',
    mgr_create_session calm init_world = (Ret (sid, tid), w').
Proof.
  apply (create_session_one_active_tab calm init_world).
  - unfold launched. simpl. intros H. exact H.
  - intros n _. reflexivity.
Defined.

Lemma back_forward_move_cursor_witness :
  exists t',
    lookup_tab "c" "e" (snd (go_back calm "c" None visited)) = Some t' /\
    history t' = ["https://a.example/"; "https://b.example/"] /\
    history_index t' = 0.
Proof.
  destruct (back_forward_move_cursor calm "c" None visited _ "e" _
              eq_refl eq_refl) as [(t' & Hl & Hh & _ & Hpos) _].
  exists t'. split; [exact Hl|]. split; [exact Hh|].
  destruct Hpos as [Hi _]; [simpl; lia | exact Hi].
Defined.

Lemma undisturbed_reaper_keeps_sole_tab_witness :
  sessions
    (snd (reap_tab calm 0 1000000000000 "c"
            (mkSession 3 [("e", mkTab 5 6000000 7000000 [] (-1))] (Some "e")
               8000000 9000000)
            ("e", mkTab 5 6000000 7000000 [] (-1)) one_tab))
  = sessions one_tab.
Proof.
  pose proof (undisturbed_reaper_keeps_sole_tab calm 0 0) as (_ & H2 & _).
  apply (H2 1000000000000 "c" _ _ one_tab _ eq_refl). reflexivity.
Defined.

Lemma close_tab_frame_witness :
  exists w' s',
    mgr_close_tab calm "c" (JStr "e") two_tabs = (Ret tt, w') /\
    Dict.get "c" (sessions w') = Some s' /\
    active_tab_id s' = Some "k" /\
    Dict.get "k" (tabs s') = Some (mkTab 11 12000000 13000000 [] (-1)) /\
    Dict.get "e" (tabs s') = None.
Proof.
  destruct (close_tab_frame calm "c" "e" two_tabs _ eq_refl)
    as (w' & s' & Hrun & Hs & Ha & _ & _ & _ & Hk & He & _).
  - reflexivity.
  - simpl. discriminate.
  - simpl. discriminate.
  - exists w', s'. split; [exact Hrun|]. split; [exact Hs|].
    split; [exact Ha|]. split.
    + rewrite Hk; [reflexivity | discriminate].
    + apply He. repeat constructor; simpl; intuition discriminate.
Defined.

Lemma search_survives_api_failure_witness :
  (forall w0,
     fst (_render_search_results_html calm sample_str_json "hello" w0)
     = Ret (fallback_page "hello")) /\
  fallback_page "hello"
  = fallback_head ++ nl
    ++ "    <a href=\" ++ dq ++ "https://www.google.com/search?q=hello\"
    ++ dq ++ " target=\" ++ dq ++ "_blank\" ++ dq
    ++ ">Open Google search</a>" ++ nl ++ fallback_tail /\
  (exists w',
     navigate calm sample_first_q sample_str_json
       "c" "chrome://search?q=hello" None one_tab
     = (Ret (Reply "navigated" (Some "chrome://search?q=hello")
               (Some "Search: hello") (Some "e")), w')) /\
  (exists w',
     ws_navigate_body calm sample_first_q sample_str_json
       "c" (JStr "e") (JStr "chrome://search?q=hello") one_tab
     = (Ret tt, w')).
Proof.
  eapply (search_survives_api_failure calm sample_first_q sample_str_json
            "c" "chrome://search?q=hello" None "hello" one_tab _ "e").
  - left. reflexivity.
  - intros n. reflexivity.
  - reflexivity.
  - reflexivity.
  - reflexivity.
  - reflexivity.
Defined.

Lemma state_notifications_deduplicated_witness :
  no_repeat
    (states_of
       (delivered
          (outbox
             (match
                fst (send_states calm
                       [("navigating", None); ("navigating", None);
                        ("idle", None)]
                       (mkConn true (Some "e") false None []) one_tab)
              with
              | Ret c' => c'
              | Raise _ => mkConn true (Some "e") false None []
              end)))).
Proof.
  pose proof (state_notifications_deduplicated calm sample_first_q
                sample_str_json sample_py_int) as (_ & _ & _ & H4).
  eapply (H4 (fun n m _ H => H)
             [("navigating", None); ("navigating", None); ("idle", None)]
             true (Some "e") false one_tab).
  vm_compute. reflexivity.
Defined.

(** ** Further runs *)

Example esc_escapes :
  esc ("a&b <c> " ++ dq ++ "d" ++ dq) = "a&amp;b &lt;c&gt; &quot;d&quot;".
Proof. reflexivity. Qed.

Example strip_strips : strip "  two words  " = "two words".
Proof. reflexivity. Qed.

Example is_internal_ignores_case :
  _is_internal "CHROME://Settings" = true /\
  _is_internal "https://chrome.example/" = false.
Proof. split; reflexivity. Qed.

Example parse_internal_search_cases :
  _parse_internal_search sample_first_q "chrome://search?q=hello"
    = Ret (Some "hello") /\
  _parse_internal_search sample_first_q "chrome://settings" = Ret None.
Proof. split; reflexivity. Qed.

(** A sweep with a tab TTL of one second over a session whose two tabs are
    both idle for longer: the first tab goes, the second is then alone and
    stays. *)
Example sweep_keeps_last_tab :
  option_map (fun s => (Dict.keys (tabs s), active_tab_id s))
    (Dict.get "c" (sessions (snd (_cleanup_idle calm 1800 1 two_tabs))))
  = Some (["k"], Some "k").
Proof. vm_compute. reflexivity. Qed.

(** When the engine raises in [page.go_back()] the request fails, and the
    cursor has moved already. *)
Example go_back_engine_raises :
  let r := go_back (engine_down_from 12) "c" None visited in
  fst r = Raise (ExternalError "Target closed") /\
  option_map history_index (lookup_tab "c" "e" (snd r)) = Some 0.
Proof. vm_compute. split; reflexivity. Qed.

(** Three navigations over the streaming connection on a new tab: three
    entries, cursor 2; then back twice and a fourth navigation: the two
    entries after the cursor are dropped. *)
Example streaming_history :
  let nav url w :=
    snd (ws_command calm sample_first_q sample_str_json sample_py_int "c"
           (mkConn true (Some "e") false None [])
           (JDict [("type", JStr "navigate"); ("url", JStr url)]) w) in
  let back w :=
    snd (ws_command calm sample_first_q sample_str_json sample_py_int "c"
           (mkConn true (Some "e") false None [])
           (JDict [("type", JStr "back")]) w) in
  let w3 := nav "chrome://c" (nav "chrome://search?q=b" (nav "https://a/" one_tab)) in
  let w4 := nav "chrome://d" (back (back w3)) in
  option_map (fun t => (history t, history_index t)) (lookup_tab "c" "e" w3)
    = Some (["https://example.org/"; "chrome://search?q=b"; "chrome://c"], 2) /\
  option_map (fun t => (history t, history_index t)) (lookup_tab "c" "e" w4)
    = Some (["https://example.org/"; "chrome://d"], 1).
Proof. vm_compute. split; reflexivity. Qed.

(** ** Runs of the further properties *)

Lemma two_sessions_reached :
  snd (mgr_create_session calm one_tab) = two_sessions.
Proof. vm_compute. reflexivity. Qed.

Lemma sessions_are_isolated_witness :
  Dict.get "k"
    (sessions
       (run_op calm 1800 1800 sample_first_q sample_str_json sample_py_int
          (OpCloseTab "c" "e") two_sessions))
  = Dict.get "k" (sessions two_sessions).
Proof.
  apply (sessions_are_isolated calm 1800 1800 sample_first_q sample_str_json
           sample_py_int (OpCloseTab "c" "e") "c" "k").
  - reflexivity.
  - discriminate.
Defined.

Lemma closed_sessions_stay_closed_witness :
  Dict.get "zz"
    (sessions
       (run_op calm 1800 1800 sample_first_q sample_str_json sample_py_int
          OpReap two_sessions))
  = None.
Proof.
  apply (closed_sessions_stay_closed calm 1800 1800 sample_first_q
           sample_str_json sample_py_int OpReap "zz" two_sessions).
  - discriminate.
  - reflexivity.
Defined.

Lemma reaper_tab_phase_witness :
  exists s',
    Dict.get "c"
      (sessions
         (snd (reap_session calm 1800 5 15000000
                 ("c", mkSession 3 [] None 0 0) two_tabs))) = Some s' /\
    tabs s' = [("k", mkTab 11 12000000 13000000 [] (-1))] /\
    active_tab_id s' = Some "k".
Proof.
  destruct (reaper_tab_phase calm 1800 5 15000000 "c"
              (mkSession 3 [] None 0 0) two_tabs _ eq_refl)
    as (s' & H1 & H2 & H3 & _).
  - repeat constructor; simpl; intuition discriminate.
  - exists s'. split; [exact H1|]. split; [rewrite H2; reflexivity|].
    rewrite (H3 "k" eq_refl eq_refl), H2. reflexivity.
Defined.

Lemma reaper_sweep_witness :
  fst (_cleanup_idle calm 5 5 two_sessions) = Ret tt /\
  Dict.get "c" (sessions (snd (_cleanup_idle calm 5 5 two_sessions))) = None /\
  exists s',
    Dict.get "k" (sessions (snd (_cleanup_idle calm 5 5 two_sessions)))
    = Some s' /\
    tabs s' = [("m", mkTab 13 14000000 15000000 [] (-1))].
Proof.
  destruct (reaper_sweep calm 5 5 two_sessions) as [H1 H2].
  - repeat constructor; simpl; intuition discriminate.
  - repeat constructor; simpl; intuition discriminate.
  - split; [exact H1|]. split; [exact (H2 "c" _ eq_refl)|].
    destruct (H2 "k" _ eq_refl) as (s' & Hs & Ht & _).
    exists s'. split; [exact Hs | exact Ht].
Defined.

Lemma unknown_session_is_404_witness :
  navigate calm sample_first_q sample_str_json
    "zz" "https://example.org/" None one_tab
  = (Raise (HTTPException 404 "Session not found"), one_tab) /\
  close_tab calm "zz" "e" one_tab
  = (Raise (HTTPException 404 "'Session not found'"), one_tab).
Proof.
  destruct (unknown_session_is_404 calm sample_first_q sample_str_json
              "zz" "e" "https://example.org/" None one_tab eq_refl)
    as (_ & _ & H3 & _ & _ & H6 & _).
  split; [exact H6 | exact H3].
Defined.

Lemma unknown_tab_is_404_witness :
  go_back calm "c" (Some "zz") one_tab
  = (Raise (HTTPException 404 "Session or tab not found"), one_tab) /\
  get_session_status calm "c" (Some "zz") one_tab
  = (Raise (HTTPException 404 "Tab not found"), one_tab).
Proof.
  destruct (unknown_tab_is_404 calm sample_first_q sample_str_json
              "c" "zz" "https://example.org/" one_tab _ eq_refl eq_refl)
    as (_ & _ & H3 & _ & H5 & _).
  - discriminate.
  - split; [exact H5 | exact H3].
Defined.

Lemma failed_launch_is_permanent_witness :
  exists w',
    create_session (engine_down_from 1) init_world
    = (Raise (HTTPException 500 "Target closed"), w') /\
    playwright w' = Some 0%nat /\ browser w' = None /\
    exists w'',
      create_session (engine_down_from 1) w'
      = (Raise (HTTPException 500 "Playwright browser not initialized"), w'').
Proof.
  destruct (failed_launch_is_permanent (engine_down_from 1) init_world)
    as [H _].
  destruct (H "Target closed" eq_refl eq_refl eq_refl)
    as (w' & Hrun & _ & Hp & Hb).
  exists w'. split; [exact Hrun|]. split; [exact Hp|]. split; [exact Hb|].
  destruct (failed_launch_is_permanent (engine_down_from 1) w') as [_ H2].
  destruct (H2 0%nat Hp Hb) as (w'' & Hrun' & _). now exists w''.
Defined.

Lemma create_tab_all_or_nothing_witness :
  match create_tab calm "c" one_tab with
  | (Ret (CreateTabResponse tid), w') =>
      exists s' t,
        Dict.get "c" (sessions w') = Some s' /\
        tabs s' = Dict.set tid t [("e", mkTab 5 6000000 7000000 [] (-1))] /\
        history t = [] /\ history_index t = -1 /\
        active_tab_id s' = Some tid
  | (Ret _, _) => False
  | (Raise e, w') => sessions w' = sessions one_tab
  end.
Proof.
  pose proof (create_tab_all_or_nothing calm "c" one_tab _ eq_refl) as H.
  destruct (create_tab calm "c" one_tab) as [[[]|e] w']; try exact H.
  - destruct H as (s' & t & H1 & H2 & H3 & H4 & H5 & _).
    exists s', t. repeat split; assumption.
  - exact (proj1 H).
Defined.

Lemma close_session_always_closes_witness :
  exists w',
    close_session (engine_down_from 0) "c" one_tab
    = (Ret (Reply "closed" None None None), w') /\
    sessions w' = [].
Proof.
  destruct (close_session_always_closes (engine_down_from 0) "c" one_tab _
              eq_refl) as (w' & Hrun & Hs & _).
  exists w'. split; [exact Hrun | exact Hs].
Defined.

Lemma get_page_resolves_and_bumps_witness :
  exists w' s',
    get_page calm "c" (of_opt None) two_tabs = (Ret ("k", 11%nat), w') /\
    Dict.get "c" (sessions w') = Some s' /\
    sess_last_used s' = 15000000 /\
    Dict.get "k" (tabs s') = Some (mkTab 11 12000000 16000000 [] (-1)) /\
    Dict.get "e" (tabs s') = Some (mkTab 5 6000000 7000000 [] (-1)).
Proof.
  destruct (get_page_resolves_and_bumps calm "c" None two_tabs _ "k"
              (mkTab 11 12000000 13000000 [] (-1)) eq_refl eq_refl)
    as (w' & s' & H1 & H2 & H3 & H4 & H5 & _).
  - discriminate.
  - reflexivity.
  - exists w', s'. split; [exact H1|]. split; [exact H2|].
    split; [exact H3|]. split; [exact H4|].
    rewrite H5; [reflexivity | discriminate].
Defined.

Lemma status_predicts_back_and_forward_witness :
  (exists w',
     get_session_status calm "c" None visited
     = (Ret (SessionStatusResponse "c" (Some "e") "https://example.org/"
               "Example Domain" true false), w')) /\
  fst (go_forward calm "c" None visited)
  = Ret (Reply "no_forward_history" None None (Some "e")).
Proof.
  destruct (status_predicts_back_and_forward calm "c" None visited _ "e" _
              eq_refl eq_refl eq_refl) as (H1 & _ & _ & H4 & _).
  split; [exact H1 | exact (H4 eq_refl)].
Defined.

Lemma back_and_forward_cancel_witness :
  exists t',
    lookup_tab "c" "e"
      (snd (go_forward calm "c" None (snd (go_back calm "c" None visited))))
    = Some t' /\
    history_index t' = 1 /\
    history t' = ["https://a.example/"; "https://b.example/"].
Proof.
  destruct (back_and_forward_cancel calm "c" None visited _ "e" _
              eq_refl eq_refl) as [H _].
  apply H. simpl. lia.
Defined.

Lemma navigate_records_witness :
  exists t' u,
    lookup_tab "c" "e"
      (snd (navigate calm sample_first_q sample_str_json
              "c" "https://a.example/" None visited)) = Some t' /\
    recorded
      (mkTab 5 6000000 7000000 ["https://a.example/"; "https://b.example/"] 1)
      u t' /\
    exists n, u = page_url_at calm n.
Proof.
  apply (navigate_records calm sample_first_q sample_str_json
           "c" "https://a.example/" None visited _ "e" _
           (Reply "navigated" (Some "https://example.org/")
              (Some "Example Domain") (Some "e"))
           _ eq_refl eq_refl).
  - simpl. lia.
  - left. reflexivity.
  - reflexivity.
Defined.

Lemma ws_navigate_records_witness :
  exists t' u,
    lookup_tab "c" "e"
      (snd (ws_navigate_body calm sample_first_q sample_str_json
              "c" (JStr "e") (JStr "chrome://settings") one_tab)) = Some t' /\
    recorded (mkTab 5 6000000 7000000 [] (-1)) u t' /\
    u = "chrome://settings".
Proof.
  apply (ws_navigate_records calm sample_first_q sample_str_json
           "c" "e" "chrome://settings" one_tab _ _ _ eq_refl eq_refl).
  - simpl. lia.
  - reflexivity.
Defined.

Lemma streaming_navigations_accumulate_witness :
  exists t',
    lookup_tab "c" "e"
      (snd (for_each ["https://a.example/"; "chrome://settings";
                      "chrome://search?q=x"]
              (fun url =>
                 ws_navigate_body calm sample_first_q sample_str_json
                   "c" (JStr "e") (JStr url))
              one_tab)) = Some t' /\
    List.length (history t') = 3%nat /\
    history_index t' = 2.
Proof.
  apply (streaming_navigations_accumulate calm sample_first_q sample_str_json
           "c" "e"
           ["https://a.example/"; "chrome://settings"; "chrome://search?q=x"]
           one_tab _ 5%nat 6000000 7000000
           (snd (for_each ["https://a.example/"; "chrome://settings";
                           "chrome://search?q=x"]
                   (fun url =>
                      ws_navigate_body calm sample_first_q sample_str_json
                        "c" (JStr "e") (JStr url))
                   one_tab))
           eq_refl eq_refl).
  reflexivity.
Defined.

Lemma failed_navigation_keeps_history_witness :
  exists w',
    navigate (engine_down_from 12) sample_first_q sample_str_json
      "c" "https://c.example/" None visited
    = (Raise (HTTPException 500 "Target closed"), w') /\
    lookup_tab "c" "e" w'
    = Some (mkTab 5 6000000 11000000
              ["https://a.example/"; "https://b.example/"] 1).
Proof.
  apply (failed_navigation_keeps_history (engine_down_from 12)
           sample_first_q sample_str_json
           "c" "https://c.example/" None visited _ "e" _ "Target closed"
           eq_refl eq_refl eq_refl eq_refl).
Defined.

Lemma streaming_navigate_reports_failure_witness :
  exists c' w',
    ws_navigate (engine_down_from 0) sample_first_q sample_str_json
      "c" (mkConn true (Some "e") false None []) (JStr "e")
      (JDict [("type", JStr "navigate"); ("url", JStr "https://c.example/")])
      visited
    = (Ret (Continue c'), w') /\
    sessions w' = sessions visited /\
    In (MError "Target closed" (Some (JStr "e")), true) (outbox c') /\
    is_navigating c' = false /\
    last_sent_state c' = Some "idle".
Proof.
  apply (streaming_navigate_reports_failure (engine_down_from 0)
           sample_first_q sample_str_json
           "c" (mkConn true (Some "e") false None []) "e"
           [("type", JStr "navigate"); ("url", JStr "https://c.example/")]
           "https://c.example/" visited "Target closed" eq_refl).
  - discriminate.
  - reflexivity.
  - intros n. reflexivity.
  - intros n. reflexivity.
Defined.

Lemma streaming_navigate_ends_idle_witness :
  exists r w',
    ws_navigate (engine_down_from 0) sample_first_q sample_str_json
      "c" (mkConn true (Some "e") false None []) (JStr "e")
      (JDict [("type", JStr "navigate"); ("url", JNum 7)]) one_tab
    = (Ret r, w') /\
    is_navigating (conn_of r) = false /\
    last_sent_state (conn_of r) = Some "idle".
Proof.
  apply (streaming_navigate_ends_idle (engine_down_from 0)
           sample_first_q sample_str_json
           "c" (mkConn true (Some "e") false None []) (JStr "e")
           [("type", JStr "navigate"); ("url", JNum 7)] (JNum 7)
           one_tab eq_refl eq_refl).
Defined.

Lemma ping_touches_nothing_witness :
  exists r w',
    ws_command calm sample_first_q sample_str_json sample_py_int
      "gone" (mkConn true (Some "e") false None [])
      (JDict [("type", JStr "ping")]) one_tab = (Ret r, w') /\
    sessions w' = sessions one_tab /\
    r = Continue (mkConn true (Some "e") false None
                    [(MPong 10000000, true)]).
Proof.
  apply (ping_touches_nothing calm sample_first_q sample_str_json
           sample_py_int "gone" (mkConn true (Some "e") false None [])
           [("type", JStr "ping")] one_tab eq_refl).
Defined.

Lemma pump_is_silent_while_navigating_witness :
  exists w' s',
    stream_step calm "c"
      (mkConn true (Some "e") true (Some "navigating") []) one_tab
    = (Ret (mkConn true (Some "e") true (Some "navigating") []), w') /\
    Dict.get "c" (sessions w') = Some s' /\
    sess_last_used s' = 10000000 /\
    Dict.get "e" (tabs s') = Some (mkTab 5 6000000 11000000 [] (-1)) /\
    (forall k,
       k <> "e" ->
       Dict.get k (tabs s')
       = Dict.get k [("e", mkTab 5 6000000 7000000 [] (-1))]) /\
    active_tab_id s' = Some "e" /\
    context s' = 3%nat /\
    sess_created_at s' = 8000000.
Proof.
  apply (pump_is_silent_while_navigating calm "c"
           (mkConn true (Some "e") true (Some "navigating") []) one_tab
           (mkSession 3 [("e", mkTab 5 6000000 7000000 [] (-1))] (Some "e")
              8000000 9000000)
           "e" (mkTab 5 6000000 7000000 [] (-1)) eq_refl eq_refl eq_refl).
Defined.

Lemma opening_a_connection_witness :
  (exists w',
     ws_open calm "gone" one_tab = (Ret None, w') /\
     sessions w' = sessions one_tab) /\
  (exists w',
     ws_open calm "c" one_tab
     = (Ret (Some (mkConn true (Some "e") false (Some "connected")
                     [(MState "connected" 11000000 (Some "e") (Some "c"),
                       true)])), w') /\
     sessions w' = sessions one_tab).
Proof.
  split.
  - destruct (opening_a_connection calm "gone" one_tab
                (fun n => eq_refl)) as [H _].
    exact (H eq_refl).
  - destruct (opening_a_connection calm "c" one_tab
                (fun n => eq_refl)) as [_ H].
    exact (H _ eq_refl).
Defined.

Lemma streaming_close_tab_witness :
  exists w',
    ws_command calm sample_first_q sample_str_json sample_py_int
      "c" (mkConn true (Some "e") false None [])
      (JDict [("type", JStr "close_tab"); ("tabId", JStr "e")]) one_tab
    = (Ret (Finished (mkConn true (Some "e") false None
                        [(MSessionClosed, true)]) None), w') /\
    Dict.get "c" (sessions w') = None.
Proof.
  destruct (streaming_close_tab calm sample_first_q sample_str_json
              sample_py_int "c" (mkConn true (Some "e") false None [])
              [("type", JStr "close_tab"); ("tabId", JStr "e")] "e"
              one_tab
              (mkSession 3 [("e", mkTab 5 6000000 7000000 [] (-1))]
                 (Some "e") 8000000 9000000)
              eq_refl eq_refl) as [H _].
  - discriminate.
  - reflexivity.
  - repeat constructor; simpl; intuition discriminate.
  - reflexivity.
  - intros n. reflexivity.
  - exact (H eq_refl).
Defined.

Lemma esc_leaves_no_markup_witness :
  (forall c,
     In c (list_ascii_of_string (esc "a<b")) ->
     c <> "<"%char /\ c <> ">"%char /\ c <> ascii_of_nat 34) /\
  esc "x onmouseover=alert(1)" = "x onmouseover=alert(1)".
Proof.
  split.
  - apply (proj1 (esc_leaves_no_markup "a<b")).
  - apply (proj2 (esc_leaves_no_markup "x onmouseover=alert(1)")).
    intros c H. simpl in H.
    repeat (destruct H as [<- | H]; [repeat split; discriminate|]).
    destruct H.
Defined.

Lemma esc_is_injective_witness :
  String "<" (String (ascii_of_nat 34) "b")
  = String "<" (String (ascii_of_nat 34) "b").
Proof.
  exact (esc_is_injective (String "<" (String (ascii_of_nat 34) "b"))
           (String "<" (String (ascii_of_nat 34) "b")) eq_refl).
Defined.

Lemma malformed_search_answer_fails_navigation_witness :
  (exists e w',
     _render_search_results_html odd_api sample_str_json "x" one_tab
     = (Raise e, w')) /\
  (exists detail w',
     navigate odd_api sample_first_q sample_str_json
       "c" "chrome://search?q=x" None one_tab
     = (Raise (HTTPException 500 detail), w') /\
     lookup_tab "c" "e" w' = Some (mkTab 5 6000000 11000000 [] (-1))).
Proof.
  apply (malformed_search_answer_fails_navigation odd_api sample_first_q
           sample_str_json "c" "chrome://search?q=x" None "x" one_tab
           (mkSession 3 [("e", mkTab 5 6000000 7000000 [] (-1))] (Some "e")
              8000000 9000000)
           "e" (mkTab 5 6000000 7000000 [] (-1))
           [("searchInformation", JDict [("totalResults", JStr "1")]);
            ("items", JNum 5)]
           (JNum 5) eq_refl (fun n => eq_refl) eq_refl).
  - intros v Hv _. injection Hv as <-. eauto.
  - reflexivity.
  - intros l. discriminate.
  - reflexivity.
  - reflexivity.
  - reflexivity.
  - reflexivity.
Defined.

Lemma activate_tab_sets_the_pointer_witness :
  exists w' s',
    activate_tab calm "c" "e" two_tabs
    = (Ret (Reply "active" None None (Some "e")), w') /\
    Dict.get "c" (sessions w') = Some s' /\
    active_tab_id s' = Some "e" /\
    tabs s'
    = [("e", mkTab 5 6000000 16000000 [] (-1));
       ("k", mkTab 11 12000000 13000000 [] (-1))].
Proof.
  destruct (activate_tab_sets_the_pointer calm "c" "e" two_tabs
              (mkSession 3
                 [("e", mkTab 5 6000000 7000000 [] (-1));
                  ("k", mkTab 11 12000000 13000000 [] (-1))]
                 (Some "k") 8000000 14000000)
              (mkTab 5 6000000 7000000 [] (-1)) eq_refl eq_refl)
    as (w' & s' & H1 & H2 & H3 & _ & H5 & _).
  exists w', s'. split; [exact H1|]. split; [exact H2|].
  split; [exact H3 | exact H5].
Defined.

Lemma streaming_history_moves_like_http_witness :
  sessions
    (snd (ws_command calm sample_first_q sample_str_json sample_py_int
            "c" (mkConn true (Some "e") false None [])
            (JDict [("type", JStr "back"); ("tabId", JStr "e")]) visited))
  = sessions (snd (go_back calm "c" (Some "e") visited)).
Proof.
  apply (streaming_history_moves_like_http calm sample_first_q
           sample_str_json sample_py_int false
           "c" (mkConn true (Some "e") false None [])
           [("type", JStr "back"); ("tabId", JStr "e")] "e" visited
           (mkSession 3
              [("e", mkTab 5 6000000 7000000
                       ["https://a.example/"; "https://b.example/"] 1)]
              (Some "e") 8000000 9000000)
           (mkTab 5 6000000 7000000
              ["https://a.example/"; "https://b.example/"] 1)
           eq_refl eq_refl).
  - discriminate.
  - reflexivity.
  - reflexivity.
Defined.
